(** * pixi.js scene views and the mesh batching pipe

    A shallow embedding of
      - [ViewContainer] (src/scene/view/ViewContainer.ts),
      - [NineSliceSprite] and [AbstractText] / [HTMLText],
      - [MeshPipe] (src/scene/mesh/shared/MeshPipe.ts),
      - [multiplyColors],
      - [generateLayoutHash],
      - [EventSystem] (src/events/EventSystem.ts): cursor, listeners,
        position mapping and the normalisation of native events.

    Conventions.  A JavaScript object is a record of its fields and a method
    is a function from the record to the record after the call.  Calls that
    leave the modelled classes (render group, batcher, pool, event emitter)
    are appended to a call log kept next to the fields, so that "is called
    once" and "is never called" are statements about that log.  Coordinates
    are JavaScript numbers.  Where a statement is about the expressions the
    code itself evaluates (the layout of a rectangle, a comparison against
    its edges) they are idealised as rationals ([Q]), without rounding, NaN
    or infinities.  Where two different expressions for the same quantity
    are compared, rounding decides, and the numbers are IEEE 754 doubles
    (module [Doubles], used by [TextDoubles] and by the position mapping
    of [Events]).  Counters and colours are integers ([Z]), object
    identities ([uid]) are naturals. *)

From Stdlib Require Import QArith Lqa.
From Stdlib Require SpecFloat.
From stdpp Require Import base option list gmap strings pretty.

Local Open Scope Z_scope.

(* ===================================================================== *)
(** * Tint composition *)
(* ===================================================================== *)

Module Colors.

Definition WHITE_BGR : Z := 0xFFFFFF.

Section MultiplyColors.
  (** [multiplyHexColors] lives in its own file, which is not part of the
      sources at hand; it is a parameter of [multiplyColors]. *)
Variable multiplyHexColors : Z -> Z -> Z.

Definition multiplyColors (localBGRColor parentBGRColor : Z) : Z :=
    if localBGRColor =? WHITE_BGR then parentBGRColor
    else if parentBGRColor =? WHITE_BGR then localBGRColor
    else multiplyHexColors localBGRColor parentBGRColor.
End MultiplyColors.

End Colors.

(* ===================================================================== *)
(** * Views *)
(* ===================================================================== *)

Module Scene.

(** [PointData]: the common interface of points. *)
Record PointData := mkPoint { x : Q; y : Q }.

(** The four coordinates of a [Bounds] rectangle.  The class itself is
    declared in scene/container/bounds/Bounds.ts. *)
Record Bounds := mkBounds { minX : Q; minY : Q; maxX : Q; maxY : Q }.

(** JavaScript [a >= b] and [a <= b] on numbers. *)
Definition geq (a b : Q) : bool := Qle_bool b a.
Definition leq (a b : Q) : bool := Qle_bool a b.

(** Calls a view makes on itself or on its collaborators. *)
Inductive Call :=
| CallUpdateBounds                          (* this.updateBounds() *)
| CallOnChildViewUpdate (group view : N)    (* renderGroup.onChildViewUpdate(this) *)
| CallTextureOn (texture : N)               (* texture.on('update', this.onViewUpdate, this) *)
| CallTextureOff (texture : N).             (* texture.off('update', this.onViewUpdate, this) *)

Global Instance Call_eq_dec : EqDecision Call.
Proof. solve_decision. Defined.

(** The fields of [ViewContainer] (and those it inherits from [Container]
    that its methods touch).  [X] holds the fields a concrete subclass adds.
    Render groups are referred to by identity. *)
Record ViewContainer (X : Type) := mkView {
  uid : N;
  _didViewChangeTick : Z;
  didViewUpdate : bool;
  renderGroup : option N;
  parentRenderGroup : option N;
  _bounds : Bounds;
  _boundsDirty : bool;
  self : X;
  calls : list Call;
}.
Arguments mkView {X}.
Arguments uid {X}.
Arguments _didViewChangeTick {X}.
Arguments didViewUpdate {X}.
Arguments renderGroup {X}.
Arguments parentRenderGroup {X}.
Arguments _bounds {X}.
Arguments _boundsDirty {X}.
Arguments self {X}.
Arguments calls {X}.

Section Setters.
Context {X : Type}.
Implicit Type v : ViewContainer X.

Definition set_tick (t : Z) v : ViewContainer X :=
    mkView (uid v) t (didViewUpdate v) (renderGroup v) (parentRenderGroup v)
           (_bounds v) (_boundsDirty v) (self v) (calls v).
Definition set_didViewUpdate (d : bool) v : ViewContainer X :=
    mkView (uid v) (_didViewChangeTick v) d (renderGroup v) (parentRenderGroup v)
           (_bounds v) (_boundsDirty v) (self v) (calls v).
Definition set_bounds (b : Bounds) v : ViewContainer X :=
    mkView (uid v) (_didViewChangeTick v) (didViewUpdate v) (renderGroup v)
           (parentRenderGroup v) b (_boundsDirty v) (self v) (calls v).
Definition set_boundsDirty (d : bool) v : ViewContainer X :=
    mkView (uid v) (_didViewChangeTick v) (didViewUpdate v) (renderGroup v)
           (parentRenderGroup v) (_bounds v) d (self v) (calls v).
Definition set_self (s : X) v : ViewContainer X :=
    mkView (uid v) (_didViewChangeTick v) (didViewUpdate v) (renderGroup v)
           (parentRenderGroup v) (_bounds v) (_boundsDirty v) s (calls v).
Definition call (c : Call) v : ViewContainer X :=
    mkView (uid v) (_didViewChangeTick v) (didViewUpdate v) (renderGroup v)
           (parentRenderGroup v) (_bounds v) (_boundsDirty v) (self v)
           (calls v ++ [c]).
End Setters.

(** The abstract method [updateBounds] of a concrete view class.  Every
    implementation in the sources writes the four fields of [this._bounds]
    and nothing else, which is the law of the class. *)
Class ViewClass (X : Type) := {
  updateBounds : ViewContainer X -> ViewContainer X;
  updateBounds_frame :
    forall v, updateBounds v = set_bounds (_bounds (updateBounds v)) v;
}.

Section ViewContainerMethods.
Context {X : Type} `{ViewClass X}.
Implicit Type v : ViewContainer X.

  (** [get bounds()] *)
Definition bounds v : Bounds * ViewContainer X :=
    if negb (_boundsDirty v) then (_bounds v, v)
    else
      let v := updateBounds (call CallUpdateBounds v) in
      let v := set_boundsDirty false v in
      (_bounds v, v).

  (** [containsPoint(point)] *)
Definition containsPoint (point : PointData) v : bool * ViewContainer X :=
    let '(bounds, v) := bounds v in
    (geq (x point) (minX bounds)
     && leq (x point) (maxX bounds)
     && geq (y point) (minY bounds)
     && leq (y point) (maxY bounds), v).

  (** [this.renderGroup || this.parentRenderGroup] *)
Definition owningRenderGroup v : option N :=
    match renderGroup v with
    | Some g => Some g
    | None => parentRenderGroup v
    end.

  (** [onViewUpdate()] *)
Definition onViewUpdate v : ViewContainer X :=
    let v := set_tick (_didViewChangeTick v + 1) v in
    let v := set_boundsDirty true v in
    if didViewUpdate v then v
    else
      let v := set_didViewUpdate true v in
      match owningRenderGroup v with
      | Some g => call (CallOnChildViewUpdate g (uid v)) v
      | None => v
      end.

  (** The tail of [collectRenderablesSimple] that concerns the view itself:
      once the pipe has taken the view, the pending flag is cleared. *)
Definition clearViewUpdate v : ViewContainer X := set_didViewUpdate false v.
End ViewContainerMethods.

(** Observations on the call log: how often the render group was notified
    and how often [updateBounds] ran. *)
Definition is_notification (c : Call) : bool :=
  match c with CallOnChildViewUpdate _ _ => true | _ => false end.
Definition is_updateBounds (c : Call) : bool :=
  match c with CallUpdateBounds => true | _ => false end.

Definition notifications {X : Type} (v : ViewContainer X) : nat :=
  length (List.filter is_notification (calls v)).
Definition updateBoundsCalls {X : Type} (v : ViewContainer X) : nat :=
  length (List.filter is_updateBounds (calls v)).

(** The notification a call of [onViewUpdate] sends out, if any. *)
Definition notification {X : Type} (v : ViewContainer X) : list Call :=
  if didViewUpdate v then []
  else match owningRenderGroup v with
       | Some g => [CallOnChildViewUpdate g (uid v)]
       | None => []
       end.

(** Whether the view has a render group of its own or an enclosing one. *)
Definition attached {X : Type} (v : ViewContainer X) : bool :=
  match owningRenderGroup v with Some _ => true | None => false end.

(** The reading of [onViewUpdate] under which a call notifies a render
    group exactly when no update was pending. *)
Definition notifies_iff_not_pending {X : Type} (v : ViewContainer X) : Prop :=
  notifications (onViewUpdate v) = S (notifications v) <-> didViewUpdate v = false.

(** [minX <= maxX] and [minY <= maxY]. *)
Definition well_formed (b : Bounds) : Prop :=
  (minX b <= maxX b)%Q /\ (minY b <= maxY b)%Q.

(** The rectangle [updateBounds] of the anchored views lays out for an
    anchor and a size. *)
Definition anchored (b : Bounds) (ax ay width height : Q) : Prop :=
  (minX b == - ax * width)%Q /\ (maxX b == minX b + width)%Q /\
  (minY b == - ay * height)%Q /\ (maxY b == minY b + height)%Q.

End Scene.

(** Textures are shared objects compared by reference ([===]); a reference
    is its [uid] together with the [dynamic] flag read by the setters. *)
Record Texture := mkTexture { tex_uid : N; dynamic : bool }.

Global Instance Texture_eq_dec : EqDecision Texture.
Proof. solve_decision. Defined.

(** The coordinates of an [ObservablePoint]; the observer of an anchor is
    fixed at construction to the owner's [onViewUpdate]. *)
Record ObservablePoint := mkObservablePoint { _x : Q; _y : Q }.

(* ===================================================================== *)
(** * NineSliceSprite *)
(* ===================================================================== *)

Module NineSlice.
Import Scene.

Record NineSliceSprite := mkNineSliceSprite {
  _texture : option Texture;     (* None: not yet assigned (or nulled by destroy) *)
  _anchor : ObservablePoint;
  _leftWidth : Q;
  _topHeight : Q;
  _rightWidth : Q;
  _bottomHeight : Q;
  _width : Q;
  _height : Q;
}.

Definition with_texture (t : option Texture) (s : NineSliceSprite) :=
  mkNineSliceSprite t (_anchor s) (_leftWidth s) (_topHeight s) (_rightWidth s)
                    (_bottomHeight s) (_width s) (_height s).
Definition with_leftWidth (q : Q) (s : NineSliceSprite) :=
  mkNineSliceSprite (_texture s) (_anchor s) q (_topHeight s) (_rightWidth s)
                    (_bottomHeight s) (_width s) (_height s).
Definition with_topHeight (q : Q) (s : NineSliceSprite) :=
  mkNineSliceSprite (_texture s) (_anchor s) (_leftWidth s) q (_rightWidth s)
                    (_bottomHeight s) (_width s) (_height s).
Definition with_rightWidth (q : Q) (s : NineSliceSprite) :=
  mkNineSliceSprite (_texture s) (_anchor s) (_leftWidth s) (_topHeight s) q
                    (_bottomHeight s) (_width s) (_height s).
Definition with_bottomHeight (q : Q) (s : NineSliceSprite) :=
  mkNineSliceSprite (_texture s) (_anchor s) (_leftWidth s) (_topHeight s)
                    (_rightWidth s) q (_width s) (_height s).
Definition with_width (q : Q) (s : NineSliceSprite) :=
  mkNineSliceSprite (_texture s) (_anchor s) (_leftWidth s) (_topHeight s)
                    (_rightWidth s) (_bottomHeight s) q (_height s).
Definition with_height (q : Q) (s : NineSliceSprite) :=
  mkNineSliceSprite (_texture s) (_anchor s) (_leftWidth s) (_topHeight s)
                    (_rightWidth s) (_bottomHeight s) (_width s) q.

Abbreviation View := (ViewContainer NineSliceSprite).

(** [updateBounds()] *)
Definition updateBounds (v : View) : View :=
  let anchor := _anchor (self v) in
  let width := _width (self v) in
  let height := _height (self v) in
  let minX := (- _x anchor * width)%Q in
  let maxX := (minX + width)%Q in
  let minY := (- _y anchor * height)%Q in
  let maxY := (minY + height)%Q in
  set_bounds (mkBounds minX minY maxX maxY) v.

Global Instance NineSliceSprite_view : ViewClass NineSliceSprite.
Proof. refine {| Scene.updateBounds := updateBounds |}. by intros []. Defined.

(** [set width(value)], [set height(value)] *)
Definition set_width (value : Q) (v : View) : View :=
  onViewUpdate (set_self (with_width value (self v)) v).
Definition set_height (value : Q) (v : View) : View :=
  onViewUpdate (set_self (with_height value (self v)) v).

(** [setSize(value, height)] called with two numbers. *)
Definition setSize (value height : Q) (v : View) : View :=
  onViewUpdate (set_self (with_height height (with_width value (self v))) v).

(** [set leftWidth], [set topHeight], [set rightWidth], [set bottomHeight] *)
Definition set_leftWidth (value : Q) (v : View) : View :=
  onViewUpdate (set_self (with_leftWidth value (self v)) v).
Definition set_topHeight (value : Q) (v : View) : View :=
  onViewUpdate (set_self (with_topHeight value (self v)) v).
Definition set_rightWidth (value : Q) (v : View) : View :=
  onViewUpdate (set_self (with_rightWidth value (self v)) v).
Definition set_bottomHeight (value : Q) (v : View) : View :=
  onViewUpdate (set_self (with_bottomHeight value (self v)) v).

Section TextureSetter.
  (** [Texture.EMPTY], the shared placeholder texture. *)
Variable EMPTY : Texture.

  (** [set texture(value)]; [None] is a null or undefined argument. *)
Definition set_texture (value : option Texture) (v : View) : View :=
    let value := default EMPTY value in
    let currentTexture := _texture (self v) in
    if decide (currentTexture = Some value) then v
    else
      let v := match currentTexture with
               | Some c => if dynamic c then call (CallTextureOff (tex_uid c)) v else v
               | None => v
               end in
      let v := if dynamic value then call (CallTextureOn (tex_uid value)) v else v in
      let v := set_self (with_texture (Some value) (self v)) v in
      onViewUpdate v.
End TextureSetter.

End NineSlice.

(* ===================================================================== *)
(** * AbstractText and HTMLText *)
(* ===================================================================== *)

Module Text.
Import Scene.

(** [Number.MAX_SAFE_INTEGER], 2^53 - 1. *)
Definition MAX_SAFE_INTEGER : Z := 9007199254740991.

(** [TextString = string | number | { toString: () => string }].  A number
    is a safe integer (at most [MAX_SAFE_INTEGER] in magnitude), which
    [Number.prototype.toString] prints with all its decimal digits; an
    object is given by what its [toString] returns. *)
Inductive TextString :=
| TextOfString (s : string)
| TextOfNumber (n : Z) (safe : (Z.abs n <=? MAX_SAFE_INTEGER) = true)
| TextOfObject (repr : string).

Definition toString (value : TextString) : string :=
  match value with
  | TextOfString s => s
  | TextOfNumber n _ => pretty n
  | TextOfObject repr => repr
  end.

(** What [measureHtmlText] returns. *)
Record Size := mkSize { width : Q; height : Q }.

Section Style.
  (** The style class of the text ([TextStyle], [HTMLTextStyle]). *)
Variable Style : Type.

Record AbstractText := mkAbstractText {
    _anchor : ObservablePoint;
    _text : string;
    _style : Style;
    _didTextUpdate : bool;
  }.

Definition with_text (t : string) (s : AbstractText) :=
    mkAbstractText (_anchor s) t (_style s) (_didTextUpdate s).
Definition with_didTextUpdate (d : bool) (s : AbstractText) :=
    mkAbstractText (_anchor s) (_text s) (_style s) d.

Abbreviation View := (ViewContainer AbstractText).

  (** [AbstractText.onViewUpdate()], the override. *)
Definition onViewUpdate (v : View) : View :=
    let v := if negb (didViewUpdate v)
             then set_self (with_didTextUpdate true (self v)) v else v in
    Scene.onViewUpdate v.

  (** [set text(value)] *)
Definition set_text (value : TextString) (v : View) : View :=
    let value := toString value in
    if decide (_text (self v) = value) then v
    else onViewUpdate (set_self (with_text value (self v)) v).

  (** [get text()] *)
Definition text (v : View) : string := _text (self v).

  (** [measureHtmlText] is imported from text-html/utils, outside the
      sources at hand; it is a parameter of [HTMLText]. *)
Variable measureHtmlText : string -> Style -> Size.

  (** [HTMLText.updateBounds()] *)
Definition updateBounds (v : View) : View :=
    let anchor := _anchor (self v) in
    let htmlMeasurement := measureHtmlText (text v) (_style (self v)) in
    let width := width htmlMeasurement in
    let height := height htmlMeasurement in
    let minX := (- _x anchor * width)%Q in
    let maxX := (minX + width)%Q in
    let minY := (- _y anchor * height)%Q in
    let maxY := (minY + height)%Q in
    set_bounds (mkBounds minX minY maxX maxY) v.

Definition HTMLText_view : ViewClass AbstractText.
Proof. refine {| Scene.updateBounds := updateBounds |}. by intros []. Defined.
End Style.

Arguments _anchor {Style}.
Arguments _text {Style}.
Arguments _style {Style}.
Arguments _didTextUpdate {Style}.
Arguments mkAbstractText {Style}.
Arguments onViewUpdate {Style}.
Arguments set_text {Style}.
Arguments text {Style}.
Arguments updateBounds {Style}.
Arguments HTMLText_view {Style}.

End Text.

(* ===================================================================== *)
(** * Hit testing a text in double precision *)
(* ===================================================================== *)

(** JavaScript numbers as they are: IEEE 754 binary64 with rounding to
    nearest, ties to even, after the reference implementation of the
    Standard Library ([SpecFloat], precision 53, largest exponent 1024). *)
Module Doubles.
Import SpecFloat.

Definition number : Type := spec_float.

Definition add : number -> number -> number := SFadd 53 1024.
Definition sub : number -> number -> number := SFsub 53 1024.
Definition mul : number -> number -> number := SFmul 53 1024.
Definition div : number -> number -> number := SFdiv 53 1024.
Definition neg : number -> number := SFopp.

(** [a >= b], [a <= b] and [a === b]: false as soon as one side is NaN;
    the two zeros are equal. *)
Definition geq (a b : number) : bool := SFleb b a.
Definition leq (a b : number) : bool := SFleb a b.
Definition same (a b : number) : bool := SFeqb a b.

(** An integer literal, and a decimal literal such as [100.3], written
    [decimal 1003 10]: numerator and power of ten are held exactly, and
    their quotient is rounded once, to the double the literal denotes. *)
Definition integer (z : Z) : number := binary_normalize 53 1024 z 0 false.
Definition decimal (digits scale : Z) : number := div (integer digits) (integer scale).

(** [Number.isFinite(a)], and whether [a] is one of the two zeros. *)
Definition isFinite (a : number) : bool :=
  match a with S754_zero _ | S754_finite _ _ _ => true | _ => false end.
Definition isZero (a : number) : bool :=
  match a with S754_zero _ => true | _ => false end.

(** [PointData] with its coordinates in doubles. *)
Record PointData := mkPoint { x : number; y : number }.

End Doubles.

(** [HTMLText] with its coordinates in doubles: the fields that the bounds
    and the two hit tests read, the getter [bounds] of [ViewContainer],
    [HTMLText.updateBounds], the inherited [ViewContainer.containsPoint]
    and the override [AbstractText.containsPoint]. *)
Module TextDoubles.
Import Doubles.

Record Bounds := mkBounds { minX : number; minY : number; maxX : number; maxY : number }.
Record ObservablePoint := mkObservablePoint { _x : number; _y : number }.

(** Modelled from the spec: the [width] and [height] accessors of [Bounds]
    (the class is not among the sources); they are the extents of the
    rectangle described by [minX, minY, maxX, maxY]. *)
Definition Bounds_width (b : Bounds) : number := sub (maxX b) (minX b).
Definition Bounds_height (b : Bounds) : number := sub (maxY b) (minY b).

(** What [measureHtmlText] returns. *)
Record Size := mkSize { width : number; height : number }.

Section Style.
Variable Style : Type.

Record HTMLText := mkHTMLText {
    _bounds : Bounds;
    _boundsDirty : bool;
    _anchor : ObservablePoint;
    _text : string;
    _style : Style;
  }.

Definition set_bounds (b : Bounds) (t : HTMLText) : HTMLText :=
    mkHTMLText b (_boundsDirty t) (_anchor t) (_text t) (_style t).
Definition set_boundsDirty (d : bool) (t : HTMLText) : HTMLText :=
    mkHTMLText (_bounds t) d (_anchor t) (_text t) (_style t).

  (** [measureHtmlText] is imported from text-html/utils, outside the
      sources at hand; it is a parameter. *)
Variable measureHtmlText : string -> Style -> Size.

  (** [HTMLText.updateBounds()] *)
Definition updateBounds (t : HTMLText) : HTMLText :=
    let anchor := _anchor t in
    let htmlMeasurement := measureHtmlText (_text t) (_style t) in
    let width := width htmlMeasurement in
    let height := height htmlMeasurement in
    let minX := mul (neg (_x anchor)) width in
    let maxX := add minX width in
    let minY := mul (neg (_y anchor)) height in
    let maxY := add minY height in
    set_bounds (mkBounds minX minY maxX maxY) t.

  (** [get bounds()] of [ViewContainer] *)
Definition bounds (t : HTMLText) : Bounds * HTMLText :=
    if negb (_boundsDirty t) then (_bounds t, t)
    else
      let t := updateBounds t in
      let t := set_boundsDirty false t in
      (_bounds t, t).

  (** [ViewContainer.containsPoint(point)], as inherited. *)
Definition ViewContainer_containsPoint (point : PointData) (t : HTMLText)
    : bool * HTMLText :=
    let '(bounds, t) := bounds t in
    (geq (x point) (minX bounds)
     && leq (x point) (maxX bounds)
     && geq (y point) (minY bounds)
     && leq (y point) (maxY bounds), t).

  (** [AbstractText.containsPoint(point)], the override. *)
Definition containsPoint (point : PointData) (t : HTMLText) : bool * HTMLText :=
    let '(b, t) := bounds t in
    let width := Bounds_width b in
    let '(b, t) := bounds t in
    let height := Bounds_height b in
    let anchor := _anchor t in
    let x1 := mul (neg width) (_x anchor) in
    if geq (x point) x1 && leq (x point) (add x1 width) then
      let y1 := mul (neg height) (_y anchor) in
      if geq (y point) y1 && leq (y point) (add y1 height) then (true, t)
      else (false, t)
    else (false, t).

  (** The cached bounds are those that [updateBounds] produces: either
      they are due to be computed, or they are what would be computed. *)
Definition computed (t : HTMLText) : Prop :=
    _boundsDirty t = false -> _bounds t = _bounds (updateBounds t).
End Style.

Arguments mkHTMLText {Style}.
Arguments _bounds {Style}.
Arguments _boundsDirty {Style}.
Arguments _anchor {Style}.
Arguments _text {Style}.
Arguments _style {Style}.
Arguments updateBounds {Style}.
Arguments bounds {Style}.
Arguments ViewContainer_containsPoint {Style}.
Arguments containsPoint {Style}.
Arguments computed {Style}.

(** Along one axis: the two edges [updateBounds] lays out for an anchor
    coordinate [a] and an extent [w], and the two edges the override
    recomputes from them ([x1] and [x1 + width]). *)
Definition laid_out (a w : number) : number * number :=
  let lo := mul (neg a) w in (lo, add lo w).
Definition recomputed (a w : number) : number * number :=
  let '(lo, hi) := laid_out a w in
  let extent := sub hi lo in
  let lo' := mul (neg extent) a in (lo', add lo' extent).

(** Recomputing the edges loses nothing: both come out equal to the edges
    that were laid out. *)
Definition recomputes_exactly (a w : number) : bool :=
  same (fst (recomputed a w)) (fst (laid_out a w))
  && same (snd (recomputed a w)) (snd (laid_out a w)).

(** A line of text that measures 100.3 by 20, anchored at 0.3 of its
    width, and the same line anchored at its top left corner; the bounds
    of both are still to be computed. *)
Definition measure_line (text : string) (style : unit) : Size :=
  mkSize (decimal 1003 10) (integer 20).

Definition line : HTMLText unit :=
  mkHTMLText (mkBounds (integer 0) (integer 1) (integer 0) (integer 0)) true
             (mkObservablePoint (decimal 3 10) (integer 0)) "line" tt.

Definition line_at_origin : HTMLText unit :=
  mkHTMLText (mkBounds (integer 0) (integer 1) (integer 0) (integer 0)) true
             (mkObservablePoint (integer 0) (integer 0)) "line" tt.

(** A label that measures 40 by 12, anchored at its centre. *)
Definition measure_label (text : string) (style : unit) : Size :=
  mkSize (integer 40) (integer 12).

Definition centred_label : HTMLText unit :=
  mkHTMLText (mkBounds (integer 0) (integer 1) (integer 0) (integer 0)) true
             (mkObservablePoint (decimal 5 10) (decimal 5 10)) "42" tt.

End TextDoubles.

(* ===================================================================== *)
(** * MeshPipe *)
(* ===================================================================== *)

Module MeshPipe.

(** A method that may end in a JavaScript [TypeError]. *)
Inductive Completion (A : Type) :=
| Normal (a : A)
| TypeError.
Arguments Normal {A}.
Arguments TypeError {A}.

(** [MeshGeometry]: the index and position arrays whose lengths the pipe
    records. *)
Record MeshGeometry := mkMeshGeometry {
  geometry_id : N;
  indices : list N;
  positions : list Q;
}.

(** The fields of a [Mesh] that the pipe reads.  [groupTransform] is a
    reference to a matrix. *)
Record Mesh := mkMesh {
  uid : N;
  batched : bool;
  _geometry : MeshGeometry;
  _texture : Texture;
  groupTransform : N;
  _roundPixels : bool;
}.

(** [interface MeshData] *)
Record MeshData := mkMeshData {
  md_batched : bool;
  indexSize : nat;
  vertexSize : nat;
}.

(** Modelled from the spec: [BatchableMesh], the pooled GPU-side batch
    record of a view (scene/mesh/shared/BatchableMesh.ts is not among the
    sources), with the references the pipe assigns and refreshes, and
    [_batcher], the batcher whose batch the record was merged into, which
    the pipe dereferences.  A record that was never merged into a batch
    has none ([null]). *)
Record BatchableMesh := mkBatchableMesh {
  renderable : N;
  texture : Texture;
  geometry : option MeshGeometry;
  transform : N;
  roundPixels : bool;
  _textureMatrixUpdateId : Z;
  _batcher : option N;
}.

(** Modelled from the spec: [BatchableMesh.setTexture], which refreshes the
    texture reference of the record. *)
Definition setTexture (value : Texture) (g : BatchableMesh) : BatchableMesh :=
  mkBatchableMesh (renderable g) value (geometry g) (transform g)
                  (roundPixels g) (_textureMatrixUpdateId g) (_batcher g).
Definition set_geometry (value : MeshGeometry) (g : BatchableMesh) : BatchableMesh :=
  mkBatchableMesh (renderable g) (texture g) (Some value) (transform g)
                  (roundPixels g) (_textureMatrixUpdateId g) (_batcher g).
Definition set_textureMatrixUpdateId (value : Z) (g : BatchableMesh) : BatchableMesh :=
  mkBatchableMesh (renderable g) (texture g) (geometry g) (transform g)
                  (roundPixels g) value (_batcher g).
Definition set_batcher (value : option N) (g : BatchableMesh) : BatchableMesh :=
  mkBatchableMesh (renderable g) (texture g) (geometry g) (transform g)
                  (roundPixels g) (_textureMatrixUpdateId g) value.

(** The instruction set: draw a batch of elements, or draw one renderable. *)
Inductive Instruction :=
| DrawBatch (elements : list N)
| DrawRenderable (mesh : N).

Abbreviation InstructionSet := (list Instruction).

(** [instructionSet.add(mesh)] *)
Definition InstructionSet_add (mesh : Mesh) (instructionSet : InstructionSet)
  : InstructionSet := instructionSet ++ [DrawRenderable (uid mesh)].

(** Modelled from the spec: the shared batcher [renderer.renderPipes.batch]
    (its class is not among the sources).  The batch in progress holds the
    elements merged so far and the textures they use, within a budget of
    texture slots.  A batch may only continue with a texture that is
    compatible with it: one of its textures already, or one for which a
    slot is free. *)
Record Batcher := mkBatcher {
  batcher_id : N;
  maxTextures : nat;
  accumulating : list N;
  batchTextures : list N;
}.

Definition compatible (value : Texture) (b : Batcher) : bool :=
  bool_decide (tex_uid value ∈ batchTextures b)
  || (length (batchTextures b) <? maxTextures b)%nat.

(** Modelled from the spec: [batcher.break(instructionSet)] flushes
    whatever batch was accumulating into the instruction set as one
    instruction, which is always recorded. *)
Definition Batcher_break (b : Batcher) (instructionSet : InstructionSet)
  : Batcher * InstructionSet :=
  (mkBatcher (batcher_id b) (maxTextures b) [] [],
   instructionSet ++ [DrawBatch (accumulating b)]).

(** Modelled from the spec: [batcher.addToBatch(element, instructionSet)]
    merges the element into the batch in progress; an element whose
    texture is not compatible with that batch forces a break first.
    Either way the element then belongs to the batcher. *)
Definition Batcher_addToBatch (element : BatchableMesh)
    (instructionSet : InstructionSet) (b : Batcher)
  : BatchableMesh * Batcher * InstructionSet :=
  let '(b, instructionSet) :=
    if compatible (texture element) b then (b, instructionSet)
    else Batcher_break b instructionSet in
  let textures :=
    if bool_decide (tex_uid (texture element) ∈ batchTextures b)
    then batchTextures b
    else batchTextures b ++ [tex_uid (texture element)] in
  (set_batcher (Some (batcher_id b)) element,
   mkBatcher (batcher_id b) (maxTextures b)
             (accumulating b ++ [renderable element]) textures,
   instructionSet).

(** Calls that leave the pipe. *)
Inductive Call :=
| CallPoolGet                                   (* BigPool.get(BatchableMesh) *)
| CallPoolReturn (renderable : N)               (* BigPool.return(gpuMesh) *)
| CallCheckAndUpdateTexture (batcher renderable : N)
                                                (* _batcher.checkAndUpdateTexture(..) *)
| CallUpdateElement (batcher renderable : N)    (* _batcher.updateElement(..) *)
| CallAddToBatch (renderable : N)               (* batcher.addToBatch(..) *)
| CallBreak                                     (* batcher.break(..) *)
| CallOn (mesh : N)                             (* mesh.on('destroyed', ..) *)
| CallOff (mesh : N).                           (* mesh.off('destroyed', ..) *)

Global Instance Call_eq_dec : EqDecision Call.
Proof. solve_decision. Defined.

(** The fields of a constructed [MeshPipe], the batcher and the pool it
    works with, and the log of its outgoing calls.  A hash entry [Some None]
    is a key holding [null].  ([destroy()], which nulls the hashes
    themselves, ends the life of the pipe.) *)
Record Pipe := mkPipe {
  renderer_roundPixels : bool;
  _meshDataHash : gmap N (option MeshData);
  _gpuBatchableMeshHash : gmap N (option BatchableMesh);
  batch : Batcher;
  BigPool : list BatchableMesh;
  calls : list Call;
}.

Definition set_meshDataHash (h : gmap N (option MeshData)) (p : Pipe) : Pipe :=
  mkPipe (renderer_roundPixels p) h (_gpuBatchableMeshHash p) (batch p)
         (BigPool p) (calls p).
Definition set_gpuBatchableMeshHash (h : gmap N (option BatchableMesh)) (p : Pipe) : Pipe :=
  mkPipe (renderer_roundPixels p) (_meshDataHash p) h (batch p) (BigPool p) (calls p).
Definition set_batch (b : Batcher) (p : Pipe) : Pipe :=
  mkPipe (renderer_roundPixels p) (_meshDataHash p) (_gpuBatchableMeshHash p) b
         (BigPool p) (calls p).
Definition set_BigPool (l : list BatchableMesh) (p : Pipe) : Pipe :=
  mkPipe (renderer_roundPixels p) (_meshDataHash p) (_gpuBatchableMeshHash p)
         (batch p) l (calls p).
Definition call (c : Call) (p : Pipe) : Pipe :=
  mkPipe (renderer_roundPixels p) (_meshDataHash p) (_gpuBatchableMeshHash p)
         (batch p) (BigPool p) (calls p ++ [c]).

(** [hash[key]] read for its truthiness: a missing key ([undefined]) and a
    key holding [null] are both falsy. *)
Definition record_at {A : Type} (h : gmap N (option A)) (key : N) : option A :=
  mjoin (h !! key).

(** [meshDataHash[uid].field = ..]: a write through the shared record. *)
Definition write_meshData (mesh : Mesh) (d : MeshData) (p : Pipe) : Pipe :=
  set_meshDataHash (<[uid mesh := Some d]> (_meshDataHash p)) p.
Definition write_batchableMesh (mesh : Mesh) (g : BatchableMesh) (p : Pipe) : Pipe :=
  set_gpuBatchableMeshHash (<[uid mesh := Some g]> (_gpuBatchableMeshHash p)) p.

(** [_initMeshData(mesh)] *)
Definition _initMeshData (mesh : Mesh) (p : Pipe) : MeshData * Pipe :=
  let d := mkMeshData (batched mesh)
                      (length (indices (_geometry mesh)))
                      (length (positions (_geometry mesh))) in
  let p := write_meshData mesh d p in
  let p := call (CallOn (uid mesh)) p in
  (d, p).

(** [_getMeshData(mesh)] *)
Definition _getMeshData (mesh : Mesh) (p : Pipe) : MeshData * Pipe :=
  match record_at (_meshDataHash p) (uid mesh) with
  | Some d => (d, p)
  | None => _initMeshData mesh p
  end.

(** Modelled from the spec: [BigPool.get], the [acquire] primitive of the
    object pool (utils/pool is not among the sources).  A free record is
    reused when there is one; the record handed out is blank, and so in no
    batch. *)
Definition BigPool_get (p : Pipe) : Pipe :=
  call CallPoolGet (set_BigPool (tail (BigPool p)) p).

(** Modelled from the spec: [BigPool.return], the [release] primitive. *)
Definition BigPool_return (g : BatchableMesh) (p : Pipe) : Pipe :=
  call (CallPoolReturn (renderable g)) (set_BigPool (g :: BigPool p) p).

(** [_initBatchableMesh(mesh)] *)
Definition _initBatchableMesh (mesh : Mesh) (p : Pipe) : BatchableMesh * Pipe :=
  let p := BigPool_get p in
  let gpuMesh :=
    mkBatchableMesh (uid mesh) (_texture mesh) None (groupTransform mesh)
                    (renderer_roundPixels p || _roundPixels mesh) (-1) None in
  let p := write_batchableMesh mesh gpuMesh p in
  (gpuMesh, p).

(** [_getBatchableMesh(mesh)] *)
Definition _getBatchableMesh (mesh : Mesh) (p : Pipe) : BatchableMesh * Pipe :=
  match record_at (_gpuBatchableMeshHash p) (uid mesh) with
  | Some g => (g, p)
  | None => _initBatchableMesh mesh p
  end.

Definition md_set_batched (b : bool) (d : MeshData) : MeshData :=
  mkMeshData b (indexSize d) (vertexSize d).

(** [geometry.indices.length !== meshData.indexSize
     || geometry.positions.length !== meshData.vertexSize] *)
Definition sizesDiffer (mesh : Mesh) (d : MeshData) : bool :=
  negb (length (indices (_geometry mesh)) =? indexSize d)%nat
  || negb (length (positions (_geometry mesh)) =? vertexSize d)%nat.

Section Batching.
(** [Batcher.checkAndUpdateTexture(element, texture)]: whether the texture
    is compatible with the batch the element sits in, and the element after
    the call.  The batcher is outside the sources at hand, so the check is
    a parameter of the pipe. *)
Variable checkAndUpdateTexture : BatchableMesh -> Texture -> bool * BatchableMesh.

(** [validateRenderable(mesh)]: how the call ends, and the pipe as it
    leaves it.  The method of [batchableMesh._batcher] is called on [null]
    when the record is in no batch, which is a [TypeError]. *)
Definition validateRenderable (mesh : Mesh) (p : Pipe) : Completion bool * Pipe :=
  let '(meshData, p) := _getMeshData mesh p in
  let wasBatched := md_batched meshData in
  let isBatched := batched mesh in
  let meshData := md_set_batched isBatched meshData in
  let p := write_meshData mesh meshData p in
  if negb (eqb wasBatched isBatched) then (Normal true, p)
  else if isBatched then
    if sizesDiffer mesh meshData
    then
      let geometry := _geometry mesh in
      let meshData := mkMeshData (md_batched meshData)
                                 (length (indices geometry))
                                 (length (positions geometry)) in
      (Normal true, write_meshData mesh meshData p)
    else
      let '(batchableMesh, p) := _getBatchableMesh mesh p in
      let batchableMesh :=
        if negb (tex_uid (texture batchableMesh) =? tex_uid (_texture mesh))%N
        then set_textureMatrixUpdateId (-1) batchableMesh
        else batchableMesh in
      let p := write_batchableMesh mesh batchableMesh p in
      match _batcher batchableMesh with
      | Some batcher =>
          let '(ok, batchableMesh) :=
            checkAndUpdateTexture batchableMesh (_texture mesh) in
          let p := write_batchableMesh mesh batchableMesh p in
          let p := call (CallCheckAndUpdateTexture batcher (uid mesh)) p in
          (Normal (negb ok), p)
      | None => (TypeError, p)
      end
  else (Normal false, p).
End Batching.

(** [addRenderable(mesh, instructionSet)] *)
Definition addRenderable (mesh : Mesh) (instructionSet : InstructionSet) (p : Pipe)
  : Pipe * InstructionSet :=
  let batcher := batch p in
  let '(meshData, p) := _getMeshData mesh p in
  if md_batched meshData then
    let '(gpuBatchableMesh, p) := _getBatchableMesh mesh p in
    let gpuBatchableMesh := setTexture (_texture mesh) gpuBatchableMesh in
    let gpuBatchableMesh := set_geometry (_geometry mesh) gpuBatchableMesh in
    let '(gpuBatchableMesh, batcher, instructionSet) :=
      Batcher_addToBatch gpuBatchableMesh instructionSet batcher in
    let p := write_batchableMesh mesh gpuBatchableMesh p in
    let p := call (CallAddToBatch (uid mesh)) p in
    (set_batch batcher p, instructionSet)
  else
    let '(batcher, instructionSet) := Batcher_break batcher instructionSet in
    let p := call CallBreak p in
    (set_batch batcher p, InstructionSet_add mesh instructionSet).

(** [updateRenderable(mesh)]: how the call ends, and the pipe as it leaves
    it.  A key without a record makes the method call on [undefined] (or
    [null]) fail; a record that is in no batch makes the call on its
    [_batcher] fail, after the record was refreshed. *)
Definition updateRenderable (mesh : Mesh) (p : Pipe) : Completion unit * Pipe :=
  if batched mesh then
    match record_at (_gpuBatchableMeshHash p) (uid mesh) with
    | Some gpuBatchableMesh =>
        let gpuBatchableMesh := setTexture (_texture mesh) gpuBatchableMesh in
        let gpuBatchableMesh := set_geometry (_geometry mesh) gpuBatchableMesh in
        let p := write_batchableMesh mesh gpuBatchableMesh p in
        match _batcher gpuBatchableMesh with
        | Some batcher => (Normal tt, call (CallUpdateElement batcher (uid mesh)) p)
        | None => (TypeError, p)
        end
    | None => (TypeError, p)
    end
  else (Normal tt, p).

(** [destroyRenderable(mesh)] *)
Definition destroyRenderable (mesh : Mesh) (p : Pipe) : Pipe :=
  let p := set_meshDataHash (<[uid mesh := None]> (_meshDataHash p)) p in
  let gpuMesh := record_at (_gpuBatchableMeshHash p) (uid mesh) in
  let p := match gpuMesh with
           | Some g =>
               let p := BigPool_return g p in
               set_gpuBatchableMeshHash (<[uid mesh := None]> (_gpuBatchableMeshHash p)) p
           | None => p
           end in
  call (CallOff (uid mesh)) p.

(** Observations on the call log. *)
Definition is_poolReturn (c : Call) : bool :=
  match c with CallPoolReturn _ => true | _ => false end.

Definition poolReturns (p : Pipe) : nat :=
  length (List.filter is_poolReturn (calls p)).

(** The batch record [validateRenderable] hands to the texture check: the
    one kept for the mesh (allocated if there is none), with its texture
    matrix invalidated when the texture is a different one. *)
Definition checkedRecord (mesh : Mesh) (p : Pipe) : BatchableMesh :=
  let g := fst (_getBatchableMesh mesh p) in
  if negb (tex_uid (texture g) =? tex_uid (_texture mesh))%N
  then set_textureMatrixUpdateId (-1) g
  else g.

(** The reading of [validateRenderable] under which every call returns a
    boolean, which is true exactly when the eligibility on record differs
    from the mesh's, or the mesh is batched and a size on record differs or
    the texture check fails. *)
Definition returns_true_iff_changed
    (checkAndUpdateTexture : BatchableMesh -> Texture -> bool * BatchableMesh)
    (mesh : Mesh) (p : Pipe) (d : MeshData) : Prop :=
  exists b : bool,
    fst (validateRenderable checkAndUpdateTexture mesh p) = Normal b
    /\ (b = true
        <-> md_batched d ≠ batched mesh
            \/ batched mesh = true
               /\ (sizesDiffer mesh d = true
                   \/ fst (checkAndUpdateTexture (checkedRecord mesh p) (_texture mesh))
                      = false)).

(** The reading of [addRenderable] under which a mesh that is on record as
    batched never has a break emitted into the instruction set. *)
Definition adds_without_break
    (mesh : Mesh) (instructionSet : InstructionSet) (p : Pipe) : Prop :=
  snd (addRenderable mesh instructionSet p) = instructionSet.


End MeshPipe.

(* ===================================================================== *)
(** * Sample objects *)
(* ===================================================================== *)

Module Samples.
Import Scene.

(** A view that was never added to a scene: no render group of its own and
    no enclosing one.  Its bounds are those of [new Bounds(0, 1, 0, 0)]. *)
Definition detached : ViewContainer unit :=
  mkView 1 0 false None None (mkBounds 0 1 0 0) true tt [].

(** The same view as a child of render group 7. *)
Definition child : ViewContainer unit :=
  mkView 1 0 false None (Some 7%N) (mkBounds 0 1 0 0) true tt [].

(** A nine-slice sprite of 100 by 50 with 10-wide borders, anchored at its
    top left corner, showing texture 3. *)
Definition button_texture : Texture := mkTexture 3 false.
Definition empty_texture : Texture := mkTexture 0 false.

Definition button : NineSlice.View :=
  mkView 2 0 false None (Some 7%N) (mkBounds 0 1 0 0) true
         (NineSlice.mkNineSliceSprite (Some button_texture) (mkObservablePoint 0 0)
                                      10 10 10 10 100 50)
         [].

(** An HTML text showing "42", anchored at its centre, which measures 40
    by 12 whatever the style. *)
Definition measure_40_12 (text : string) (style : unit) : Text.Size :=
  Text.mkSize 40 12.

Definition label : ViewContainer (Text.AbstractText unit) :=
  mkView 4 0 false None (Some 7%N) (mkBounds 0 1 0 0) true
         (Text.mkAbstractText (mkObservablePoint (1 # 2) (1 # 2)) "42" tt true)
         [].

(** A quad mesh that batches, with its mesh data and batch record in the
    pipe, and a mesh with a custom shader, which does not batch. *)
Definition quad : MeshPipe.MeshGeometry :=
  MeshPipe.mkMeshGeometry 1 [0; 1; 2; 0; 2; 3]%N [0; 0; 1; 0; 1; 1; 0; 1]%Q.

Definition plane : MeshPipe.Mesh :=
  MeshPipe.mkMesh 5 true quad button_texture 9 false.
Definition shaded : MeshPipe.Mesh :=
  MeshPipe.mkMesh 6 false quad button_texture 9 false.

(** The batch record of [plane], which is in the batch of batcher 1. *)
Definition plane_record : MeshPipe.BatchableMesh :=
  MeshPipe.mkBatchableMesh 5 empty_texture None 9 false 0 (Some 1%N).

(** A pipe that knows both meshes; the batch in progress holds element 4
    with the empty texture and has one more texture slot. *)
Definition pipe : MeshPipe.Pipe :=
  MeshPipe.mkPipe false
    (<[5%N := Some (MeshPipe.mkMeshData true 6 8)]>
       (<[6%N := Some (MeshPipe.mkMeshData false 6 8)]> ∅))
    (<[5%N := Some plane_record]> ∅)
    (MeshPipe.mkBatcher 1 2 [4%N] [0%N]) [] [].

(** The same pipe when the batch in progress has no texture slot left. *)
Definition full_pipe : MeshPipe.Pipe :=
  MeshPipe.set_batch (MeshPipe.mkBatcher 1 1 [4%N] [0%N]) pipe.

(** The mesh with the custom shader after the shader was taken off, so
    that it batches, and the pipe after a first validation noticed it. *)
Definition unshaded : MeshPipe.Mesh :=
  MeshPipe.mkMesh 6 true quad button_texture 9 false.

(** A batch with room for every texture. *)
Definition roomy (g : MeshPipe.BatchableMesh) (t : Texture)
  : bool * MeshPipe.BatchableMesh := (true, MeshPipe.setTexture t g).

Definition noticed : MeshPipe.Pipe :=
  snd (MeshPipe.validateRenderable roomy unshaded pipe).

(** The pipe after a second validation, which failed. *)
Definition stranded : MeshPipe.Pipe :=
  snd (MeshPipe.validateRenderable roomy unshaded noticed).

End Samples.

(* ===================================================================== *)
(** * Sizes and texture listeners of a NineSliceSprite *)
(* ===================================================================== *)

Module NineSliceSizing.
Import Scene NineSlice.

(** [Size], and [Optional<Size, 'height'>] as [setSize] takes it. *)
Record Size := mkSize { width : Q; height : Q }.
Record SizeArg := mkSizeArg { arg_width : Q; arg_height : option Q }.

(** [setSize(value, height?)] with both forms of [value]: a number
    ([inl]) or a size object ([inr]); [None] is an omitted [height]. *)
Definition setSizeOf (value : Q + SizeArg) (height : option Q) (v : View) : View :=
  let '(value, height) :=
    match value with
    | inr o => (arg_width o, Some (default (arg_width o) (arg_height o)))
    | inl n => (n, height)
    end in
  let s := with_width value (self v) in
  let s := with_height (default value height) s in
  onViewUpdate (set_self s v).

(** [getSize()] *)
Definition getSize (v : View) : Size :=
  mkSize (_width (self v)) (_height (self v)).

(** Modelled from eventemitter3, the emitter behind [texture.on] and
    [texture.off]: [on] adds a listener, [off] removes every listener with
    that function and context.  The number of times the view listens to the
    ['update'] event of each texture, read off the call log. *)
Definition listen_step (count : N -> nat) (c : Call) : N -> nat :=
  match c with
  | CallTextureOn t => fun u => if (u =? t)%N then S (count u) else count u
  | CallTextureOff t => fun u => if (u =? t)%N then 0%nat else count u
  | _ => count
  end.

Definition textureListeners (log : list Call) : N -> nat :=
  fold_left listen_step log (fun _ => 0%nat).

(** The sprite listens once to the texture it holds when that texture is
    dynamic, and to nothing else. *)
Definition listens_to_held (v : View) : Prop :=
  forall u : N,
    textureListeners (calls v) u
    = match _texture (self v) with
      | Some t => if dynamic t && (u =? tex_uid t)%N then 1%nat else 0%nat
      | None => 0%nat
      end.

End NineSliceSizing.

(* ===================================================================== *)
(** * Collecting a view into an instruction set *)
(* ===================================================================== *)

Module RenderPass.
Import Scene.

Section Collect.
Context {X I : Type}.

(** [renderer.renderPipes]: the blend mode pipe, and the render pipes by
    name, each reduced to what it does to the instruction set. *)
Variable setBlendMode : ViewContainer X -> I -> I.
Variable renderPipes : gmap string (ViewContainer X -> I -> I).

(** [this.renderPipeId] of the view class. *)
Variable renderPipeId : string.

(** The loop over [this.children]. *)
Variable collectChildren : I -> I.

(** [collectRenderablesSimple(instructionSet, renderer, currentLayer)].
    A name without a pipe makes the call on [undefined] fail. *)
Definition collectRenderablesSimple (instructionSet : I) (v : ViewContainer X)
  : MeshPipe.Completion (I * ViewContainer X) :=
  let instructionSet := setBlendMode v instructionSet in
  match renderPipes !! renderPipeId with
  | Some pipe =>
      let instructionSet := pipe v instructionSet in
      let v := set_didViewUpdate false v in
      MeshPipe.Normal (collectChildren instructionSet, v)
  | None => MeshPipe.TypeError
  end.
End Collect.

End RenderPass.

(* ===================================================================== *)
(** * More sample objects *)
(* ===================================================================== *)

Module MoreSamples.
Import Scene.

(** A dynamic texture (a video frame, say). *)
Definition video_texture : Texture := mkTexture 8 true.

(** Pipes that record the uid of what they are given. *)
Definition blend_nothing (v : ViewContainer unit) (set : list N) : list N := set.
Definition record_uid (v : ViewContainer unit) (set : list N) : list N := set ++ [uid v].
Definition pipes : gmap string (ViewContainer unit -> list N -> list N) :=
  <["dummy" := record_uid]> ∅.

(** A pipe that has not seen a mesh yet. *)
Definition fresh_pipe : MeshPipe.Pipe :=
  MeshPipe.mkPipe false ∅ ∅ (MeshPipe.mkBatcher 1 2 [] []) [] [].

End MoreSamples.

(* ===================================================================== *)
(** * Book-keeping of the mesh pipe *)
(* ===================================================================== *)

Module MeshPipeLedger.
Import MeshPipe.

Definition is_poolGet (c : Call) : bool :=
  match c with CallPoolGet => true | _ => false end.

(** How often the pipe took a record from the pool. *)
Definition poolGets (p : Pipe) : nat :=
  length (List.filter is_poolGet (calls p)).

(** The number of keys of [_gpuBatchableMeshHash] that hold a record. *)
Definition liveRecords (p : Pipe) : nat :=
  size (omap id (_gpuBatchableMeshHash p)).

(** Modelled from eventemitter3, the emitter behind [mesh.on] and
    [mesh.off]: [on] adds a listener, [off] removes every listener with
    that function.  The number of times the pipe listens to the
    ['destroyed'] event of each mesh, read off the call log. *)
Definition listen_step (count : N -> nat) (c : Call) : N -> nat :=
  match c with
  | CallOn m => fun u => if (u =? m)%N then S (count u) else count u
  | CallOff m => fun u => if (u =? m)%N then 0%nat else count u
  | _ => count
  end.

Definition destroyedListeners (log : list Call) : N -> nat :=
  fold_left listen_step log (fun _ => 0%nat).

(** The pipe listens once for the destruction of the meshes it holds mesh
    data for, and of no other. *)
Definition listens_while_held (p : Pipe) : Prop :=
  forall u : N,
    destroyedListeners (calls p) u
    = match record_at (_meshDataHash p) u with Some _ => 1%nat | None => 0%nat end.

(** Records taken from the pool are either live or were returned: with [k]
    records live before the log began, live + returned = taken + k. *)
Definition balanced (p : Pipe) (k : nat) : Prop :=
  (liveRecords p + poolReturns p = poolGets p + k)%nat.

(** The mesh data agrees with the mesh: the same eligibility and, for a
    batched mesh, the sizes of its geometry. *)
Definition in_step (mesh : Mesh) (d : MeshData) : Prop :=
  md_batched d = batched mesh
  /\ (batched mesh = true ->
      indexSize d = length (indices (_geometry mesh))
      /\ vertexSize d = length (positions (_geometry mesh))).

(** The mesh has a batch record, and the record is in a batch. *)
Definition batched_in (mesh : Mesh) (p : Pipe) : Prop :=
  exists g b, record_at (_gpuBatchableMeshHash p) (uid mesh) = Some g /\ _batcher g = Some b.

(** Calls that touch neither the pool nor the listeners. *)
Definition is_quiet (c : Call) : bool :=
  match c with
  | CallCheckAndUpdateTexture _ _ | CallUpdateElement _ _
  | CallAddToBatch _ | CallBreak => true
  | _ => false
  end.

(** The records of every mesh but [m] are the same in [p] and [q]. *)
Definition same_elsewhere (m : N) (p q : Pipe) : Prop :=
  forall k : N, k ≠ m ->
    record_at (_meshDataHash q) k = record_at (_meshDataHash p) k
    /\ record_at (_gpuBatchableMeshHash q) k = record_at (_gpuBatchableMeshHash p) k.

(** A step of the pipe on behalf of the mesh [m] that keeps the books:
    listeners and pool accounts stay right and other meshes are left
    alone. *)
Definition accounted (m : N) (p q : Pipe) : Prop :=
  (listens_while_held p -> listens_while_held q)
  /\ (forall k : nat, balanced p k -> balanced q k)
  /\ same_elsewhere m p q.

End MeshPipeLedger.

(* ===================================================================== *)
(** * generateLayoutHash *)
(* ===================================================================== *)

Module Layout.

(** A binding of a shader: its bind group, its name and its binding
    number (the fields [generateLayoutHash] reads). *)
Record Group := mkGroup { group : nat; name : string; binding : N }.

(** [ProgramLayout = Record<string, number>[]]: a JavaScript array, which
    may have holes, of plain objects, each given by its own properties,
    from names to binding numbers. *)
Abbreviation ProgramLayout := (list (option (gmap string N))).

(** [layout[i]]: [undefined] ([None]) at a hole and beyond the end. *)
Definition at_index (layout : ProgramLayout) (i : nat) : option (gmap string N) :=
  mjoin (layout !! i).

(** [layout[i] = entry]: an index beyond the end extends the array, leaving
    holes in between. *)
Definition set_index (layout : ProgramLayout) (i : nat) (entry : gmap string N)
  : ProgramLayout :=
  if (i <? length layout)%nat then <[i := Some entry]> layout
  else layout ++ replicate (i - length layout) None ++ [Some entry].

(** [entry[name] = binding] on a plain object.  Under the name
    [__proto__] the assignment goes to the accessor that every plain
    object inherits from [Object.prototype], whose setter ignores a
    number: no property is stored.  Any other name becomes, or stays, an
    own property. *)
Definition assign (entry : gmap string N) (name : string) (binding : N)
  : gmap string N :=
  if decide (name = "__proto__") then entry else <[name := binding]> entry.

(** One turn of the loop. *)
Definition add_group (layout : ProgramLayout) (g : Group) : ProgramLayout :=
  let entry := default ∅ (at_index layout (group g)) in
  set_index layout (group g) (assign entry (name g) (binding g)).

(** [generateLayoutHash({ groups })] *)
Definition generateLayoutHash (groups : list Group) : ProgramLayout :=
  fold_left add_group groups [].

(** The own property [n] of [layout[i]], where there is one. *)
Definition binding_of (layout : ProgramLayout) (i : nat) (n : string) : option N :=
  at_index layout i ≫= (fun entry => entry !! n).

(** The group [g] is declared for bind group [i] under the name [n]. *)
Definition declares (i : nat) (n : string) (g : Group) : Prop :=
  group g = i /\ name g = n.

Global Instance declares_dec (i : nat) (n : string) (g : Group) :
  Decision (declares i n g).
Proof. unfold declares. apply _. Defined.

(** One more than the largest bind group among [groups], 0 for none. *)
Definition extent (groups : list Group) : nat :=
  foldr (fun g acc => Nat.max (S (group g)) acc) 0%nat groups.

(** Shader bindings of bind groups 0 and 2; ["uTexture"] is declared
    twice. *)
Definition sample_groups : list Group :=
  [mkGroup 0 "uTexture" 1; mkGroup 0 "uTexture" 3; mkGroup 2 "uSampler" 0].

End Layout.

(* ===================================================================== *)
(** * EventSystem *)
(* ===================================================================== *)

Module Events.

(** An entry of [cursorStyles]: a CSS cursor, a callback, or a dictionary
    of CSS properties. *)
Inductive CursorStyle :=
| CursorCss (css : string)
| CursorFunction (f : N)
| CursorDeclaration (css : gmap string string).

(** Where a listener is registered: [globalThis.document], [globalThis],
    or the target element. *)
Inductive Target :=
| Document
| Window
| Canvas (element : N).

(** The bound methods the system registers. *)
Inductive Handler :=
| OnPointerDown
| OnPointerMove
| OnPointerUp
| OnPointerOverOut
| OnWheel.

(** What identifies a DOM listener: target, type, callback, capture. *)
Record Listener := mkListener {
  target : Target;
  type : string;
  handler : Handler;
  capture : bool;
}.

Global Instance Target_eq_dec : EqDecision Target.
Proof. solve_decision. Defined.
Global Instance Handler_eq_dec : EqDecision Handler.
Proof. solve_decision. Defined.
Global Instance Listener_eq_dec : EqDecision Listener.
Proof. solve_decision. Defined.

(** [getBoundingClientRect()]; its numbers are doubles. *)
Record DOMRect := mkDOMRect {
  left : Doubles.number;
  top : Doubles.number;
  rect_width : Doubles.number;
  rect_height : Doubles.number;
}.

(** The target element: an [HTMLElement] (a canvas), or an
    [OffscreenCanvas], which has no [style].  [width] and [height] are the
    pixel size of the canvas. *)
Record Element := mkElement {
  element_id : N;
  offscreen : bool;
  isConnected : bool;
  width : Doubles.number;
  height : Doubles.number;
  boundingClientRect : DOMRect;
}.

(** Calls that leave the system. *)
Inductive Call :=
| CallAddTickerListener                       (* EventsTicker.addTickerListener() *)
| CallRemoveTickerListener                    (* EventsTicker.removeTickerListener() *)
| CallCursorFunction (f : N) (mode : string). (* style(mode) *)

(** An assignment to the inline style of an element: of one property, or
    of a whole declaration by [Object.assign]. *)
Inductive StyleWrite :=
| WriteProperty (element : N) (property value : string)
| WriteDeclaration (element : N) (declaration : gmap string string).

(** What a plain object inherits from [Object.prototype] (ECMAScript,
    sections 20.1.3 and B.2.2).  [cursorStyles] is a plain object, so
    [cursorStyles[mode]] finds these under their names when the object has
    no property of its own by that name.  A function among them is then
    called as [style(mode)], a string as argument and [this] undefined;
    [throws] says whether it fails on that (those that convert [this] to
    an object do).  [__proto__] is an accessor that yields
    [Object.prototype] itself, an object without enumerable properties. *)
Inductive Inherited :=
| InheritedFunction (throws : bool)
| InheritedPrototype.

Definition Object_prototype : gmap string Inherited :=
  list_to_map
    [ ("constructor", InheritedFunction false);
      ("hasOwnProperty", InheritedFunction true);
      ("isPrototypeOf", InheritedFunction false);
      ("propertyIsEnumerable", InheritedFunction true);
      ("toLocaleString", InheritedFunction true);
      ("toString", InheritedFunction false);
      ("valueOf", InheritedFunction true);
      ("__defineGetter__", InheritedFunction true);
      ("__defineSetter__", InheritedFunction true);
      ("__lookupGetter__", InheritedFunction true);
      ("__lookupSetter__", InheritedFunction true);
      ("__proto__", InheritedPrototype) ].

(** The fields of an [EventSystem], what it reads of its environment
    ([supportsTouchEvents], [supportsPointerEvents],
    [navigator.msPointerEnabled]), and what it acts on: the listeners
    registered with its bound methods, the inline styles of the elements
    (the assignments made to them, in order, and what each property was
    last assigned), [EventsTicker.domElement] and the log of its outgoing
    calls.  [cursorStyles] is given by its own properties. *)
Record EventSystem := mkEventSystem {
  supportsTouchEvents : bool;
  supportsPointerEvents : bool;
  msPointerEnabled : bool;
  domElement : option Element;
  resolution : Doubles.number;
  cursorStyles : gmap string CursorStyle;
  _currentCursor : option string;
  _eventsAdded : bool;
  listeners : list Listener;
  styles : gmap N (gmap string string);
  styleWrites : list StyleWrite;
  ticker_domElement : option Element;
  calls : list Call;
}.

Definition set_domElement (e : option Element) (s : EventSystem) : EventSystem :=
  mkEventSystem (supportsTouchEvents s) (supportsPointerEvents s) (msPointerEnabled s)
                e (resolution s) (cursorStyles s) (_currentCursor s) (_eventsAdded s)
                (listeners s) (styles s) (styleWrites s) (ticker_domElement s) (calls s).
Definition set_resolution (r : Doubles.number) (s : EventSystem) : EventSystem :=
  mkEventSystem (supportsTouchEvents s) (supportsPointerEvents s) (msPointerEnabled s)
                (domElement s) r (cursorStyles s) (_currentCursor s) (_eventsAdded s)
                (listeners s) (styles s) (styleWrites s) (ticker_domElement s) (calls s).
Definition set_currentCursor (c : option string) (s : EventSystem) : EventSystem :=
  mkEventSystem (supportsTouchEvents s) (supportsPointerEvents s) (msPointerEnabled s)
                (domElement s) (resolution s) (cursorStyles s) c (_eventsAdded s)
                (listeners s) (styles s) (styleWrites s) (ticker_domElement s) (calls s).
Definition set_eventsAdded (b : bool) (s : EventSystem) : EventSystem :=
  mkEventSystem (supportsTouchEvents s) (supportsPointerEvents s) (msPointerEnabled s)
                (domElement s) (resolution s) (cursorStyles s) (_currentCursor s) b
                (listeners s) (styles s) (styleWrites s) (ticker_domElement s) (calls s).
Definition set_listeners (l : list Listener) (s : EventSystem) : EventSystem :=
  mkEventSystem (supportsTouchEvents s) (supportsPointerEvents s) (msPointerEnabled s)
                (domElement s) (resolution s) (cursorStyles s) (_currentCursor s) (_eventsAdded s)
                l (styles s) (styleWrites s) (ticker_domElement s) (calls s).
Definition set_styles (st : gmap N (gmap string string)) (s : EventSystem) : EventSystem :=
  mkEventSystem (supportsTouchEvents s) (supportsPointerEvents s) (msPointerEnabled s)
                (domElement s) (resolution s) (cursorStyles s) (_currentCursor s) (_eventsAdded s)
                (listeners s) st (styleWrites s) (ticker_domElement s) (calls s).
Definition set_styleWrites (w : list StyleWrite) (s : EventSystem) : EventSystem :=
  mkEventSystem (supportsTouchEvents s) (supportsPointerEvents s) (msPointerEnabled s)
                (domElement s) (resolution s) (cursorStyles s) (_currentCursor s) (_eventsAdded s)
                (listeners s) (styles s) w (ticker_domElement s) (calls s).
Definition set_ticker_domElement (e : option Element) (s : EventSystem) : EventSystem :=
  mkEventSystem (supportsTouchEvents s) (supportsPointerEvents s) (msPointerEnabled s)
                (domElement s) (resolution s) (cursorStyles s) (_currentCursor s) (_eventsAdded s)
                (listeners s) (styles s) (styleWrites s) e (calls s).
Definition call (c : Call) (s : EventSystem) : EventSystem :=
  mkEventSystem (supportsTouchEvents s) (supportsPointerEvents s) (msPointerEnabled s)
                (domElement s) (resolution s) (cursorStyles s) (_currentCursor s) (_eventsAdded s)
                (listeners s) (styles s) (styleWrites s) (ticker_domElement s) (calls s ++ [c]).

(** How a method ends: normally, or in a [TypeError] (a property of [null]
    was written); the system is as the method left it either way. *)
Inductive Outcome :=
| Done (s : EventSystem)
| Thrown (s : EventSystem).

Definition after (o : Outcome) : EventSystem :=
  match o with Done s | Thrown s => s end.

(** [element.style] as a dictionary; a property never assigned reads as
    absent. *)
Definition style_of (s : EventSystem) (e : Element) : gmap string string :=
  default ∅ (styles s !! element_id e).

(** [element.style[property] = value] *)
Definition set_style (e : Element) (property value : string) (s : EventSystem)
  : EventSystem :=
  let s := set_styleWrites
             (styleWrites s ++ [WriteProperty (element_id e) property value]) s in
  set_styles (<[element_id e := <[property := value]> (style_of s e)]> (styles s)) s.

(** [Object.assign(element.style, declaration)] *)
Definition assign_style (e : Element) (declaration : gmap string string)
    (s : EventSystem) : EventSystem :=
  let s := set_styleWrites
             (styleWrites s ++ [WriteDeclaration (element_id e) declaration]) s in
  set_styles (<[element_id e := declaration ∪ style_of s e]> (styles s)) s.

(** [setCursor(mode)]; [None] is a null or undefined mode.  The style
    found under the mode is the system's own entry or, failing that, what
    [cursorStyles] inherits under that name.  A style is written through
    [this.domElement.style], which fails without a target element. *)
Definition setCursor (mode : option string) (s : EventSystem) : Outcome :=
  let mode := match mode with
              | Some m => if decide (m = "") then "default" else m
              | None => "default"
              end in
  let applyStyles := match domElement s with
                     | Some e => negb (offscreen e)
                     | None => true
                     end in
  if decide (_currentCursor s = Some mode) then Done s
  else
    let s := set_currentCursor (Some mode) s in
    let write (property : string) :=
      match domElement s with
      | Some e => Done (set_style e "cursor" property s)
      | None => Thrown s
      end in
    match cursorStyles s !! mode with
    | Some (CursorCss css) =>
        if decide (css = "") then Done s
        else if applyStyles then write css else Done s
    | Some (CursorFunction f) => Done (call (CallCursorFunction f mode) s)
    | Some (CursorDeclaration css) =>
        if applyStyles then
          match domElement s with
          | Some e => Done (assign_style e css s)
          | None => Thrown s
          end
        else Done s
    | None =>
        match Object_prototype !! mode with
        | Some (InheritedFunction throws) => if throws then Thrown s else Done s
        | Some InheritedPrototype =>
            if applyStyles then
              match domElement s with
              | Some e => Done s
              | None => Thrown s
              end
            else Done s
        | None => if applyStyles then write mode else Done s
        end
    end.

(** [addEventListener]: a listener with the same type, callback and
    capture flag is not added twice.  [removeEventListener] removes it. *)
Definition addEventListener (l : Listener) (ls : list Listener) : list Listener :=
  if decide (l ∈ ls) then ls else ls ++ [l].
Definition removeEventListener (l : Listener) (ls : list Listener) : list Listener :=
  filter (fun l' => l' ≠ l) ls.

(** The listeners [_addEvents] registers and [_removeEvents] unregisters
    for the element [e], in the order of the calls. *)
Definition pointerListeners (s : EventSystem) (e : N) : list Listener :=
  if supportsPointerEvents s then
    [ mkListener Document "pointermove" OnPointerMove true;
      mkListener (Canvas e) "pointerdown" OnPointerDown true;
      mkListener (Canvas e) "pointerleave" OnPointerOverOut true;
      mkListener (Canvas e) "pointerover" OnPointerOverOut true;
      mkListener Window "pointerup" OnPointerUp true ]
  else
    [ mkListener Document "mousemove" OnPointerMove true;
      mkListener (Canvas e) "mousedown" OnPointerDown true;
      mkListener (Canvas e) "mouseout" OnPointerOverOut true;
      mkListener (Canvas e) "mouseover" OnPointerOverOut true;
      mkListener Window "mouseup" OnPointerUp true ]
    ++ (if supportsTouchEvents s then
          [ mkListener (Canvas e) "touchstart" OnPointerDown true;
            mkListener (Canvas e) "touchend" OnPointerUp true;
            mkListener (Canvas e) "touchmove" OnPointerMove true ]
        else []).

Definition wheelListener (e : N) : Listener :=
  mkListener (Canvas e) "wheel" OnWheel true.

Definition wantedListeners (s : EventSystem) (e : N) : list Listener :=
  pointerListeners s e ++ [wheelListener e].

(** The touch-action styles [_addEvents] sets (to ["none"]) and
    [_removeEvents] resets (to [""]); an offscreen canvas has no style. *)
Definition touch_styles (value : string) (e : Element) (s : EventSystem) : EventSystem :=
  if offscreen e then s
  else if msPointerEnabled s then
    set_style e "msTouchAction" value (set_style e "msContentZooming" value s)
  else if supportsPointerEvents s then set_style e "touchAction" value s
  else s.

(** [_addEvents()] *)
Definition _addEvents (s : EventSystem) : EventSystem :=
  match domElement s with
  | Some e =>
      if _eventsAdded s then s
      else
        let s := call CallAddTickerListener s in
        let s := touch_styles "none" e s in
        let s := set_listeners
                   (fold_left (fun ls l => addEventListener l ls)
                              (wantedListeners s (element_id e)) (listeners s)) s in
        set_eventsAdded true s
  | None => s
  end.

(** [_removeEvents()] *)
Definition _removeEvents (s : EventSystem) : EventSystem :=
  match domElement s with
  | Some e =>
      if negb (_eventsAdded s) then s
      else
        let s := call CallRemoveTickerListener s in
        let s := touch_styles "" e s in
        let s := set_listeners
                   (fold_left (fun ls l => removeEventListener l ls)
                              (wantedListeners s (element_id e)) (listeners s)) s in
        let s := set_domElement None s in
        set_eventsAdded false s
  | None => s
  end.

(** [setTargetElement(element)] *)
Definition setTargetElement (element : option Element) (s : EventSystem) : EventSystem :=
  let s := _removeEvents s in
  let s := set_domElement element s in
  let s := set_ticker_domElement element s in
  _addEvents s.

(** [destroy()] *)
Definition destroy (s : EventSystem) : EventSystem :=
  set_currentCursor None (setTargetElement None s).

(** [resolutionChange(resolution)] *)
Definition resolutionChange (r : Doubles.number) (s : EventSystem) : EventSystem :=
  set_resolution r s.

(** The rectangle [mapPositionToPoint] measures against: that of the
    element on the page, or one of the size of the canvas at the origin
    for an element that is not in the document. *)
Definition clientRect (e : Element) : DOMRect :=
  if isConnected e then boundingClientRect e
  else mkDOMRect (Doubles.integer 0) (Doubles.integer 0) (width e) (height e).

(** [mapPositionToPoint(point, x, y)] in double precision: the point
    written, or [None] when there is no target element to read (the read
    of [isConnected] fails). *)
Definition mapPositionToPoint (x y : Doubles.number) (s : EventSystem)
  : option Doubles.PointData :=
  match domElement s with
  | Some e =>
      let rect := clientRect e in
      let resolutionMultiplier := Doubles.div (Doubles.integer 1) (resolution s) in
      Some (Doubles.mkPoint
              (Doubles.mul
                 (Doubles.mul (Doubles.sub x (left rect))
                              (Doubles.div (width e) (rect_width rect)))
                 resolutionMultiplier)
              (Doubles.mul
                 (Doubles.mul (Doubles.sub y (top rect))
                              (Doubles.div (height e) (rect_height rect)))
                 resolutionMultiplier))
  | None => None
  end.

(** [TOUCH_TO_POINTER] *)
Definition TOUCH_TO_POINTER : gmap string string :=
  <["touchstart" := "pointerdown"]>
    (<["touchend" := "pointerup"]>
       (<["touchendoutside" := "pointerupoutside"]>
          (<["touchmove" := "pointermove"]>
             (<["touchcancel" := "pointercancel"]> ∅)))).

(** The end of [_bootstrapEvent]: the type of the federated event for a
    native event type.  Under [startsWith('mouse')] the first occurrence
    that [replace] finds is the prefix. *)
Definition federatedType (type : string) : string :=
  let type := if decide (type = "pointerleave") then "pointerout" else type in
  let type := if String.prefix "mouse" type
              then "pointer" +:+ String.substring 5 (String.length type - 5) type
              else type in
  if String.prefix "touch" type
  then match TOUCH_TO_POINTER !! type with
       | Some t => if decide (t = "") then type else t
       | None => type
       end
  else type.

(** The listeners are those wanted for the target while events are added,
    and none otherwise; events are only added while there is a target. *)
Definition tidy (s : EventSystem) : Prop :=
  listeners s
  = match domElement s with
    | Some e => if _eventsAdded s then wantedListeners s (element_id e) else []
    | None => []
    end
  /\ (domElement s = None -> _eventsAdded s = false).

(** [mode ||= 'default'] *)
Definition cursorMode (mode : option string) : string :=
  match mode with
  | Some m => if decide (m = "") then "default" else m
  | None => "default"
  end.

(** The types of the federated pointer events. *)
Definition pointerTypes : list string :=
  ["pointerdown"; "pointermove"; "pointerup"; "pointerout"; "pointerover"].

(** A canvas on the page, 800 by 600 pixels shown at 400 by 300 with its
    corner at (10, 20), and a system for a browser with pointer events. *)
Definition canvas : Element :=
  mkElement 1 false true (Doubles.integer 800) (Doubles.integer 600)
            (mkDOMRect (Doubles.integer 10) (Doubles.integer 20)
                       (Doubles.integer 400) (Doubles.integer 300)).

Definition idle : EventSystem :=
  mkEventSystem true true false None (Doubles.integer 2)
                (<["default" := CursorCss "inherit"]>
                   (<["pointer" := CursorCss "pointer"]> ∅))
                None false [] ∅ [] None [].

(** An offscreen canvas of the same size. *)
Definition worker_canvas : Element :=
  mkElement 2 true false (Doubles.integer 800) (Doubles.integer 600)
            (mkDOMRect (Doubles.integer 0) (Doubles.integer 0)
                       (Doubles.integer 800) (Doubles.integer 600)).

End Events.

(* ===================================================================== *)
(** * Normalising native events to pointer data *)
(* ===================================================================== *)

Module PointerData.

(** The properties of a native event or touch that the normalisation reads
    or fills in; [None] is a property that is [undefined]. *)
Record Native := mkNative {
  type : option string;
  button : option Z;
  buttons : option Z;
  isPrimary : option bool;
  width : option Q;
  height : option Q;
  tiltX : option Q;
  tiltY : option Q;
  pointerType : option string;
  pointerId : option Z;
  pressure : option Q;
  twist : option Q;
  tangentialPressure : option Q;
  layerX : option Q;
  layerY : option Q;
  offsetX : option Q;
  offsetY : option Q;
  isNormalized : option bool;
  radiusX : option Q;
  radiusY : option Q;
  identifier : option Z;
  force : option Q;
  clientX : option Q;
  clientY : option Q;
}.

(** The class of the native event; a [PointerEvent] is a [MouseEvent]. *)
Inductive EventClass :=
| IsTouchEvent
| IsMouseEvent
| IsPointerEvent.

(** A native event: its class, its own properties, the length of
    [touches] and the list [changedTouches] (for a touch event). *)
Record NativeEvent := mkNativeEvent {
  class : EventClass;
  own : Native;
  touches : nat;
  changedTouches : list Native;
}.

Definition instanceofTouchEvent (c : EventClass) : bool :=
  match c with IsTouchEvent => true | _ => false end.
Definition instanceofMouseEvent (c : EventClass) : bool :=
  match c with IsTouchEvent => false | _ => true end.
Definition instanceofPointerEvent (c : EventClass) : bool :=
  match c with IsPointerEvent => true | _ => false end.

(** [if (typeof x === 'undefined') x = v] *)
Definition fill {A : Type} (x : option A) (v : A) : option A :=
  match x with Some a => Some a | None => Some v end.

(** [x || v] for a number [x]: [undefined] and 0 give [v]. *)
Definition or_number (x : option Q) (v : Q) : Q :=
  match x with
  | Some a => if Qeq_bool a 0 then v else a
  | None => v
  end.
Definition or_integer (x : option Z) (v : Z) : Z :=
  match x with
  | Some a => if (a =? 0)%Z then v else a
  | None => v
  end.

(** The body of the loop over [event.changedTouches]. *)
Definition normalizeTouch (event : NativeEvent) (touch : Native) : Native :=
  mkNative
    (type (own event))
    (fill (button touch) 0)
    (fill (buttons touch) 1)
    (fill (isPrimary touch)
          (bool_decide (touches event = 1%nat)
           && bool_decide (type (own event) = Some "touchstart")))
    (fill (width touch) (or_number (radiusX touch) 1))
    (fill (height touch) (or_number (radiusY touch) 1))
    (fill (tiltX touch) 0%Q)
    (fill (tiltY touch) 0%Q)
    (fill (pointerType touch) "touch")
    (fill (pointerId touch) (or_integer (identifier touch) 0))
    (fill (pressure touch) (or_number (force touch) (1 # 2)))
    (fill (twist touch) 0%Q)
    (fill (tangentialPressure touch) 0%Q)
    (match layerX touch with Some a => Some a | None => clientX touch end)
    (match layerY touch with Some a => Some a | None => clientY touch end)
    (match layerX touch with Some _ => offsetX touch | None => clientX touch end)
    (match layerY touch with Some _ => offsetY touch | None => clientY touch end)
    (Some true)
    (radiusX touch) (radiusY touch) (identifier touch) (force touch)
    (clientX touch) (clientY touch).

Definition MOUSE_POINTER_ID : Z := 1.

(** The normalisation of a mouse event. *)
Definition normalizeMouse (tempEvent : Native) : Native :=
  mkNative
    (type tempEvent)
    (button tempEvent)
    (buttons tempEvent)
    (fill (isPrimary tempEvent) true)
    (fill (width tempEvent) 1%Q)
    (fill (height tempEvent) 1%Q)
    (fill (tiltX tempEvent) 0%Q)
    (fill (tiltY tempEvent) 0%Q)
    (fill (pointerType tempEvent) "mouse")
    (fill (pointerId tempEvent) MOUSE_POINTER_ID)
    (fill (pressure tempEvent) (1 # 2)%Q)
    (fill (twist tempEvent) 0%Q)
    (fill (tangentialPressure tempEvent) 0%Q)
    (layerX tempEvent) (layerY tempEvent) (offsetX tempEvent) (offsetY tempEvent)
    (Some true)
    (radiusX tempEvent) (radiusY tempEvent) (identifier tempEvent) (force tempEvent)
    (clientX tempEvent) (clientY tempEvent).

(** [_normalizeToPointerData(event)].  [hasMouseEvent] says whether
    [globalThis.MouseEvent] exists. *)
Definition _normalizeToPointerData (hasMouseEvent : bool) (s : Events.EventSystem)
    (event : NativeEvent) : list Native :=
  if Events.supportsTouchEvents s && instanceofTouchEvent (class event)
  then map (normalizeTouch event) (changedTouches event)
  else if negb hasMouseEvent
          || (instanceofMouseEvent (class event)
              && (negb (Events.supportsPointerEvents s)
                  || negb (instanceofPointerEvent (class event))))
  then [normalizeMouse (own event)]
  else [own event].

(** All the data [_bootstrapEvent] copies from a pointer event is there. *)
Definition complete (n : Native) : Prop :=
  is_Some (pointerId n) /\ is_Some (width n) /\ is_Some (height n)
  /\ is_Some (isPrimary n) /\ is_Some (pointerType n) /\ is_Some (pressure n)
  /\ is_Some (tangentialPressure n) /\ is_Some (tiltX n) /\ is_Some (tiltY n)
  /\ is_Some (twist n).

(** A touch as an old browser reports it, with nothing but its position,
    and a touch start event that carries it. *)
Definition bare_touch : Native :=
  mkNative None None None None None None None None None None None None None
           None None None None None None None (Some 7) None (Some 120%Q) (Some 45%Q).

Definition bare_event : Native :=
  mkNative (Some "touchstart") None None None None None None None None None None None
           None None None None None None None None None None None None.

Definition touchstart : NativeEvent :=
  mkNativeEvent IsTouchEvent bare_event 1 [bare_touch].

End PointerData.

(* ===================================================================== *)
(** * Properties of the tint composition *)
(* ===================================================================== *)

Module ColorsProps.
Import Colors.

(** C10. White is a two-sided identity of [multiplyColors]: for every colour
    [c] (the 24-bit ones among them) and whatever [multiplyHexColors]
    computes, [multiplyColors(0xFFFFFF, c) = c] and
    [multiplyColors(c, 0xFFFFFF) = c]. *)
Theorem multiplyColors_white_identity (multiplyHexColors : Z -> Z -> Z) (c : Z) :
  multiplyColors multiplyHexColors 0xFFFFFF c = c
  /\ multiplyColors multiplyHexColors c 0xFFFFFF = c.
Proof.
  unfold multiplyColors. split.
  - reflexivity.
  - destruct (c =? WHITE_BGR) eqn:E.
    + apply Z.eqb_eq in E. symmetry. exact E.
    + reflexivity.
Qed.

End ColorsProps.

(* ===================================================================== *)
(** * Properties of views *)
(* ===================================================================== *)

Module ViewProps.
Import Scene.

Section Frame.
Context {X : Type} `{ViewClass X}.
Implicit Type v : ViewContainer X.

Lemma updateBounds_calls v : calls (updateBounds v) = calls v.
Proof. by rewrite updateBounds_frame. Qed.

Lemma updateBounds_self v : self (updateBounds v) = self v.
Proof. by rewrite updateBounds_frame. Qed.

Lemma bounds_clean v : _boundsDirty v = false -> bounds v = (_bounds v, v).
Proof. unfold bounds. by intros ->. Qed.

Lemma bounds_dirty v :
  _boundsDirty v = true ->
  bounds v = (_bounds (updateBounds (call CallUpdateBounds v)),
              set_boundsDirty false (updateBounds (call CallUpdateBounds v))).
Proof. unfold bounds. by intros ->. Qed.

Lemma bounds_returns_cache v : fst (bounds v) = _bounds (snd (bounds v)).
Proof. unfold bounds. by destruct (_boundsDirty v). Qed.

Lemma bounds_clears_flag v : _boundsDirty (snd (bounds v)) = false.
Proof. unfold bounds. by destruct (_boundsDirty v) eqn:E. Qed.

Lemma bounds_self v : self (snd (bounds v)) = self v.
Proof.
  unfold bounds. destruct (_boundsDirty v); simpl; [|done].
  by rewrite updateBounds_self.
Qed.

Lemma bounds_count v :
  updateBoundsCalls (snd (bounds v))
  = (updateBoundsCalls v + (if _boundsDirty v then 1 else 0))%nat.
Proof.
  unfold bounds, updateBoundsCalls.
  destruct (_boundsDirty v); simpl; [|lia].
  rewrite updateBounds_calls. simpl.
  rewrite List.filter_app, length_app. simpl. lia.
Qed.

Lemma bounds_again v : bounds (snd (bounds v)) = bounds v.
Proof.
  rewrite (bounds_clean (snd (bounds v))) by apply bounds_clears_flag.
  rewrite <- bounds_returns_cache. by destruct (bounds v).
Qed.
End Frame.

Section Notify.
Context {X : Type}.
Implicit Type v : ViewContainer X.

Lemma onViewUpdate_calls v :
  calls (onViewUpdate v) = calls v ++ notification v.
Proof.
  unfold onViewUpdate, notification, owningRenderGroup. simpl.
  destruct (didViewUpdate v); simpl; [by rewrite app_nil_r|].
  destruct (renderGroup v); simpl; [done|].
  destruct (parentRenderGroup v); simpl; [done|]. by rewrite app_nil_r.
Qed.

Lemma onViewUpdate_pending v : didViewUpdate (onViewUpdate v) = true.
Proof.
  unfold onViewUpdate. simpl. destruct (didViewUpdate v) eqn:E; simpl; [done|].
  by destruct (owningRenderGroup _).
Qed.

Lemma onViewUpdate_tick v :
  _didViewChangeTick (onViewUpdate v) = _didViewChangeTick v + 1.
Proof.
  unfold onViewUpdate. simpl. destruct (didViewUpdate v); simpl; [done|].
  by destruct (owningRenderGroup _).
Qed.

Lemma onViewUpdate_dirty v : _boundsDirty (onViewUpdate v) = true.
Proof.
  unfold onViewUpdate. simpl. destruct (didViewUpdate v); simpl; [done|].
  by destruct (owningRenderGroup _).
Qed.

Lemma notification_length v :
  length (List.filter is_notification (notification v))
  = if didViewUpdate v then 0%nat
    else if attached v then 1%nat else 0%nat.
Proof.
  unfold notification, attached. destruct (didViewUpdate v); [done|].
  by destruct (owningRenderGroup v).
Qed.

Lemma onViewUpdate_notifications v :
  notifications (onViewUpdate v)
  = (notifications v +
     if didViewUpdate v then 0 else if attached v then 1 else 0)%nat.
Proof.
  unfold notifications. rewrite onViewUpdate_calls, List.filter_app, length_app.
  by rewrite notification_length.
Qed.

Lemma onViewUpdate_pending_quiet v :
  didViewUpdate v = true -> notifications (onViewUpdate v) = notifications v.
Proof. intros E. rewrite onViewUpdate_notifications, E. lia. Qed.

Lemma iter_onViewUpdate_quiet (n : nat) v :
  didViewUpdate v = true ->
  didViewUpdate (Nat.iter n onViewUpdate v) = true
  /\ notifications (Nat.iter n onViewUpdate v) = notifications v.
Proof.
  intros E. induction n as [|n [IHd IHn]]; simpl; [done|].
  split; [apply onViewUpdate_pending|].
  by rewrite onViewUpdate_pending_quiet.
Qed.

Lemma iter_onViewUpdate_tick (n : nat) v :
  _didViewChangeTick (Nat.iter n onViewUpdate v) = _didViewChangeTick v + Z.of_nat n.
Proof.
  induction n as [|n IH]; [simpl; lia|].
  rewrite Nat.iter_succ, onViewUpdate_tick, IH. lia.
Qed.
End Notify.

Lemma iter_onViewUpdate_notifications {X : Type} (n : nat) (v : ViewContainer X) :
  notifications (Nat.iter (S n) onViewUpdate v)
  = (notifications v +
     if didViewUpdate v then 0 else if attached v then 1 else 0)%nat.
Proof.
  rewrite Nat.iter_succ_r.
  destruct (iter_onViewUpdate_quiet n (onViewUpdate v) (onViewUpdate_pending v))
    as [_ ->].
  apply onViewUpdate_notifications.
Qed.

(** The override of [AbstractText] does to the fields of [ViewContainer]
    what the inherited method does; it only raises [_didTextUpdate] as
    well when nothing was pending. *)
Lemma text_onViewUpdate_inherited {Style : Type}
    (v : ViewContainer (Text.AbstractText Style)) :
  Text.onViewUpdate v
  = set_self (if didViewUpdate v then self v
              else Text.with_didTextUpdate Style true (self v))
             (onViewUpdate v).
Proof.
  unfold Text.onViewUpdate, onViewUpdate, owningRenderGroup.
  destruct v as [u t d rg prg b bd s cs]. simpl.
  destruct d; simpl; [done|].
  destruct rg; simpl; [done|]. by destruct prg.
Qed.

Example render_between_updates_notifies_again :
  notifications (onViewUpdate (clearViewUpdate (onViewUpdate Samples.child))) = 2%nat.
Proof. by vm_compute. Qed.

Example three_updates_one_notification :
  calls (Nat.iter 3 onViewUpdate Samples.child) = [CallOnChildViewUpdate 7 1]
  /\ _didViewChangeTick (Nat.iter 3 onViewUpdate Samples.child) = 3.
Proof. by vm_compute. Qed.

(** C1 (as the code has it).  Each call of [onViewUpdate] adds one to the
    change tick and sets the bounds-dirty flag; afterwards [didViewUpdate]
    is true.  The call appends exactly [notification v] to the log: one
    [onChildViewUpdate] on the own render group, else on the enclosing
    one, if and only if no update was pending and the view has such a
    group.  Hence [n + 1] successive calls send one notification when the
    view is attached and nothing was pending, and none otherwise. *)
Theorem onViewUpdate_coalesces {X : Type} (v : ViewContainer X) (n : nat) :
  _didViewChangeTick (onViewUpdate v) = _didViewChangeTick v + 1
  /\ _boundsDirty (onViewUpdate v) = true
  /\ didViewUpdate (onViewUpdate v) = true
  /\ calls (onViewUpdate v) = calls v ++ notification v
  /\ (notifications (onViewUpdate v) = S (notifications v)
      <-> didViewUpdate v = false /\ attached v = true)
  /\ notifications (Nat.iter (S n) onViewUpdate v)
     = (notifications v +
        if didViewUpdate v then 0 else if attached v then 1 else 0)%nat.
Proof.
  split; [apply onViewUpdate_tick|].
  split; [apply onViewUpdate_dirty|].
  split; [apply onViewUpdate_pending|].
  split; [apply onViewUpdate_calls|].
  split; [|apply iter_onViewUpdate_notifications].
  rewrite onViewUpdate_notifications.
  destruct (didViewUpdate v), (attached v); split; intros; try lia; intuition congruence.
Qed.

(** C1, the claim as stated fails on a view outside every render group:
    nothing is pending, yet the call notifies nobody. *)
Lemma onViewUpdate_detached_counterexample :
  ~ notifies_iff_not_pending Samples.detached.
Proof.
  unfold notifies_iff_not_pending. intros [_ Hback].
  specialize (Hback eq_refl). vm_compute in Hback. discriminate.
Qed.

(** C2.  Reading [bounds] returns the cached rectangle and leaves the dirty
    flag cleared.  With the flag set the read runs [updateBounds] once;
    with the flag clear it runs nothing and changes nothing.  After a
    mutation (every setter ends in [onViewUpdate]) the first read runs
    [updateBounds] once, and a second read runs nothing and returns the
    same rectangle. *)
Theorem bounds_getter_lazy {X : Type} `{ViewClass X} (v : ViewContainer X) :
  fst (bounds v) = _bounds (snd (bounds v))
  /\ _boundsDirty (snd (bounds v)) = false
  /\ (if _boundsDirty v
      then snd (bounds v) = set_boundsDirty false (updateBounds (call CallUpdateBounds v))
           /\ updateBoundsCalls (snd (bounds v)) = S (updateBoundsCalls v)
      else bounds v = (_bounds v, v))
  /\ (let first := bounds (onViewUpdate v) in
      let second := bounds (snd first) in
      updateBoundsCalls (snd first) = S (updateBoundsCalls (onViewUpdate v))
      /\ snd second = snd first
      /\ fst second = fst first).
Proof.
  split; [apply bounds_returns_cache|].
  split; [apply bounds_clears_flag|].
  split.
  - destruct (_boundsDirty v) eqn:E.
    + split; [by rewrite bounds_dirty|].
      rewrite bounds_count, E. lia.
    + by apply bounds_clean.
  - simpl. rewrite bounds_again.
    split; [|done].
    rewrite bounds_count, onViewUpdate_dirty. lia.
Qed.

End ViewProps.

(* ===================================================================== *)
(** * Properties of the anchored views *)
(* ===================================================================== *)

Module ShapeProps.
Import Scene.

Lemma anchored_well_formed (b : Bounds) (ax ay w h : Q) :
  anchored b ax ay w h -> (0 <= w)%Q -> (0 <= h)%Q -> well_formed b.
Proof. intros (_ & Hx & _ & Hy) Hw Hh. split; lra. Qed.

Lemma NineSlice_bounds_anchored (v : NineSlice.View) :
  _boundsDirty v = true ->
  anchored (fst (bounds v))
           (_x (NineSlice._anchor (self v))) (_y (NineSlice._anchor (self v)))
           (NineSlice._width (self v)) (NineSlice._height (self v)).
Proof. intros E. rewrite (ViewProps.bounds_dirty v E). by repeat split. Qed.

Lemma HTMLText_bounds_anchored {Style : Type}
    (measureHtmlText : string -> Style -> Text.Size)
    (v : ViewContainer (Text.AbstractText Style)) :
  _boundsDirty v = true ->
  anchored (fst (@bounds _ (Text.HTMLText_view measureHtmlText) v))
           (_x (Text._anchor (self v))) (_y (Text._anchor (self v)))
           (Text.width (measureHtmlText (Text.text v) (Text._style (self v))))
           (Text.height (measureHtmlText (Text.text v) (Text._style (self v)))).
Proof.
  intros E. rewrite (@ViewProps.bounds_dirty _ (Text.HTMLText_view measureHtmlText) v E).
  by repeat split.
Qed.

(** C6 (as the code has it).  When the getter computes the bounds of a
    [NineSliceSprite] whose [_width] and [_height] are not negative, or of
    an [HTMLText] whose measured width and height are not negative, the
    result has [minX <= maxX] and [minY <= maxY]. *)
Theorem computed_bounds_well_formed {Style : Type}
    (measureHtmlText : string -> Style -> Text.Size)
    (sprite : NineSlice.View) (text : ViewContainer (Text.AbstractText Style)) :
  _boundsDirty sprite = true ->
  (0 <= NineSlice._width (self sprite))%Q ->
  (0 <= NineSlice._height (self sprite))%Q ->
  _boundsDirty text = true ->
  (0 <= Text.width (measureHtmlText (Text.text text) (Text._style (self text))))%Q ->
  (0 <= Text.height (measureHtmlText (Text.text text) (Text._style (self text))))%Q ->
  well_formed (fst (bounds sprite))
  /\ well_formed (fst (@bounds _ (Text.HTMLText_view measureHtmlText) text)).
Proof.
  intros Ds Hw Hh Dt Hmw Hmh. split.
  - eapply anchored_well_formed; [by apply NineSlice_bounds_anchored|done..].
  - eapply anchored_well_formed; [by apply HTMLText_bounds_anchored|done..].
Qed.

Lemma computed_bounds_well_formed_witness :
  well_formed (fst (bounds Samples.button))
  /\ well_formed (fst (@bounds _ (Text.HTMLText_view Samples.measure_40_12)
                              Samples.label)).
Proof.
  apply (computed_bounds_well_formed Samples.measure_40_12 Samples.button Samples.label);
    solve [reflexivity | vm_compute; discriminate].
Defined.

(** C6, the claim as stated fails on a sprite whose width was set to -10:
    the getter computes [minX = 0] and [maxX = -10]. *)
Lemma negative_width_counterexample :
  ~ well_formed (fst (bounds (NineSlice.set_width (-10) Samples.button))).
Proof. intros [Hx _]. vm_compute in Hx. by apply Hx. Qed.

(** C9.  Assigning to [texture] the texture the sprite already holds, or to
    [text] a value whose string form is the current text, returns at the
    guard: the view is left as it was, with the same change tick, the same
    dirty flag, the same pending flag and nothing added to the call log
    (no [onViewUpdate], no notification). *)
Theorem setters_skip_unchanged {Style : Type}
    (EMPTY held : Texture) (sprite : NineSlice.View)
    (value : Text.TextString) (text : ViewContainer (Text.AbstractText Style)) :
  NineSlice._texture (self sprite) = Some held ->
  Text.toString value = Text.text text ->
  NineSlice.set_texture EMPTY (Some held) sprite = sprite
  /\ Text.set_text value text = text.
Proof.
  intros Hheld Hsame. split.
  - unfold NineSlice.set_texture. simpl. by rewrite decide_True.
  - unfold Text.set_text. by rewrite decide_True.
Qed.

Lemma setters_skip_unchanged_witness :
  NineSlice.set_texture Samples.empty_texture (Some Samples.button_texture)
                        Samples.button = Samples.button
  /\ Text.set_text (Text.TextOfNumber 42 eq_refl) Samples.label = Samples.label.
Proof.
  apply (setters_skip_unchanged Samples.empty_texture Samples.button_texture
           Samples.button (Text.TextOfNumber 42 eq_refl) Samples.label);
    reflexivity.
Defined.

End ShapeProps.

(* ===================================================================== *)
(** * Properties of the text hit tests in double precision *)
(* ===================================================================== *)

Module TextDoublesProps.
Import SpecFloat Doubles TextDoubles.

(** Equal finite numbers have the same sign, digits and exponent. *)
Lemma finite_same (s1 s2 : bool) (m1 m2 : positive) (e1 e2 : Z) :
  same (S754_finite s1 m1 e1) (S754_finite s2 m2 e2) = true ->
  s1 = s2 /\ m1 = m2 /\ e1 = e2.
Proof.
  unfold same, SFeqb, SFcompare.
  change (Pos.compare_cont Eq m1 m2) with (Pos.compare m1 m2).
  destruct s1, s2; try done.
  all: destruct (Z.compare_spec e1 e2) as [->|?|?]; try done.
  all: by destruct (Pos.compare_spec m1 m2) as [->|?|?].
Qed.

(** A comparison does not tell equal numbers apart (the two zeros among
    them). *)
Lemma same_compare (a b p : number) :
  same a b = true -> geq p a = geq p b /\ leq p a = leq p b.
Proof.
  intros H.
  destruct a as [sa|sa| |sa ma ea], b as [sb|sb| |sb mb eb];
    try (by destruct sa); try (by destruct sb); try (by destruct sa, sb);
    try discriminate H.
  by destruct (finite_same _ _ _ _ _ _ H) as (-> & -> & ->).
Qed.

(** With the anchor at zero no product or sum rounds: the lower edge is a
    zero on both sides, and the upper edge is the extent itself. *)
Lemma origin_recomputes_exactly (a w : number) :
  isZero a = true -> isFinite w = true -> recomputes_exactly a w = true.
Proof.
  destruct a as [sa| | |]; try done. intros _.
  destruct w as [sw| | |sw mw ew]; try done; intros _.
  - by destruct sa, sw.
  - unfold recomputes_exactly, same, SFeqb.
    destruct sa, sw; simpl;
      by rewrite Z.compare_refl, Pos.compare_cont_refl.
Qed.

Lemma nested_tests (a b c d : bool) {A : Type} (t : A) :
  (if a && b then if c && d then (true, t) else (false, t) else (false, t))
  = (a && b && c && d, t).
Proof. by destruct a, b, c, d. Qed.

Section Getter.
Context {Style : Type} (measureHtmlText : string -> Style -> Size).
Implicit Type t : HTMLText Style.

Lemma text_bounds_again t :
  bounds measureHtmlText (snd (bounds measureHtmlText t)) = bounds measureHtmlText t.
Proof.
  unfold bounds. destruct (_boundsDirty t) eqn:E; simpl; [done | by rewrite E].
Qed.

Lemma text_bounds_computed t :
  computed measureHtmlText t ->
  fst (bounds measureHtmlText t) = _bounds (updateBounds measureHtmlText t)
  /\ _anchor (snd (bounds measureHtmlText t)) = _anchor t.
Proof.
  unfold computed, bounds. destruct (_boundsDirty t); simpl; [done|].
  intros Hc. by rewrite Hc.
Qed.

Lemma agree_when_exact t (point : PointData) :
  computed measureHtmlText t ->
  recomputes_exactly (_x (_anchor t))
                     (width (measureHtmlText (_text t) (_style t))) = true ->
  recomputes_exactly (_y (_anchor t))
                     (height (measureHtmlText (_text t) (_style t))) = true ->
  containsPoint measureHtmlText point t
  = ViewContainer_containsPoint measureHtmlText point t.
Proof.
  intros Hc Hx Hy.
  unfold containsPoint, ViewContainer_containsPoint.
  pose proof (text_bounds_again t) as Hagain.
  destruct (text_bounds_computed t Hc) as [Hb Hanchor].
  destruct (bounds measureHtmlText t) as [b t1]. simpl in *.
  rewrite Hagain, Hanchor, nested_tests. subst b.
  apply andb_true_iff in Hx as [Hx1 Hx2]. apply andb_true_iff in Hy as [Hy1 Hy2].
  destruct (same_compare _ _ (x point) Hx1) as [Gx _].
  destruct (same_compare _ _ (x point) Hx2) as [_ Lx].
  destruct (same_compare _ _ (y point) Hy1) as [Gy _].
  destruct (same_compare _ _ (y point) Hy2) as [_ Ly].
  unfold recomputed, laid_out in *. simpl in *.
  unfold Bounds_width, Bounds_height. simpl.
  by rewrite Gx, Lx, Gy, Ly.
Qed.
End Getter.

(** C8 (as the code has it).  Let the cached bounds of a text be those its
    [updateBounds] produces.  The override [AbstractText.containsPoint]
    tests the point against edges that it recomputes from the extents of
    the bounds.  Whenever that recomputation loses nothing, along both
    axes, the override and the inherited [ViewContainer.containsPoint]
    return the same answer at every point, NaN coordinates included, and
    leave the text in the same state.  This is so in particular when both
    coordinates of the anchor are zero (the default anchor) and the
    measured width and height are finite. *)
Theorem containsPoint_agrees_when_exact {Style : Type}
    (measureHtmlText : string -> Style -> Size)
    (t : HTMLText Style) (point : PointData) :
  computed measureHtmlText t ->
  let ax := _x (_anchor t) in
  let ay := _y (_anchor t) in
  let w := width (measureHtmlText (_text t) (_style t)) in
  let h := height (measureHtmlText (_text t) (_style t)) in
  (recomputes_exactly ax w = true -> recomputes_exactly ay h = true ->
   containsPoint measureHtmlText point t
   = ViewContainer_containsPoint measureHtmlText point t)
  /\ (isZero ax = true -> isZero ay = true ->
      isFinite w = true -> isFinite h = true ->
      containsPoint measureHtmlText point t
      = ViewContainer_containsPoint measureHtmlText point t).
Proof.
  intros Hc. cbv zeta. split.
  - by apply agree_when_exact.
  - intros Hax Hay Hw Hh.
    apply agree_when_exact; [done|by apply origin_recomputes_exactly..].
Qed.

Lemma containsPoint_agrees_when_exact_witness :
  containsPoint measure_label (mkPoint (integer 20) (integer (-6))) centred_label
  = ViewContainer_containsPoint measure_label (mkPoint (integer 20) (integer (-6)))
                                centred_label
  /\ containsPoint measure_line (mkPoint (integer 50) (integer 10)) line_at_origin
     = ViewContainer_containsPoint measure_line (mkPoint (integer 50) (integer 10))
                                   line_at_origin.
Proof.
  split.
  - refine (proj1 (containsPoint_agrees_when_exact measure_label centred_label
                     (mkPoint (integer 20) (integer (-6))) _) _ _);
      [discriminate | reflexivity..].
  - refine (proj2 (containsPoint_agrees_when_exact measure_line line_at_origin
                     (mkPoint (integer 50) (integer 10)) _) _ _ _ _);
      [discriminate | reflexivity..].
Defined.

(** C8, the claim as stated fails on a text of width 100.3 anchored at 0.3:
    [updateBounds] lays out [minX = -0.3 * 100.3], which rounds to
    -30.089999999999996, while the override tests against
    [-(maxX - minX) * 0.3], which rounds to -30.090000000000003.  The point
    (-30.09, 5) lies between the two: the override contains it, the
    inherited test does not. *)
Lemma containsPoint_rounding_counterexample :
  ~ (computed measure_line line ->
     fst (containsPoint measure_line (mkPoint (decimal (-3009) 100) (integer 5)) line)
     = fst (ViewContainer_containsPoint measure_line
              (mkPoint (decimal (-3009) 100) (integer 5)) line)).
Proof.
  intros H. assert (Hc : computed measure_line line) by discriminate.
  specialize (H Hc). vm_compute in H. discriminate.
Qed.

Example line_hit_tests :
  fst (containsPoint measure_line (mkPoint (decimal (-3009) 100) (integer 5)) line) = true
  /\ fst (ViewContainer_containsPoint measure_line
            (mkPoint (decimal (-3009) 100) (integer 5)) line) = false
  /\ recomputes_exactly (decimal 3 10) (decimal 1003 10) = false.
Proof. by vm_compute. Qed.

End TextDoublesProps.

(* ===================================================================== *)
(** * Properties of the mesh pipe *)
(* ===================================================================== *)

Module MeshPipeProps.
Import MeshPipe.

Lemma record_at_insert {A : Type} (h : gmap N (option A)) (k : N) (o : option A) :
  record_at (<[k := o]> h) k = o.
Proof. unfold record_at. by rewrite lookup_insert_eq. Qed.

Lemma record_at_insert_ne {A : Type} (h : gmap N (option A)) (k k' : N) (o : option A) :
  k ≠ k' -> record_at (<[k := o]> h) k' = record_at h k'.
Proof. intros Hne. unfold record_at. by rewrite lookup_insert_ne. Qed.

Lemma getMeshData_stored (mesh : Mesh) (p : Pipe) (d : MeshData) :
  record_at (_meshDataHash p) (uid mesh) = Some d -> _getMeshData mesh p = (d, p).
Proof. unfold _getMeshData. by intros ->. Qed.

Lemma getBatchableMesh_stored (mesh : Mesh) (p : Pipe) (g : BatchableMesh) :
  record_at (_gpuBatchableMeshHash p) (uid mesh) = Some g ->
  _getBatchableMesh mesh p = (g, p).
Proof. unfold _getBatchableMesh. by intros ->. Qed.

Lemma getBatchableMesh_write_meshData (mesh : Mesh) (d : MeshData) (p : Pipe) :
  fst (_getBatchableMesh mesh (write_meshData mesh d p))
  = fst (_getBatchableMesh mesh p).
Proof.
  unfold _getBatchableMesh. simpl.
  by destruct (record_at (_gpuBatchableMeshHash p) (uid mesh)).
Qed.

Lemma checkedRecord_write_meshData (mesh : Mesh) (d : MeshData) (p : Pipe) :
  checkedRecord mesh (write_meshData mesh d p) = checkedRecord mesh p.
Proof. unfold checkedRecord. by rewrite getBatchableMesh_write_meshData. Qed.

Lemma getBatchableMesh_meshDataHash (mesh : Mesh) (p : Pipe) :
  _meshDataHash (snd (_getBatchableMesh mesh p)) = _meshDataHash p.
Proof.
  unfold _getBatchableMesh.
  by destruct (record_at (_gpuBatchableMeshHash p) (uid mesh)).
Qed.

Lemma sizesDiffer_true (mesh : Mesh) (d : MeshData) :
  sizesDiffer mesh d = true
  <-> length (indices (_geometry mesh)) ≠ indexSize d
      \/ length (positions (_geometry mesh)) ≠ vertexSize d.
Proof.
  unfold sizesDiffer. rewrite orb_true_iff, !negb_true_iff, !Nat.eqb_neq. tauto.
Qed.

Lemma sizesDiffer_set_batched (mesh : Mesh) (b : bool) (d : MeshData) :
  sizesDiffer mesh (md_set_batched b d) = sizesDiffer mesh d.
Proof. done. Qed.

Section Validate.
Variable checkAndUpdateTexture : BatchableMesh -> Texture -> bool * BatchableMesh.

(** What [validateRenderable] returns and records, branch by branch, for a
    mesh whose mesh data [d] is on record. *)
Lemma validateRenderable_stored (mesh : Mesh) (p : Pipe) (d : MeshData) :
  record_at (_meshDataHash p) (uid mesh) = Some d ->
  fst (validateRenderable checkAndUpdateTexture mesh p)
  = (if negb (eqb (md_batched d) (batched mesh)) then Normal true
     else if negb (batched mesh) then Normal false
     else if sizesDiffer mesh d then Normal true
     else match _batcher (checkedRecord mesh p) with
          | Some _ =>
              Normal (negb (fst (checkAndUpdateTexture (checkedRecord mesh p)
                                                       (_texture mesh))))
          | None => TypeError
          end)
  /\ record_at (_meshDataHash (snd (validateRenderable checkAndUpdateTexture mesh p)))
               (uid mesh)
     = Some (if eqb (md_batched d) (batched mesh) && batched mesh && sizesDiffer mesh d
             then mkMeshData true (length (indices (_geometry mesh)))
                             (length (positions (_geometry mesh)))
             else mkMeshData (batched mesh) (indexSize d) (vertexSize d)).
Proof.
  intros Hd. unfold validateRenderable. rewrite (getMeshData_stored _ _ _ Hd).
  rewrite sizesDiffer_set_batched.
  destruct (eqb (md_batched d) (batched mesh)) eqn:Eflag; simpl.
  2: { split; [done|]. apply record_at_insert. }
  destruct (batched mesh) eqn:Eis; simpl.
  2: { split; [done|]. apply record_at_insert. }
  destruct (sizesDiffer mesh d) eqn:Esize; simpl.
  { split; [done|]. apply record_at_insert. }
  pose proof (checkedRecord_write_meshData mesh (md_set_batched true d) p) as Hrec.
  pose proof (getBatchableMesh_meshDataHash mesh
                (write_meshData mesh (md_set_batched true d) p)) as Hhash.
  unfold checkedRecord in *.
  destruct (_getBatchableMesh mesh (write_meshData mesh (md_set_batched true d) p))
    as [g q]. simpl in Hrec, Hhash. rewrite <- Hrec.
  destruct (_batcher _) as [b|]; simpl.
  - destruct (checkAndUpdateTexture _ _) as [ok g']. simpl.
    split; [done|]. rewrite Hhash. apply record_at_insert.
  - split; [done|]. rewrite Hhash. apply record_at_insert.
Qed.

(** C3 (as the code has it).  For a mesh whose mesh data [d] is on record,
    [validateRenderable] returns true exactly when the recorded eligibility
    differs from [mesh.batched], or the mesh is batched and the length of
    its index array or of its position array differs from the recorded
    size, or the mesh is batched, its batch record is in a batch and
    [checkAndUpdateTexture] rejects its texture.  It returns false exactly
    when the eligibility is unchanged and the mesh is not batched, or sizes
    are unchanged and the texture check of the batch passes.  It ends in a
    [TypeError] exactly when eligibility and sizes are unchanged, the mesh
    is batched and its batch record (a new one when there was none) is in
    no batch.  Whatever the outcome, the mesh data then carries
    [mesh.batched], and the sizes of the geometry when the mesh is batched
    and was so before: the next call, for whatever the mesh has become by
    then, reports any change of eligibility since this one. *)
Theorem validateRenderable_outcome (mesh : Mesh) (p : Pipe) (d : MeshData) :
  record_at (_meshDataHash p) (uid mesh) = Some d ->
  let result := fst (validateRenderable checkAndUpdateTexture mesh p) in
  let after := snd (validateRenderable checkAndUpdateTexture mesh p) in
  let sizes_differ :=
    length (indices (_geometry mesh)) ≠ indexSize d
    \/ length (positions (_geometry mesh)) ≠ vertexSize d in
  let in_batch := is_Some (_batcher (checkedRecord mesh p)) in
  let texture_ok :=
    fst (checkAndUpdateTexture (checkedRecord mesh p) (_texture mesh)) in
  (result = Normal true
   <-> md_batched d ≠ batched mesh
       \/ batched mesh = true
          /\ (sizes_differ \/ in_batch /\ texture_ok = false))
  /\ (result = Normal false
      <-> md_batched d = batched mesh
          /\ (batched mesh = false
              \/ ~ sizes_differ /\ in_batch /\ texture_ok = true))
  /\ (result = TypeError
      <-> md_batched d = batched mesh /\ batched mesh = true
          /\ ~ sizes_differ /\ ~ in_batch)
  /\ (exists d',
         record_at (_meshDataHash after) (uid mesh) = Some d'
         /\ md_batched d' = batched mesh
         /\ (md_batched d = batched mesh -> batched mesh = true ->
             indexSize d' = length (indices (_geometry mesh))
             /\ vertexSize d' = length (positions (_geometry mesh))))
  /\ (forall later : Mesh,
         uid later = uid mesh -> batched later ≠ batched mesh ->
         fst (validateRenderable checkAndUpdateTexture later after) = Normal true).
Proof.
  intros Hd. cbv zeta.
  destruct (validateRenderable_stored mesh p d Hd) as [Hres Hrec].
  rewrite Hres. rewrite <- (sizesDiffer_true mesh d).
  assert (Hcases :
    forall (was now differ : bool) (batcher : option N) (ok : bool),
      let result :=
        if negb (eqb was now) then Normal true
        else if negb now then Normal false
        else if differ then Normal true
        else match batcher with
             | Some _ => Normal (negb ok)
             | None => @TypeError bool
             end in
      (result = Normal true
       <-> was ≠ now \/ now = true /\ (differ = true \/ is_Some batcher /\ ok = false))
      /\ (result = Normal false
          <-> was = now
              /\ (now = false \/ differ ≠ true /\ is_Some batcher /\ ok = true))
      /\ (result = TypeError
          <-> was = now /\ now = true /\ differ ≠ true /\ ~ is_Some batcher)).
  { intros [|] [|] [|] [b|] [|]; simpl; rewrite ?is_Some_alt; intuition congruence. }
  destruct (Hcases (md_batched d) (batched mesh) (sizesDiffer mesh d)
              (_batcher (checkedRecord mesh p))
              (fst (checkAndUpdateTexture (checkedRecord mesh p) (_texture mesh))))
    as (H1 & H2 & H3).
  split; [exact H1|]. split; [exact H2|]. split; [exact H3|]. clear Hcases H1 H2 H3.
  split.
  - eexists. split; [exact Hrec|].
    destruct (eqb (md_batched d) (batched mesh) && batched mesh && sizesDiffer mesh d)
      eqn:Eall; simpl.
    + apply andb_true_iff in Eall as [Eall _]. apply andb_true_iff in Eall as [_ ->].
      by split.
    + split; [done|]. intros Hsame Hb. rewrite Hsame, Hb, eqb_reflx in Eall.
      simpl in Eall. unfold sizesDiffer in Eall.
      apply orb_false_iff in Eall as [Ei Ev].
      apply negb_false_iff, Nat.eqb_eq in Ei. apply negb_false_iff, Nat.eqb_eq in Ev.
      by split.
  - intros later Huid Hlater.
    match type of Hrec with _ = Some ?d0 => set (d' := d0) in * end.
    assert (Hrec' : record_at
                      (_meshDataHash (snd (validateRenderable checkAndUpdateTexture mesh p)))
                      (uid later) = Some d') by (by rewrite Huid).
    destruct (validateRenderable_stored later _ d' Hrec') as [-> _].
    assert (Hd' : md_batched d' = batched mesh).
    { unfold d'. destruct (eqb _ _ && batched mesh && _) eqn:Eall; [|done].
      apply andb_true_iff in Eall as [Eall _].
      by apply andb_true_iff in Eall as [_ ->]. }
    rewrite Hd'. destruct (batched mesh), (batched later); simpl; congruence.
Qed.
End Validate.

Lemma validateRenderable_outcome_witness :
  fst (validateRenderable Samples.roomy Samples.plane Samples.pipe) = Normal false
  /\ fst (validateRenderable Samples.roomy Samples.unshaded Samples.pipe) = Normal true
  /\ fst (validateRenderable Samples.roomy Samples.unshaded Samples.noticed) = TypeError
  /\ (exists d',
        record_at (_meshDataHash
                     (snd (validateRenderable Samples.roomy Samples.unshaded Samples.pipe)))
                  (uid Samples.unshaded) = Some d'
        /\ md_batched d' = true).
Proof.
  destruct (validateRenderable_outcome Samples.roomy Samples.plane Samples.pipe
              (mkMeshData true 6 8) eq_refl)
    as (_ & Hfalse & _).
  destruct (validateRenderable_outcome Samples.roomy Samples.unshaded Samples.pipe
              (mkMeshData false 6 8) eq_refl)
    as (Htrue & _ & _ & (d' & Hd' & Hflag & _) & _).
  destruct (validateRenderable_outcome Samples.roomy Samples.unshaded Samples.noticed
              (mkMeshData true 6 8) eq_refl)
    as (_ & _ & Hthrows & _).
  split; [|split; [|split]].
  - apply Hfalse. split; [reflexivity|]. right.
    split; [intros [H|H]; by apply H|]. split; [by eexists | reflexivity].
  - apply Htrue. left. discriminate.
  - apply Hthrows. split; [reflexivity|]. split; [reflexivity|].
    split; [intros [H|H]; by apply H|]. intros [b Hb]. discriminate Hb.
  - exists d'. by split.
Defined.

(** C3, the claim as stated fails on a mesh that became batched after it was
    added: once a first call has noticed the change, the mesh data is in
    step with the mesh, but there is no batch to check the texture
    against, and the next call ends in a [TypeError] instead of returning
    a boolean. *)
Lemma validateRenderable_no_batch_counterexample :
  ~ (forall d : MeshData,
       record_at (_meshDataHash Samples.noticed) (uid Samples.unshaded) = Some d ->
       returns_true_iff_changed Samples.roomy Samples.unshaded Samples.noticed d).
Proof.
  intros H. destruct (H (mkMeshData true 6 8) eq_refl) as (b & Hb & _).
  vm_compute in Hb. discriminate.
Qed.

Example validateRenderable_after_flip :
  fst (validateRenderable Samples.roomy Samples.unshaded Samples.pipe) = Normal true
  /\ fst (validateRenderable Samples.roomy Samples.unshaded Samples.noticed) = TypeError.
Proof. by vm_compute. Qed.

Lemma addToBatch_fields (element : BatchableMesh) (instructionSet : InstructionSet)
    (b : Batcher) :
  let '(element', b', instructionSet') := Batcher_addToBatch element instructionSet b in
  element' = set_batcher (Some (batcher_id b)) element
  /\ instructionSet'
     = (if compatible (texture element) b then instructionSet
        else instructionSet ++ [DrawBatch (accumulating b)])
  /\ accumulating b'
     = (if compatible (texture element) b then accumulating b else [])
       ++ [renderable element]
  /\ batcher_id b' = batcher_id b
  /\ maxTextures b' = maxTextures b.
Proof. unfold Batcher_addToBatch. by destruct (compatible (texture element) b). Qed.

(** C4 (as the code has it).  Let [d] be the mesh data on record for the
    mesh.
    If [d] marks it not batched, [addRenderable] asks the batcher for a
    break (the accumulating batch is flushed into the instruction set) and
    then appends the mesh as a draw instruction of its own; hashes and pool
    stay as they were.
    If [d] marks it batched, the batch record under the key [mesh.uid] is
    the one that was there, or a newly acquired one when there was none,
    with its texture and geometry set to those of the mesh; it is handed
    to the batcher together with the instruction set, and belongs to the
    batcher afterwards.  The pipe asks for no break; the batcher records
    one of its own accord exactly when the texture of the mesh is not
    compatible with the batch in progress. *)
Theorem addRenderable_by_mesh_data
    (mesh : Mesh) (instructionSet : InstructionSet) (p : Pipe) (d : MeshData) :
  record_at (_meshDataHash p) (uid mesh) = Some d ->
  let p' := fst (addRenderable mesh instructionSet p) in
  let instructionSet' := snd (addRenderable mesh instructionSet p) in
  if md_batched d then
    exists g',
      record_at (_gpuBatchableMeshHash p') (uid mesh) = Some g'
      /\ texture g' = _texture mesh
      /\ geometry g' = Some (_geometry mesh)
      /\ _batcher g' = Some (batcher_id (batch p))
      /\ instructionSet'
         = (if compatible (_texture mesh) (batch p) then instructionSet
            else instructionSet ++ [DrawBatch (accumulating (batch p))])
      /\ accumulating (batch p')
         = (if compatible (_texture mesh) (batch p) then accumulating (batch p) else [])
           ++ [renderable g']
      /\ _meshDataHash p' = _meshDataHash p
      /\ match record_at (_gpuBatchableMeshHash p) (uid mesh) with
         | Some g =>
             renderable g' = renderable g
             /\ transform g' = transform g
             /\ roundPixels g' = roundPixels g
             /\ _textureMatrixUpdateId g' = _textureMatrixUpdateId g
             /\ BigPool p' = BigPool p
             /\ calls p' = calls p ++ [CallAddToBatch (uid mesh)]
         | None =>
             renderable g' = uid mesh
             /\ transform g' = groupTransform mesh
             /\ roundPixels g' = renderer_roundPixels p || _roundPixels mesh
             /\ BigPool p' = tail (BigPool p)
             /\ calls p' = calls p ++ [CallPoolGet; CallAddToBatch (uid mesh)]
         end
  else
    instructionSet'
    = instructionSet ++ [DrawBatch (accumulating (batch p)); DrawRenderable (uid mesh)]
    /\ accumulating (batch p') = []
    /\ _meshDataHash p' = _meshDataHash p
    /\ _gpuBatchableMeshHash p' = _gpuBatchableMeshHash p
    /\ BigPool p' = BigPool p
    /\ calls p' = calls p ++ [CallBreak].
Proof.
  intros Hd. unfold addRenderable. rewrite (getMeshData_stored _ _ _ Hd).
  destruct (md_batched d); simpl.
  - unfold _getBatchableMesh.
    destruct (record_at (_gpuBatchableMeshHash p) (uid mesh)) as [g|] eqn:Eg.
    + pose proof (addToBatch_fields
                    (set_geometry (_geometry mesh) (setTexture (_texture mesh) g))
                    instructionSet (batch p)) as Hadd.
      destruct (Batcher_addToBatch _ _ _) as [[g' b'] is'].
      destruct Hadd as (-> & -> & Hacc & _). simpl in *.
      eexists. rewrite record_at_insert. split; [reflexivity|].
      by repeat split.
    + pose proof (addToBatch_fields
                    (set_geometry (_geometry mesh)
                       (setTexture (_texture mesh)
                          (fst (_initBatchableMesh mesh p))))
                    instructionSet (batch p)) as Hadd.
      simpl in *.
      destruct (Batcher_addToBatch _ _ _) as [[g' b'] is'].
      destruct Hadd as (-> & -> & Hacc & _). simpl in *.
      eexists. rewrite record_at_insert. split; [reflexivity|].
      repeat split; try done. by rewrite <- app_assoc.
  - unfold InstructionSet_add. by rewrite <- app_assoc.
Qed.

Lemma addRenderable_by_mesh_data_witness :
  (exists g',
      record_at (_gpuBatchableMeshHash (fst (addRenderable Samples.plane [] Samples.pipe)))
                (uid Samples.plane) = Some g'
      /\ texture g' = Samples.button_texture
      /\ geometry g' = Some Samples.quad
      /\ _batcher g' = Some 1%N
      /\ snd (addRenderable Samples.plane [] Samples.pipe) = []
      /\ accumulating (batch (fst (addRenderable Samples.plane [] Samples.pipe)))
         = [4%N; 5%N])
  /\ snd (addRenderable Samples.shaded [] Samples.pipe)
     = [DrawBatch [4%N]; DrawRenderable 6%N]
  /\ accumulating (batch (fst (addRenderable Samples.shaded [] Samples.pipe))) = []
  /\ calls (fst (addRenderable Samples.shaded [] Samples.pipe)) = [CallBreak].
Proof.
  split.
  - destruct (addRenderable_by_mesh_data Samples.plane [] Samples.pipe
                (mkMeshData true 6 8) eq_refl)
      as (g' & Hg' & Ht & Hgeo & Hb & His & Hacc & _ & Hr & _).
    exists g'. rewrite Hacc, Hr. by repeat split.
  - destruct (addRenderable_by_mesh_data Samples.shaded [] Samples.pipe
                (mkMeshData false 6 8) eq_refl)
      as (His & Hacc & _ & _ & _ & Hcalls).
    by repeat split.
Defined.

(** C4, the claim as stated fails when the batch in progress has no slot
    for the texture of the mesh: the batcher then breaks before it takes
    the record, and the break is recorded in the instruction set. *)
Lemma addRenderable_full_batch_counterexample :
  ~ (forall d : MeshData,
       record_at (_meshDataHash Samples.full_pipe) (uid Samples.plane) = Some d ->
       md_batched d = true ->
       adds_without_break Samples.plane [] Samples.full_pipe).
Proof.
  intros H. specialize (H (mkMeshData true 6 8) eq_refl eq_refl).
  vm_compute in H. discriminate.
Qed.

(** Two meshes with textures that fit the batch in progress are merged
    without a break; a third whose texture does not fit forces a break
    before it is taken. *)
Example three_meshes_one_break :
  let first := mkMesh 11 true Samples.quad (mkTexture 1 false) 9 false in
  let second := mkMesh 12 true Samples.quad (mkTexture 2 false) 9 false in
  let third := mkMesh 13 true Samples.quad (mkTexture 3 false) 9 false in
  let '(p1, set1) := addRenderable first [] MoreSamples.fresh_pipe in
  let '(p2, set2) := addRenderable second set1 p1 in
  let '(p3, set3) := addRenderable third set2 p2 in
  set2 = [] /\ set3 = [DrawBatch [11%N; 12%N]] /\ accumulating (batch p3) = [13%N].
Proof. by vm_compute. Qed.

Lemma destroyRenderable_meshData (mesh : Mesh) (p : Pipe) :
  record_at (_meshDataHash (destroyRenderable mesh p)) (uid mesh) = None.
Proof.
  unfold destroyRenderable. simpl.
  destruct (record_at (_gpuBatchableMeshHash p) (uid mesh)); simpl;
    apply record_at_insert.
Qed.

Lemma destroyRenderable_batchRecord (mesh : Mesh) (p : Pipe) :
  record_at (_gpuBatchableMeshHash (destroyRenderable mesh p)) (uid mesh) = None.
Proof.
  unfold destroyRenderable. simpl.
  destruct (record_at (_gpuBatchableMeshHash p) (uid mesh)) eqn:E; simpl.
  - apply record_at_insert.
  - exact E.
Qed.

Lemma destroyRenderable_pool (mesh : Mesh) (p : Pipe) :
  BigPool (destroyRenderable mesh p)
  = match record_at (_gpuBatchableMeshHash p) (uid mesh) with
    | Some g => g :: BigPool p
    | None => BigPool p
    end
  /\ poolReturns (destroyRenderable mesh p)
     = (poolReturns p
        + match record_at (_gpuBatchableMeshHash p) (uid mesh) with
          | Some _ => 1
          | None => 0
          end)%nat.
Proof.
  unfold destroyRenderable, poolReturns. simpl.
  destruct (record_at (_gpuBatchableMeshHash p) (uid mesh)); simpl;
    rewrite !List.filter_app, !length_app; simpl; split; (done || lia).
Qed.

(** C5.  [destroyRenderable] is a total function of the pipe, so two calls
    in a row complete.  After them neither hash holds a record under the
    uid of the mesh; the batch record that was there, if any, was handed to
    [BigPool.return] once, by the first call, and the second call only
    repeats [mesh.off]. *)
Theorem destroyRenderable_twice (mesh : Mesh) (p : Pipe) :
  let once := destroyRenderable mesh p in
  let twice := destroyRenderable mesh once in
  record_at (_meshDataHash twice) (uid mesh) = None
  /\ record_at (_gpuBatchableMeshHash twice) (uid mesh) = None
  /\ poolReturns twice
     = (poolReturns p
        + match record_at (_gpuBatchableMeshHash p) (uid mesh) with
          | Some _ => 1
          | None => 0
          end)%nat
  /\ BigPool twice
     = match record_at (_gpuBatchableMeshHash p) (uid mesh) with
       | Some g => g :: BigPool p
       | None => BigPool p
       end
  /\ poolReturns twice = poolReturns once
  /\ BigPool twice = BigPool once.
Proof.
  cbv zeta.
  destruct (destroyRenderable_pool mesh (destroyRenderable mesh p)) as [Hpool Hret].
  rewrite destroyRenderable_batchRecord in Hpool, Hret.
  destruct (destroyRenderable_pool mesh p) as [Hpool1 Hret1].
  split; [apply destroyRenderable_meshData|].
  split; [apply destroyRenderable_batchRecord|].
  rewrite Hret, Hpool, Hret1, Hpool1. repeat split; lia.
Qed.

Example updateRenderable_after_destroy :
  fst (updateRenderable Samples.plane (destroyRenderable Samples.plane Samples.pipe))
  = TypeError.
Proof. by vm_compute. Qed.

Example addRenderable_allocates :
  calls (fst (addRenderable Samples.plane []
                (destroyRenderable Samples.plane Samples.pipe)))
  = [CallPoolReturn 5; CallOff 5; CallOn 5; CallPoolGet; CallAddToBatch 5].
Proof. by vm_compute. Qed.




Example updateRenderable_stranded :
  fst (updateRenderable Samples.unshaded Samples.stranded) = TypeError
  /\ (exists g,
        record_at (_gpuBatchableMeshHash
                     (snd (updateRenderable Samples.unshaded Samples.stranded)))
                  (uid Samples.unshaded) = Some g
        /\ geometry g = Some Samples.quad /\ _batcher g = None).
Proof. split; [reflexivity|]. eexists. by vm_compute. Qed.

End MeshPipeProps.

(* ===================================================================== *)
(** * Setters, caches and listeners of the views *)
(* ===================================================================== *)

Module ViewMoreProps.
Import Scene.

Lemma bounds_after_update_anchored (v : NineSlice.View) :
  anchored (fst (bounds (onViewUpdate v)))
           (_x (NineSlice._anchor (self (onViewUpdate v))))
           (_y (NineSlice._anchor (self (onViewUpdate v))))
           (NineSlice._width (self (onViewUpdate v)))
           (NineSlice._height (self (onViewUpdate v))).
Proof.
  rewrite (ViewProps.bounds_dirty _ (ViewProps.onViewUpdate_dirty v)).
  by repeat split.
Qed.

Lemma onViewUpdate_self {X : Type} (v : ViewContainer X) :
  self (onViewUpdate v) = self v.
Proof.
  unfold onViewUpdate. simpl. destruct (didViewUpdate v); simpl; [done|].
  by destruct (owningRenderGroup _).
Qed.

(** X1.  After [width], [height] or [setSize] is assigned, the next read of
    [bounds] is laid out for the new size (and the old anchor): the cache
    never serves the rectangle of the previous size. *)
Theorem NineSlice_resize_refreshes_bounds (v : NineSlice.View) (w h : Q) :
  let ax := _x (NineSlice._anchor (self v)) in
  let ay := _y (NineSlice._anchor (self v)) in
  anchored (fst (bounds (NineSlice.set_width w v))) ax ay w (NineSlice._height (self v))
  /\ anchored (fst (bounds (NineSlice.set_height h v))) ax ay (NineSlice._width (self v)) h
  /\ anchored (fst (bounds (NineSlice.setSize w h v))) ax ay w h.
Proof.
  cbv zeta.
  pose proof (bounds_after_update_anchored
                (set_self (NineSlice.with_width w (self v)) v)) as Hw.
  pose proof (bounds_after_update_anchored
                (set_self (NineSlice.with_height h (self v)) v)) as Hh.
  pose proof (bounds_after_update_anchored
                (set_self (NineSlice.with_height h (NineSlice.with_width w (self v))) v))
    as Hs.
  rewrite !onViewUpdate_self in Hw, Hh, Hs. simpl in Hw, Hh, Hs.
  split; [exact Hw|]. split; [exact Hh|]. exact Hs.
Qed.

Import NineSliceSizing.

(** X2.  [setSize] stores the size that [getSize] returns: a lone number gives a
    square, an object without [height] takes its [width] for it, and with an
    object the second argument is not looked at.  It does so in one update,
    where assigning [width] and then [height] takes two. *)
Theorem setSize_getSize (value : Q + SizeArg) (height : option Q)
    (w h : Q) (v : NineSlice.View) :
  getSize (setSizeOf value height v)
  = match value with
    | inl n => mkSize n (default n height)
    | inr o => mkSize (arg_width o) (default (arg_width o) (arg_height o))
    end
  /\ _didViewChangeTick (setSizeOf value height v) = _didViewChangeTick v + 1
  /\ getSize (NineSlice.set_height h (NineSlice.set_width w v))
     = getSize (setSizeOf (inl w) (Some h) v)
  /\ _didViewChangeTick (NineSlice.set_height h (NineSlice.set_width w v))
     = _didViewChangeTick v + 2.
Proof.
  unfold getSize, setSizeOf, NineSlice.set_height, NineSlice.set_width.
  repeat split.
  - by destruct value as [n|o]; cbv beta iota zeta; rewrite onViewUpdate_self.
  - destruct value as [n|o]; cbv beta iota zeta;
      by rewrite ViewProps.onViewUpdate_tick.
  - cbv beta iota zeta.
    repeat (rewrite ?onViewUpdate_self; cbn [self set_self]). done.
  - rewrite ViewProps.onViewUpdate_tick.
    change (_didViewChangeTick (set_self ?s ?x)) with (_didViewChangeTick x).
    rewrite ViewProps.onViewUpdate_tick.
    change (_didViewChangeTick (set_self ?s ?x)) with (_didViewChangeTick x).
    lia.
Qed.

Lemma textureListeners_app (l l' : list Call) :
  textureListeners (l ++ l') = fold_left listen_step l' (textureListeners l).
Proof. unfold textureListeners. by rewrite fold_left_app. Qed.

Lemma textureListeners_update (v : NineSlice.View) :
  textureListeners (calls (onViewUpdate v)) = textureListeners (calls v).
Proof.
  rewrite ViewProps.onViewUpdate_calls, textureListeners_app.
  unfold notification. destruct (didViewUpdate v); [done|].
  by destruct (owningRenderGroup v).
Qed.

Lemma listens_to_held_update (s : NineSlice.NineSliceSprite) (v : NineSlice.View) :
  NineSlice._texture s = NineSlice._texture (self v) ->
  listens_to_held v -> listens_to_held (onViewUpdate (set_self s v)).
Proof.
  intros Hs Hv u. rewrite textureListeners_update, onViewUpdate_self. simpl.
  rewrite Hs. apply Hv.
Qed.

(** X3.  Swapping textures keeps the listeners in step with the texture held:
    if the sprite listens exactly to its texture when that one is dynamic,
    it still does after [texture] is assigned any texture or null, and
    after a resize.  No listener is left on a texture that was replaced and
    none is added twice. *)
Theorem set_texture_keeps_listeners
    (EMPTY : Texture) (value : option Texture) (w h : Q) (v : NineSlice.View) :
  listens_to_held v ->
  listens_to_held (NineSlice.set_texture EMPTY value v)
  /\ listens_to_held (NineSlice.set_width w v)
  /\ listens_to_held (NineSlice.set_height h v)
  /\ listens_to_held (setSizeOf (inl w) (Some h) v).
Proof.
  intros Hv. split; [|repeat split; by apply listens_to_held_update].
  unfold NineSlice.set_texture. simpl.
  destruct (decide (NineSlice._texture (self v) = Some (default EMPTY value)))
    as [Heq|Hne]; [done|].
  set (new := default EMPTY value) in *.
  intros u. specialize (Hv u).
  rewrite textureListeners_update, onViewUpdate_self. simpl.
  destruct (NineSlice._texture (self v)) as [[cu cd]|]; simpl in *.
  - destruct cd, new as [nu [|]]; simpl in *;
      rewrite ?textureListeners_app; simpl; rewrite ?Hv;
      repeat (match goal with
              | |- context [(?a =? ?b)%N] => destruct (N.eqb_spec a b)
              end); subst; simpl; congruence.
  - destruct new as [nu [|]]; simpl in *;
      rewrite ?textureListeners_app; simpl; rewrite ?Hv;
      repeat (match goal with
              | |- context [(?a =? ?b)%N] => destruct (N.eqb_spec a b)
              end); subst; simpl; congruence.
Qed.

Lemma set_texture_keeps_listeners_witness :
  listens_to_held (NineSlice.set_texture Samples.empty_texture
                     (Some MoreSamples.video_texture) Samples.button)
  /\ listens_to_held (NineSlice.set_width 3 Samples.button)
  /\ listens_to_held (NineSlice.set_height 4 Samples.button)
  /\ listens_to_held (setSizeOf (inl 3%Q) (Some 4%Q) Samples.button).
Proof.
  apply (set_texture_keeps_listeners Samples.empty_texture
           (Some MoreSamples.video_texture) 3 4 Samples.button).
  intros u. reflexivity.
Defined.

Example swap_to_dynamic_and_back :
  calls (NineSlice.set_texture Samples.empty_texture None
           (NineSlice.set_texture Samples.empty_texture
              (Some MoreSamples.video_texture) Samples.button))
  = [CallTextureOn 8; CallOnChildViewUpdate 7 2; CallTextureOff 8].
Proof. by vm_compute. Qed.

Lemma set_text_changed {Style : Type}
    (value : Text.TextString) (v : ViewContainer (Text.AbstractText Style)) :
  Text.toString value ≠ Text.text v ->
  Text.text (Text.set_text value v) = Text.toString value
  /\ _boundsDirty (Text.set_text value v) = true
  /\ Text._anchor (self (Text.set_text value v)) = Text._anchor (self v)
  /\ Text._style (self (Text.set_text value v)) = Text._style (self v).
Proof.
  intros Hne. unfold Text.set_text, Text.text in *.
  rewrite decide_False by congruence.
  rewrite ViewProps.text_onViewUpdate_inherited.
  change (_boundsDirty (set_self ?s ?x)) with (_boundsDirty x).
  rewrite ViewProps.onViewUpdate_dirty.
  cbn [self set_self didViewUpdate].
  by destruct (didViewUpdate v).
Qed.

(** X4.  Reading [text] after assigning it gives the string form of what was
    assigned.  The assignment counts as an update exactly when that string
    differs from the text before: then the tick goes up by one and the
    bounds are dirty, and [_didTextUpdate] is raised unless an update was
    already pending; otherwise tick, flags and log stay as they were. *)
Theorem set_text_then_read {Style : Type}
    (value : Text.TextString) (v : ViewContainer (Text.AbstractText Style)) :
  let changed := negb (bool_decide (Text.text v = Text.toString value)) in
  let v' := Text.set_text value v in
  Text.text v' = Text.toString value
  /\ _didViewChangeTick v' = _didViewChangeTick v + (if changed then 1 else 0)
  /\ _boundsDirty v' = changed || _boundsDirty v
  /\ Text._didTextUpdate (self v')
     = changed && negb (didViewUpdate v) || Text._didTextUpdate (self v)
  /\ calls v' = calls v ++ (if changed then notification v else []).
Proof.
  cbv zeta. unfold Text.set_text, Text.text.
  destruct (decide (Text._text (self v) = Text.toString value)) as [E|E].
  - rewrite (bool_decide_eq_true_2 _ E). simpl.
    rewrite app_nil_r. repeat split; (done || lia).
  - rewrite (bool_decide_eq_false_2 _ E). simpl.
    rewrite ViewProps.text_onViewUpdate_inherited.
    cbn [self set_self _didViewChangeTick _boundsDirty calls didViewUpdate].
    change (_didViewChangeTick (set_self ?s ?x)) with (_didViewChangeTick x).
    change (_boundsDirty (set_self ?s ?x)) with (_boundsDirty x).
    change (calls (set_self ?s ?x)) with (calls x).
    rewrite ViewProps.onViewUpdate_tick, ViewProps.onViewUpdate_dirty,
      ViewProps.onViewUpdate_calls.
    repeat split. by destruct (didViewUpdate v).
    by destruct (didViewUpdate v).
Qed.

(** X5.  After [text] is assigned a different string, the next read of the
    bounds of an [HTMLText] is laid out for the measurement of the new
    text: the rectangle of the old text is never served. *)
Theorem set_text_refreshes_bounds {Style : Type}
    (measureHtmlText : string -> Style -> Text.Size)
    (value : Text.TextString) (v : ViewContainer (Text.AbstractText Style)) :
  Text.toString value ≠ Text.text v ->
  anchored (fst (@bounds _ (Text.HTMLText_view measureHtmlText) (Text.set_text value v)))
           (_x (Text._anchor (self v))) (_y (Text._anchor (self v)))
           (Text.width (measureHtmlText (Text.toString value) (Text._style (self v))))
           (Text.height (measureHtmlText (Text.toString value) (Text._style (self v)))).
Proof.
  intros Hne.
  destruct (set_text_changed value v Hne) as (Htext & Hdirty & Hanchor & Hstyle).
  pose proof (ShapeProps.HTMLText_bounds_anchored measureHtmlText _ Hdirty) as Ha.
  by rewrite Htext, Hanchor, Hstyle in Ha.
Qed.

Lemma set_text_refreshes_bounds_witness :
  anchored (fst (@bounds _ (Text.HTMLText_view Samples.measure_40_12)
                         (Text.set_text (Text.TextOfString "hello") Samples.label)))
           (1 # 2) (1 # 2) 40 12.
Proof.
  apply (set_text_refreshes_bounds Samples.measure_40_12
           (Text.TextOfString "hello") Samples.label).
  by vm_compute.
Defined.

End ViewMoreProps.

(* ===================================================================== *)
(** * Properties of the render pass over a view *)
(* ===================================================================== *)

Module RenderPassProps.
Import Scene RenderPass.

Lemma onViewUpdate_attached {X : Type} (v : ViewContainer X) :
  attached (onViewUpdate v) = attached v.
Proof.
  destruct v as [u t d rg prg b bd s cs].
  unfold attached, onViewUpdate, owningRenderGroup. simpl.
  by destruct d, rg, prg.
Qed.

Lemma iter_onViewUpdate_attached {X : Type} (n : nat) (v : ViewContainer X) :
  attached (Nat.iter n onViewUpdate v) = attached v.
Proof.
  induction n as [|n IH]; [done|]. simpl. by rewrite onViewUpdate_attached.
Qed.

(** X6.  Collecting a view ends the frame in which its updates were coalesced.
    With a pipe registered under the view's [renderPipeId], the collection
    completes, the pipe sees the view after the blend mode pipe, and the
    view comes out with [didViewUpdate] cleared and its tick, dirty flag
    and log untouched; whatever number of updates follows then notifies the
    render group once more. *)
Theorem collect_opens_new_frame {X I : Type}
    (setBlendMode : ViewContainer X -> I -> I)
    (renderPipes : gmap string (ViewContainer X -> I -> I))
    (renderPipeId : string) (collectChildren : I -> I)
    (pipe : ViewContainer X -> I -> I)
    (instructionSet : I) (v : ViewContainer X) (m n : nat) :
  renderPipes !! renderPipeId = Some pipe ->
  let updated := Nat.iter (S m) onViewUpdate v in
  exists v',
    collectRenderablesSimple setBlendMode renderPipes renderPipeId collectChildren
                             instructionSet updated
    = MeshPipe.Normal
        (collectChildren (pipe updated (setBlendMode updated instructionSet)), v')
    /\ didViewUpdate v' = false
    /\ _didViewChangeTick v' = _didViewChangeTick v + Z.of_nat (S m)
    /\ _boundsDirty v' = true
    /\ calls v' = calls updated
    /\ notifications (Nat.iter (S n) onViewUpdate v')
       = (notifications updated + if attached v then 1 else 0)%nat.
Proof.
  intros Hpipe updated. unfold collectRenderablesSimple. rewrite Hpipe.
  eexists. split; [reflexivity|].
  split; [done|].
  split; [apply (ViewProps.iter_onViewUpdate_tick (S m) v)|].
  split; [apply ViewProps.onViewUpdate_dirty|].
  split; [done|].
  rewrite ViewProps.iter_onViewUpdate_notifications.
  change (didViewUpdate (set_didViewUpdate false updated)) with false.
  change (attached (set_didViewUpdate false updated)) with (attached updated).
  unfold updated. by rewrite iter_onViewUpdate_attached.
Qed.

Lemma collect_opens_new_frame_witness :
  exists v',
    collectRenderablesSimple MoreSamples.blend_nothing MoreSamples.pipes "dummy" id
                             [] (Nat.iter 3 onViewUpdate Samples.child)
    = MeshPipe.Normal
        (id (MoreSamples.record_uid (Nat.iter 3 onViewUpdate Samples.child)
               (MoreSamples.blend_nothing (Nat.iter 3 onViewUpdate Samples.child) [])),
         v')
    /\ didViewUpdate v' = false
    /\ _didViewChangeTick v' = _didViewChangeTick Samples.child + Z.of_nat 3
    /\ _boundsDirty v' = true
    /\ calls v' = calls (Nat.iter 3 onViewUpdate Samples.child)
    /\ notifications (Nat.iter 2 onViewUpdate v')
       = (notifications (Nat.iter 3 onViewUpdate Samples.child)
          + if attached Samples.child then 1 else 0)%nat.
Proof.
  apply (collect_opens_new_frame MoreSamples.blend_nothing MoreSamples.pipes "dummy" id
           MoreSamples.record_uid [] Samples.child 2 1).
  reflexivity.
Defined.

Example collect_without_pipe :
  collectRenderablesSimple MoreSamples.blend_nothing MoreSamples.pipes "mesh" id
                           [] Samples.child
  = MeshPipe.TypeError.
Proof. reflexivity. Qed.

End RenderPassProps.

(* ===================================================================== *)
(** * Properties of the mesh pipe's book-keeping *)
(* ===================================================================== *)

Module MeshPipeLedgerProps.
Import MeshPipe MeshPipeLedger MeshPipeProps.

Lemma record_at_omap {A : Type} (h : gmap N (option A)) (k : N) :
  omap id h !! k = record_at h k.
Proof. unfold record_at. rewrite lookup_omap. by destruct (h !! k) as [[?|]|]. Qed.

Lemma live_insert_Some {A : Type} (h : gmap N (option A)) (k : N) (a : A) :
  size (omap id (<[k := Some a]> h))
  = match record_at h k with
    | Some _ => size (omap id h)
    | None => S (size (omap id h))
    end.
Proof.
  rewrite (omap_insert_Some id h k (Some a) a eq_refl), map_size_insert.
  rewrite record_at_omap. by destruct (record_at h k).
Qed.

Lemma live_insert_None {A : Type} (h : gmap N (option A)) (k : N) :
  match record_at h k with
  | Some _ => S (size (omap id (<[k := None]> h)))
  | None => size (omap id (<[k := None]> h))
  end = size (omap id h).
Proof.
  rewrite (omap_insert_None id h k None eq_refl), map_size_delete.
  rewrite record_at_omap.
  destruct (record_at h k) as [a|] eqn:E; [|done].
  destruct (size (omap id h)) eqn:Es; [|done].
  apply map_size_empty_inv in Es.
  rewrite <- record_at_omap, Es, lookup_empty in E. done.
Qed.

Lemma destroyedListeners_app (l l' : list Call) :
  destroyedListeners (l ++ l') = fold_left listen_step l' (destroyedListeners l).
Proof. unfold destroyedListeners. by rewrite fold_left_app. Qed.

Lemma accounted_refl (m : N) (p : Pipe) : accounted m p p.
Proof. by repeat split. Qed.

Lemma accounted_trans (m : N) (p q r : Pipe) :
  accounted m p q -> accounted m q r -> accounted m p r.
Proof.
  intros (L1 & B1 & S1) (L2 & B2 & S2). repeat split; [auto|auto|..].
  - destruct (S1 k H), (S2 k H). congruence.
  - destruct (S1 k H), (S2 k H). congruence.
Qed.

Lemma accounted_quiet (m : N) (c : Call) (p : Pipe) :
  is_quiet c = true -> accounted m p (call c p).
Proof.
  intros Hc. split; [|split].
  - intros Hp u. simpl. rewrite destroyedListeners_app. simpl.
    rewrite <- (Hp u). by destruct c.
  - intros k. unfold balanced, liveRecords, poolReturns, poolGets. simpl.
    rewrite !List.filter_app, !length_app. destruct c; simpl in *; (done || lia).
  - by intros k Hk.
Qed.

Lemma accounted_set_batch (m : N) (b : Batcher) (p : Pipe) :
  accounted m p (set_batch b p).
Proof. by repeat split. Qed.

Lemma accounted_write_meshData (mesh : Mesh) (d0 d : MeshData) (p : Pipe) :
  record_at (_meshDataHash p) (uid mesh) = Some d0 ->
  accounted (uid mesh) p (write_meshData mesh d p).
Proof.
  intros Hd. split; [|split].
  - intros Hp u. simpl. rewrite (Hp u).
    destruct (decide (u = uid mesh)) as [->|Hne].
    + by rewrite record_at_insert, Hd.
    + by rewrite record_at_insert_ne.
  - intros k Hb. exact Hb.
  - intros k Hk. simpl. by rewrite record_at_insert_ne.
Qed.

Lemma accounted_write_batchableMesh (mesh : Mesh) (g0 g : BatchableMesh) (p : Pipe) :
  record_at (_gpuBatchableMeshHash p) (uid mesh) = Some g0 ->
  accounted (uid mesh) p (write_batchableMesh mesh g p).
Proof.
  intros Hg. split; [|split].
  - intros Hp u. apply (Hp u).
  - intros k. unfold balanced, liveRecords. simpl.
    by rewrite live_insert_Some, Hg.
  - intros k Hk. simpl. by rewrite record_at_insert_ne.
Qed.

Lemma accounted_getMeshData (mesh : Mesh) (p : Pipe) :
  accounted (uid mesh) p (snd (_getMeshData mesh p))
  /\ record_at (_meshDataHash (snd (_getMeshData mesh p))) (uid mesh)
     = Some (fst (_getMeshData mesh p)).
Proof.
  unfold _getMeshData.
  destruct (record_at (_meshDataHash p) (uid mesh)) as [d|] eqn:Ed; simpl.
  { split; [apply accounted_refl | done]. }
  split; [|apply record_at_insert].
  split; [|split].
  - intros Hp u. simpl. rewrite destroyedListeners_app. simpl.
    destruct (N.eqb_spec u (uid mesh)) as [->|Hne].
    + by rewrite record_at_insert, (Hp (uid mesh)), Ed.
    + by rewrite record_at_insert_ne, (Hp u).
  - intros k. unfold balanced, liveRecords, poolReturns, poolGets. simpl.
    rewrite !List.filter_app, !length_app. simpl. lia.
  - intros k Hk. simpl. by rewrite record_at_insert_ne.
Qed.

Lemma accounted_getBatchableMesh (mesh : Mesh) (p : Pipe) :
  accounted (uid mesh) p (snd (_getBatchableMesh mesh p))
  /\ record_at (_gpuBatchableMeshHash (snd (_getBatchableMesh mesh p))) (uid mesh)
     = Some (fst (_getBatchableMesh mesh p)).
Proof.
  unfold _getBatchableMesh.
  destruct (record_at (_gpuBatchableMeshHash p) (uid mesh)) as [g|] eqn:Eg; simpl.
  { split; [apply accounted_refl | done]. }
  split; [|apply record_at_insert].
  split; [|split].
  - intros Hp u. simpl. rewrite destroyedListeners_app. simpl. apply Hp.
  - intros k. unfold balanced, liveRecords, poolReturns, poolGets. simpl.
    rewrite live_insert_Some, Eg, !List.filter_app, !length_app. simpl. lia.
  - intros k Hk. simpl. by rewrite record_at_insert_ne.
Qed.

Lemma accounted_destroyRenderable (mesh : Mesh) (p : Pipe) :
  accounted (uid mesh) p (destroyRenderable mesh p).
Proof.
  unfold destroyRenderable. split; [|split].
  - intros Hp u. simpl.
    destruct (record_at (_gpuBatchableMeshHash p) (uid mesh)); simpl;
      rewrite ?destroyedListeners_app; simpl;
      (destruct (N.eqb_spec u (uid mesh)) as [->|Hne];
       [by rewrite record_at_insert | by rewrite record_at_insert_ne, (Hp u)]).
  - intros k. unfold balanced, liveRecords, poolReturns, poolGets. simpl.
    pose proof (live_insert_None (_gpuBatchableMeshHash p) (uid mesh)) as Hlive.
    destruct (record_at (_gpuBatchableMeshHash p) (uid mesh)); simpl;
      rewrite !List.filter_app, !length_app; simpl; lia.
  - intros k Hk. simpl.
    destruct (record_at (_gpuBatchableMeshHash p) (uid mesh)); simpl;
      by rewrite ?record_at_insert_ne.
Qed.

Lemma accounted_addRenderable (mesh : Mesh) (instructionSet : InstructionSet) (p : Pipe) :
  accounted (uid mesh) p (fst (addRenderable mesh instructionSet p)).
Proof.
  unfold addRenderable.
  destruct (accounted_getMeshData mesh p) as [Hacc _].
  destruct (_getMeshData mesh p) as [d p1]. simpl in Hacc.
  destruct (md_batched d); simpl.
  - destruct (accounted_getBatchableMesh mesh p1) as [Hacc2 Hrec].
    destruct (_getBatchableMesh mesh p1) as [g p2]. simpl in *.
    destruct (Batcher_addToBatch _ _ _) as [[g' b'] set']. simpl.
    eapply accounted_trans; [exact Hacc|].
    eapply accounted_trans; [exact Hacc2|].
    eapply accounted_trans; [|apply accounted_set_batch].
    eapply accounted_trans; [|by apply accounted_quiet].
    by eapply accounted_write_batchableMesh.
  - eapply accounted_trans; [exact Hacc|].
    eapply accounted_trans; [|apply accounted_set_batch].
    by apply accounted_quiet.
Qed.

Lemma accounted_updateRenderable (mesh : Mesh) (p : Pipe) :
  accounted (uid mesh) p (snd (updateRenderable mesh p)).
Proof.
  unfold updateRenderable. destruct (batched mesh); [|apply accounted_refl].
  destruct (record_at (_gpuBatchableMeshHash p) (uid mesh)) as [g|] eqn:Eg;
    [|apply accounted_refl].
  simpl. destruct (_batcher g); simpl.
  - eapply accounted_trans; [|by apply accounted_quiet].
    by eapply accounted_write_batchableMesh.
  - by eapply accounted_write_batchableMesh.
Qed.

Lemma accounted_validateRenderable check (mesh : Mesh) (p : Pipe) :
  accounted (uid mesh) p (snd (validateRenderable check mesh p)).
Proof.
  unfold validateRenderable.
  destruct (accounted_getMeshData mesh p) as [Hacc Hrec].
  destruct (_getMeshData mesh p) as [d p1]. simpl in Hacc, Hrec.
  pose proof (accounted_write_meshData mesh d (md_set_batched (batched mesh) d) p1 Hrec)
    as Hw.
  assert (Hrec' : record_at (_meshDataHash
                     (write_meshData mesh (md_set_batched (batched mesh) d) p1)) (uid mesh)
                  = Some (md_set_batched (batched mesh) d))
    by apply record_at_insert.
  set (p2 := write_meshData mesh (md_set_batched (batched mesh) d) p1) in *.
  assert (H2 : accounted (uid mesh) p p2) by (by eapply accounted_trans).
  destruct (negb (eqb (md_batched d) (batched mesh))); simpl; [done|].
  destruct (batched mesh); simpl; [|done].
  destruct (sizesDiffer mesh _); simpl.
  { eapply accounted_trans; [exact H2|]. by eapply accounted_write_meshData. }
  destruct (accounted_getBatchableMesh mesh p2) as [Hacc3 Hrec3].
  destruct (_getBatchableMesh mesh p2) as [g p3]. simpl in Hacc3, Hrec3.
  set (g1 := if negb (tex_uid (texture g) =? tex_uid (_texture mesh))%N
             then set_textureMatrixUpdateId (-1) g else g).
  assert (H3 : accounted (uid mesh) p (write_batchableMesh mesh g1 p3)).
  { eapply accounted_trans; [exact H2|].
    eapply accounted_trans; [exact Hacc3|].
    by eapply accounted_write_batchableMesh. }
  destruct (_batcher g1) as [b|]; simpl; [|exact H3].
  destruct (check _ _) as [ok g']. simpl.
  eapply accounted_trans; [exact H3|].
  eapply accounted_trans; [|by apply accounted_quiet].
  eapply accounted_write_batchableMesh. apply record_at_insert.
Qed.

(** X7.  The pipe listens for the destruction of exactly the meshes it holds
    mesh data for, and every operation keeps it so, also when it ends in a
    [TypeError]: mesh data is only ever created together with the
    subscription and dropped together with it. *)
Theorem listeners_follow_mesh_data
    (check : BatchableMesh -> Texture -> bool * BatchableMesh)
    (mesh : Mesh) (instructionSet : InstructionSet) (p : Pipe) :
  listens_while_held p ->
  listens_while_held (snd (validateRenderable check mesh p))
  /\ listens_while_held (fst (addRenderable mesh instructionSet p))
  /\ listens_while_held (destroyRenderable mesh p)
  /\ listens_while_held (snd (updateRenderable mesh p)).
Proof.
  intros Hp.
  split; [by apply (accounted_validateRenderable check mesh p)|].
  split; [by apply (accounted_addRenderable mesh instructionSet p)|].
  split; [by apply (accounted_destroyRenderable mesh p)|].
  by apply (accounted_updateRenderable mesh p).
Qed.

Lemma listeners_follow_mesh_data_witness :
  listens_while_held (snd (validateRenderable Samples.roomy Samples.plane
                             MoreSamples.fresh_pipe))
  /\ listens_while_held (fst (addRenderable Samples.plane [] MoreSamples.fresh_pipe))
  /\ listens_while_held (destroyRenderable Samples.plane MoreSamples.fresh_pipe)
  /\ listens_while_held (snd (updateRenderable Samples.plane MoreSamples.fresh_pipe)).
Proof.
  apply (listeners_follow_mesh_data Samples.roomy Samples.plane []
           MoreSamples.fresh_pipe).
  intros u. reflexivity.
Defined.

(** X8.  Every record taken from the pool is accounted for: the number of live
    batch records plus the number returned to the pool equals the number
    taken (plus those live at the start), before and after every
    operation, also one that ends in a [TypeError].  The pipe neither
    drops a record without returning it nor returns one twice. *)
Theorem pool_records_accounted
    (check : BatchableMesh -> Texture -> bool * BatchableMesh)
    (mesh : Mesh) (instructionSet : InstructionSet) (p : Pipe) (k : nat) :
  balanced p k ->
  balanced (snd (validateRenderable check mesh p)) k
  /\ balanced (fst (addRenderable mesh instructionSet p)) k
  /\ balanced (destroyRenderable mesh p) k
  /\ balanced (snd (updateRenderable mesh p)) k.
Proof.
  intros Hp.
  split; [by apply (accounted_validateRenderable check mesh p)|].
  split; [by apply (accounted_addRenderable mesh instructionSet p)|].
  split; [by apply (accounted_destroyRenderable mesh p)|].
  by apply (accounted_updateRenderable mesh p).
Qed.

Lemma pool_records_accounted_witness :
  balanced (snd (validateRenderable Samples.roomy Samples.plane Samples.pipe)) 1
  /\ balanced (fst (addRenderable Samples.plane [] Samples.pipe)) 1
  /\ balanced (destroyRenderable Samples.plane Samples.pipe) 1
  /\ balanced (snd (updateRenderable Samples.plane Samples.pipe)) 1.
Proof.
  apply (pool_records_accounted Samples.roomy Samples.plane [] Samples.pipe 1).
  by vm_compute.
Defined.

(** X9.  An operation carried out for one mesh leaves the mesh data and the
    batch record of every other mesh as they were, however it ends. *)
Theorem other_meshes_untouched
    (check : BatchableMesh -> Texture -> bool * BatchableMesh)
    (mesh : Mesh) (instructionSet : InstructionSet) (p : Pipe) :
  same_elsewhere (uid mesh) p (snd (validateRenderable check mesh p))
  /\ same_elsewhere (uid mesh) p (fst (addRenderable mesh instructionSet p))
  /\ same_elsewhere (uid mesh) p (destroyRenderable mesh p)
  /\ same_elsewhere (uid mesh) p (snd (updateRenderable mesh p)).
Proof.
  split; [by apply (accounted_validateRenderable check mesh p)|].
  split; [by apply (accounted_addRenderable mesh instructionSet p)|].
  split; [by apply (accounted_destroyRenderable mesh p)|].
  by apply (accounted_updateRenderable mesh p).
Qed.

Lemma validateRenderable_init check (mesh : Mesh) (p : Pipe) :
  validateRenderable check mesh p
  = validateRenderable check mesh (snd (_getMeshData mesh p)).
Proof.
  unfold validateRenderable at 1 2, _getMeshData.
  destruct (record_at (_meshDataHash p) (uid mesh)) as [d|] eqn:Ed; simpl.
  - by rewrite Ed.
  - by rewrite record_at_insert.
Qed.

Lemma getMeshData_in_step (mesh : Mesh) (p : Pipe) :
  record_at (_meshDataHash (snd (_getMeshData mesh p))) (uid mesh)
  = Some (fst (_getMeshData mesh p))
  /\ (record_at (_meshDataHash p) (uid mesh) = None -> in_step mesh (fst (_getMeshData mesh p))).
Proof.
  unfold _getMeshData.
  destruct (record_at (_meshDataHash p) (uid mesh)) as [d|] eqn:Ed; simpl.
  - by split.
  - split; [apply record_at_insert|]. intros _. by split.
Qed.

(** After a call the mesh data carries the eligibility of the mesh; it is
    in step with the mesh altogether when the eligibility on record was
    right before, or nothing was on record. *)
Lemma validateRenderable_records check (mesh : Mesh) (p : Pipe) :
  exists d',
    record_at (_meshDataHash (snd (validateRenderable check mesh p))) (uid mesh) = Some d'
    /\ md_batched d' = batched mesh
    /\ (match record_at (_meshDataHash p) (uid mesh) with
        | Some d => md_batched d = batched mesh
        | None => True
        end -> in_step mesh d').
Proof.
  rewrite validateRenderable_init.
  destruct (getMeshData_in_step mesh p) as [Hrec Hinit].
  destruct (validateRenderable_stored check mesh _ _ Hrec) as [_ Hafter].
  eexists. split; [exact Hafter|].
  set (d := fst (_getMeshData mesh p)) in *.
  destruct (eqb (md_batched d) (batched mesh) && batched mesh && sizesDiffer mesh d)
    eqn:Eall; simpl.
  - apply andb_true_iff in Eall as [Eall _]. apply andb_true_iff in Eall as [_ Hb].
    split; [by rewrite Hb|]. intros _. split; [by rewrite Hb|]. by intros _.
  - split; [done|]. intros Hbefore.
    assert (Hflag : md_batched d = batched mesh).
    { unfold d, _getMeshData in *.
      destruct (record_at (_meshDataHash p) (uid mesh)); [exact Hbefore|done]. }
    split; [done|]. simpl. intros Hb.
    rewrite Hflag, Hb, eqb_reflx in Eall. simpl in Eall.
    unfold sizesDiffer in Eall. apply orb_false_iff in Eall as [Ei Ev].
    apply negb_false_iff, Nat.eqb_eq in Ei. apply negb_false_iff, Nat.eqb_eq in Ev.
    by split.
Qed.

Lemma validateRenderable_in_step check (mesh : Mesh) (p : Pipe) (d : MeshData) :
  record_at (_meshDataHash p) (uid mesh) = Some d ->
  in_step mesh d ->
  fst (validateRenderable check mesh p)
  = if batched mesh
    then match _batcher (checkedRecord mesh p) with
         | Some _ => Normal (negb (fst (check (checkedRecord mesh p) (_texture mesh))))
         | None => TypeError
         end
    else Normal false.
Proof.
  intros Hd [Hflag Hsizes].
  destruct (validateRenderable_stored check mesh p d Hd) as [-> _].
  rewrite Hflag, eqb_reflx. simpl.
  destruct (batched mesh) eqn:Hb; simpl; [|done].
  destruct (Hsizes eq_refl) as [Hi Hv].
  unfold sizesDiffer. by rewrite Hi, Hv, !Nat.eqb_refl.
Qed.

(** X11.  Validation settles.  After two calls of [validateRenderable] for a mesh
    that does not change in between, however they ended, the mesh data on
    record agrees with the mesh.  A further call then never reports stale
    sizes or a stale eligibility: for a mesh that is not batched it returns
    false, and for a batched mesh it is decided by the batch record alone,
    the negated texture check when the record is in a batch and a
    [TypeError] when it is in none. *)
Theorem validateRenderable_settles
    (check : BatchableMesh -> Texture -> bool * BatchableMesh)
    (mesh : Mesh) (p : Pipe) :
  let settled :=
    snd (validateRenderable check mesh (snd (validateRenderable check mesh p))) in
  (exists d, record_at (_meshDataHash settled) (uid mesh) = Some d /\ in_step mesh d)
  /\ fst (validateRenderable check mesh settled)
     = if batched mesh
       then match _batcher (checkedRecord mesh settled) with
            | Some _ =>
                Normal (negb (fst (check (checkedRecord mesh settled) (_texture mesh))))
            | None => TypeError
            end
       else Normal false.
Proof.
  cbv zeta.
  destruct (validateRenderable_records check mesh p) as (d1 & Hd1 & Hflag1 & _).
  destruct (validateRenderable_records check mesh
              (snd (validateRenderable check mesh p))) as (d2 & Hd2 & _ & Hstep).
  rewrite Hd1 in Hstep. specialize (Hstep Hflag1).
  split; [eauto|].
  by apply (validateRenderable_in_step check mesh _ d2).
Qed.


Lemma addRenderable_batched_in (mesh : Mesh) (instructionSet : InstructionSet) (p : Pipe) :
  match record_at (_meshDataHash p) (uid mesh) with
  | Some d => md_batched d = batched mesh
  | None => True
  end ->
  (exists d, record_at (_meshDataHash (fst (addRenderable mesh instructionSet p))) (uid mesh)
             = Some d /\ md_batched d = batched mesh)
  /\ (batched mesh = true -> batched_in mesh (fst (addRenderable mesh instructionSet p))).
Proof.
  intros Hbefore. unfold addRenderable.
  destruct (getMeshData_in_step mesh p) as [Hrec Hinit].
  assert (Hflag : md_batched (fst (_getMeshData mesh p)) = batched mesh).
  { destruct (record_at (_meshDataHash p) (uid mesh)) as [d|] eqn:Ed.
    - by rewrite (getMeshData_stored _ _ _ Ed).
    - by apply Hinit. }
  destruct (_getMeshData mesh p) as [d p1]. simpl in *. rewrite Hflag.
  destruct (batched mesh); simpl.
  - pose proof (getBatchableMesh_meshDataHash mesh p1) as Hhash.
    destruct (_getBatchableMesh mesh p1) as [g p2]. simpl in Hhash.
    pose proof (addToBatch_fields
                  (set_geometry (_geometry mesh) (setTexture (_texture mesh) g))
                  instructionSet (batch p)) as Hadd.
    destruct (Batcher_addToBatch _ _ _) as [[g' b'] set'].
    destruct Hadd as (-> & _). simpl. rewrite Hhash.
    split; [by eexists|]. intros _. unfold batched_in. simpl.
    rewrite record_at_insert. by do 2 eexists.
  - split; [by eexists|]. done.
Qed.

Lemma updateRenderable_batched_in (mesh : Mesh) (p : Pipe) :
  (batched mesh = true -> batched_in mesh p) ->
  fst (updateRenderable mesh p) = Normal tt.
Proof.
  intros Hin. unfold updateRenderable. destruct (batched mesh); [|done].
  destruct (Hin eq_refl) as (g & b & -> & Hb). simpl. by rewrite Hb.
Qed.

Lemma getBatchableMesh_batched_in (mesh : Mesh) (p : Pipe) :
  batched_in mesh p ->
  exists g b, _getBatchableMesh mesh p = (g, p)
              /\ record_at (_gpuBatchableMeshHash p) (uid mesh) = Some g
              /\ _batcher g = Some b.
Proof.
  intros (g & b & Hg & Hb). exists g, b. by rewrite (getBatchableMesh_stored _ _ _ Hg).
Qed.

Section Protocol.
Variable check : BatchableMesh -> Texture -> bool * BatchableMesh.
Hypothesis check_keeps_batcher : forall g t, _batcher (snd (check g t)) = _batcher g.

Lemma validateRenderable_batched_in (mesh : Mesh) (p : Pipe) (d : MeshData) :
  record_at (_meshDataHash p) (uid mesh) = Some d ->
  md_batched d = batched mesh ->
  (batched mesh = true -> batched_in mesh p) ->
  (exists b, fst (validateRenderable check mesh p) = Normal b)
  /\ (batched mesh = true -> batched_in mesh (snd (validateRenderable check mesh p))).
Proof.
  intros Hd Hflag Hin. unfold validateRenderable.
  rewrite (getMeshData_stored _ _ _ Hd), Hflag, eqb_reflx. simpl.
  destruct (batched mesh) eqn:Hb; simpl; [|split; [by eexists|done]].
  specialize (Hin eq_refl).
  destruct (sizesDiffer mesh _); simpl.
  { split; [by eexists|]. intros _. exact Hin. }
  destruct (getBatchableMesh_batched_in mesh
              (write_meshData mesh (md_set_batched true d) p) Hin)
    as (g & b & -> & Hg & Hbatcher).
  set (g1 := if negb (tex_uid (texture g) =? tex_uid (_texture mesh))%N
             then set_textureMatrixUpdateId (-1) g else g).
  assert (Hb1 : _batcher g1 = Some b) by (unfold g1; by destruct (negb _)).
  rewrite Hb1. pose proof (check_keeps_batcher g1 (_texture mesh)) as Hkeep.
  destruct (check g1 (_texture mesh)) as [ok g']. simpl in *.
  split; [by eexists|]. intros _. unfold batched_in. simpl.
  rewrite record_at_insert. exists g', b. split; [done|]. congruence.
Qed.

(** X10.  The order in which a render group drives the pipe is safe.  Once
    [addRenderable] has placed a mesh (with the eligibility on record, if
    any, being that of the mesh), the calls that follow for the same mesh
    with the same eligibility, whatever else of it has changed, do not
    fail: [updateRenderable] completes, [validateRenderable] returns a
    boolean, and [updateRenderable] completes after that validation too.
    The batch record of a batched mesh is in the batch it was added to,
    and a texture check that leaves [_batcher] alone keeps it there. *)
Theorem update_after_add_completes
    (mesh later : Mesh) (instructionSet : InstructionSet) (p : Pipe) :
  match record_at (_meshDataHash p) (uid mesh) with
  | Some d => md_batched d = batched mesh
  | None => True
  end ->
  uid later = uid mesh ->
  batched later = batched mesh ->
  let added := fst (addRenderable mesh instructionSet p) in
  fst (updateRenderable later added) = Normal tt
  /\ (exists b, fst (validateRenderable check later added) = Normal b)
  /\ fst (updateRenderable later (snd (validateRenderable check later added)))
     = Normal tt.
Proof.
  intros Hbefore Huid Hbatched added.
  destruct (addRenderable_batched_in mesh instructionSet p Hbefore)
    as [(d & Hd & Hflag) Hin].
  fold added in Hd, Hin.
  assert (Hin' : batched later = true -> batched_in later added).
  { rewrite Hbatched. intros Hb. unfold batched_in. rewrite Huid. by apply Hin. }
  rewrite <- Huid in Hd. rewrite <- Hbatched in Hflag.
  destruct (validateRenderable_batched_in later added d Hd Hflag Hin') as [Hres Hin2].
  split; [by apply updateRenderable_batched_in|].
  split; [exact Hres|]. by apply updateRenderable_batched_in.
Qed.
End Protocol.

Lemma roomy_keeps_batcher (g : BatchableMesh) (t : Texture) :
  _batcher (snd (Samples.roomy g t)) = _batcher g.
Proof. done. Qed.

Lemma update_after_add_completes_witness :
  let added := fst (addRenderable Samples.plane [] Samples.pipe) in
  fst (updateRenderable Samples.plane added) = Normal tt
  /\ (exists b, fst (validateRenderable Samples.roomy Samples.plane added) = Normal b)
  /\ fst (updateRenderable Samples.plane
            (snd (validateRenderable Samples.roomy Samples.plane added)))
     = Normal tt.
Proof.
  apply (update_after_add_completes Samples.roomy roomy_keeps_batcher
           Samples.plane Samples.plane [] Samples.pipe); reflexivity.
Defined.

End MeshPipeLedgerProps.

(* ===================================================================== *)
(** * Properties of generateLayoutHash *)
(* ===================================================================== *)

Module LayoutProps.
Import Layout.

Lemma at_index_set_index (layout : ProgramLayout) (i j : nat) (e : gmap string N) :
  at_index (set_index layout i e) j
  = if decide (j = i) then Some e else at_index layout j.
Proof.
  unfold at_index, set_index.
  destruct (Nat.ltb_spec i (length layout)) as [Hlt|Hge].
  - destruct (decide (j = i)) as [->|Hne].
    + by rewrite list_lookup_insert_eq.
    + by rewrite list_lookup_insert_ne.
  - destruct (decide (j = i)) as [->|Hne].
    + rewrite lookup_app_r by lia.
      rewrite lookup_app_r by (rewrite length_replicate; lia).
      rewrite length_replicate.
      by replace (i - length layout - (i - length layout))%nat with 0%nat by lia.
    + destruct (Nat.ltb_spec j (length layout)) as [Hj|Hj].
      * by rewrite lookup_app_l.
      * rewrite lookup_app_r by lia.
        rewrite (lookup_ge_None_2 layout j) by lia. simpl.
        destruct (Nat.ltb_spec (j - length layout) (i - length layout)) as [Hk|Hk].
        -- rewrite lookup_app_l by (rewrite length_replicate; lia).
           by rewrite lookup_replicate_2.
        -- rewrite lookup_app_r by (rewrite length_replicate; lia).
           rewrite length_replicate.
           destruct (j - length layout - (i - length layout))%nat eqn:E; [lia|done].
Qed.

Lemma length_set_index (layout : ProgramLayout) (i : nat) (e : gmap string N) :
  length (set_index layout i e) = Nat.max (S i) (length layout).
Proof.
  unfold set_index. destruct (Nat.ltb_spec i (length layout)).
  - rewrite length_insert. lia.
  - rewrite !length_app, length_replicate. simpl. lia.
Qed.

Lemma generateLayoutHash_snoc (groups : list Group) (g : Group) :
  generateLayoutHash (groups ++ [g]) = add_group (generateLayoutHash groups) g.
Proof. unfold generateLayoutHash. by rewrite fold_left_app. Qed.

Lemma binding_of_add_group (layout : ProgramLayout) (g : Group) (i : nat) (n : string) :
  n ≠ "__proto__" ->
  binding_of (add_group layout g) i n
  = if decide (declares i n g) then Some (binding g) else binding_of layout i n.
Proof.
  intros Hproto. unfold binding_of, add_group, assign.
  rewrite at_index_set_index.
  destruct (decide (declares i n g)) as [[<- <-]|Hd].
  - rewrite decide_True by done. simpl.
    rewrite decide_False by done. by rewrite lookup_insert_eq.
  - destruct (decide (i = group g)) as [->|Hi]; simpl; [|done].
    assert (Hn : name g ≠ n) by (intros E; apply Hd; by split).
    destruct (decide (name g = "__proto__")).
    + by destruct (at_index layout (group g)).
    + rewrite lookup_insert_ne by done.
      by destruct (at_index layout (group g)).
Qed.

Lemma binding_of_proto_add_group (layout : ProgramLayout) (g : Group) (i : nat) :
  binding_of layout i "__proto__" = None ->
  binding_of (add_group layout g) i "__proto__" = None.
Proof.
  unfold binding_of, add_group, assign. rewrite at_index_set_index.
  destruct (decide (i = group g)) as [->|Hi]; simpl; [|done].
  destruct (decide (name g = "__proto__")) as [E|E].
  - by destruct (at_index layout (group g)).
  - rewrite lookup_insert_ne by done. by destruct (at_index layout (group g)).
Qed.

Lemma at_index_add_group (layout : ProgramLayout) (g : Group) (i : nat) :
  is_Some (at_index (add_group layout g) i)
  <-> group g = i \/ is_Some (at_index layout i).
Proof.
  unfold add_group. rewrite at_index_set_index.
  destruct (decide (i = group g)) as [->|Hne].
  - split; [by left | intros _; by eexists].
  - split; [by right | intros [?|?]; [congruence | done]].
Qed.

Lemma extent_snoc (groups : list Group) (g : Group) :
  extent (groups ++ [g]) = Nat.max (S (group g)) (extent groups).
Proof.
  unfold extent. induction groups as [|g' groups IH]; simpl; [lia|].
  rewrite IH. lia.
Qed.

(** X13.  Which own properties the objects of the generated layout have is
    decided by the declarations.  Under a name [n] other than [__proto__],
    [layout[i]] holds nothing when no declaration is for bind group [i] and
    name [n], and the binding of the last of them otherwise (a later
    declaration overwrites an earlier one).  Under the name [__proto__]
    nothing is ever stored, whatever is declared. *)
Theorem layout_holds_last_declaration
    (groups before after : list Group) (g : Group) (i : nat) (n : string) :
  n ≠ "__proto__" ->
  name g ≠ "__proto__" ->
  Forall (fun g' => ~ declares (group g) (name g) g') after ->
  (binding_of (generateLayoutHash groups) i n = None
   <-> Forall (fun g' => ~ declares i n g') groups)
  /\ binding_of (generateLayoutHash (before ++ g :: after)) (group g) (name g)
     = Some (binding g)
  /\ binding_of (generateLayoutHash groups) i "__proto__" = None.
Proof.
  intros Hn Hg Hafter. split; [|split].
  - induction groups as [|g' groups IH] using rev_ind; [done|].
    rewrite generateLayoutHash_snoc, binding_of_add_group by done.
    rewrite Forall_app, Forall_singleton.
    destruct (decide (declares i n g')) as [Hd|Hd].
    + split; [done | intros [_ ?]; done].
    + rewrite IH. split; [by intros ? | by intros [? _]].
  - induction after as [|g' after IH] using rev_ind.
    + rewrite generateLayoutHash_snoc, binding_of_add_group by done.
      by rewrite decide_True.
    + apply Forall_app in Hafter as [Hafter Hg'].
      rewrite Forall_singleton in Hg'.
      replace (before ++ g :: after ++ [g']) with ((before ++ g :: after) ++ [g'])
        by (by rewrite <- app_assoc).
      rewrite generateLayoutHash_snoc, binding_of_add_group by done.
      rewrite decide_False by done. by apply IH.
  - induction groups as [|g' groups IH] using rev_ind; [done|].
    rewrite generateLayoutHash_snoc. by apply binding_of_proto_add_group.
Qed.

Lemma layout_holds_last_declaration_witness :
  (binding_of (generateLayoutHash sample_groups) 1 "uTexture" = None
   <-> Forall (fun g' => ~ declares 1 "uTexture" g') sample_groups)
  /\ binding_of (generateLayoutHash
                  ([mkGroup 0 "uTexture" 1]
                     ++ mkGroup 0 "uTexture" 3 :: [mkGroup 2 "uSampler" 0]))
                (group (mkGroup 0 "uTexture" 3)) (name (mkGroup 0 "uTexture" 3))
     = Some (binding (mkGroup 0 "uTexture" 3))
  /\ binding_of (generateLayoutHash sample_groups) 1 "__proto__" = None.
Proof.
  apply (layout_holds_last_declaration sample_groups
           [mkGroup 0 "uTexture" 1] [mkGroup 2 "uSampler" 0]
           (mkGroup 0 "uTexture" 3) 1 "uTexture"); [discriminate..|].
  repeat constructor. simpl. intros [Hgroup _]. discriminate Hgroup.
Defined.

Example layout_ignores_proto :
  generateLayoutHash [mkGroup 0 "__proto__" 1; mkGroup 0 "uTexture" 2]
  = [Some (<["uTexture" := 2%N]> ∅)].
Proof. by vm_compute. Qed.

(** X14.  The generated array is as long as the largest bind group requires, and
    it has an object exactly at the indices some declaration names; the
    indices in between are holes. *)
Theorem layout_extent_and_holes (groups : list Group) (i : nat) :
  length (generateLayoutHash groups) = extent groups
  /\ (is_Some (at_index (generateLayoutHash groups) i)
      <-> exists g, g ∈ groups /\ group g = i).
Proof.
  induction groups as [|g groups [IHlen IHat]] using rev_ind.
  - split; [done|]. split; [by intros [? ?] | intros (g & Hg & _)].
    by apply elem_of_nil in Hg.
  - rewrite generateLayoutHash_snoc, extent_snoc. split.
    + unfold add_group. by rewrite length_set_index, IHlen.
    + rewrite at_index_add_group, IHat. split.
      * intros [Hg|(g' & Hin & Hg')].
        -- exists g. split; [|done]. apply elem_of_app. right. by apply list_elem_of_singleton.
        -- exists g'. split; [|done]. apply elem_of_app. by left.
      * intros (g' & Hin & Hg'). apply elem_of_app in Hin as [Hin|Hin].
        -- right. by exists g'.
        -- apply list_elem_of_singleton in Hin as ->. by left.
Qed.

Example layout_of_sample :
  generateLayoutHash sample_groups
  = [Some (<["uTexture" := 3%N]> ∅); None; Some (<["uSampler" := 0%N]> ∅)].
Proof. by vm_compute. Qed.

End LayoutProps.

(* ===================================================================== *)
(** * Properties of the EventSystem *)
(* ===================================================================== *)

Module EventsProps.
Import Events.

Lemma setCursor_current (mode : option string) (s : EventSystem) :
  _currentCursor (after (setCursor mode s)) = Some (cursorMode mode).
Proof.
  unfold setCursor. fold (cursorMode mode).
  destruct (decide (_currentCursor s = Some (cursorMode mode))) as [E|E]; [done|].
  simpl. destruct (cursorStyles s !! cursorMode mode) as [[css|f|css]|]; simpl.
  - destruct (decide (css = "")); [done|].
    by destruct (domElement s) as [[? [|]]|].
  - done.
  - by destruct (domElement s) as [[? [|]]|].
  - destruct (Object_prototype !! cursorMode mode) as [[[|]|]|]; simpl; try done;
      by destruct (domElement s) as [[? [|]]|].
Qed.

(** X15.  Asking for the cursor that is already current does nothing: whatever
    the first [setCursor(mode)] did (even if it failed for want of a target
    element), a second call with the same mode returns at the guard and
    leaves the system as it is.  An empty or missing mode counts as
    ["default"]. *)
Theorem setCursor_settles (mode : option string) (s : EventSystem) :
  setCursor mode (after (setCursor mode s)) = Done (after (setCursor mode s))
  /\ setCursor (Some (cursorMode mode)) s = setCursor mode s.
Proof.
  split.
  - pose proof (setCursor_current mode s) as Hc.
    unfold setCursor at 1. fold (cursorMode mode).
    by rewrite decide_True.
  - unfold setCursor. fold (cursorMode mode).
    assert (E : (if decide (cursorMode mode = "") then "default" else cursorMode mode)
                = cursorMode mode).
    { unfold cursorMode. destruct mode as [m|]; [|done].
      destruct (decide (m = "")); [done|]. by rewrite decide_False. }
    by rewrite E.
Qed.

Lemma style_of_set_style (e : Element) (property value : string) (s : EventSystem) :
  style_of (set_style e property value s) e = <[property := value]> (style_of s e).
Proof. unfold style_of, set_style. simpl. by rewrite lookup_insert_eq. Qed.

(** X16.  On an HTML element, changing the cursor mode to [m] assigns the CSS
    [cursor] the string registered for [m], or [m] itself when nothing is
    registered and [m] is not a name that [cursorStyles] inherits; a
    registered callback is called with [m], and a registered declaration
    is assigned to the style as a whole.  A mode registered with the empty
    string assigns nothing.  All of these complete.  A mode that is an
    inherited name and not registered assigns nothing either, and fails
    exactly when the inherited function does. *)
Theorem setCursor_applies_style (m : string) (e : Element) (s : EventSystem) :
  domElement s = Some e ->
  offscreen e = false ->
  m ≠ "" ->
  _currentCursor s ≠ Some m ->
  let s' := after (setCursor (Some m) s) in
  let completes := setCursor (Some m) s = Done s' in
  match cursorStyles s !! m with
  | Some (CursorCss css) =>
      completes
      /\ styleWrites s'
         = styleWrites s
           ++ (if decide (css = "") then []
               else [WriteProperty (element_id e) "cursor" css])
      /\ calls s' = calls s
  | Some (CursorFunction f) =>
      completes
      /\ styleWrites s' = styleWrites s
      /\ calls s' = calls s ++ [CallCursorFunction f m]
  | Some (CursorDeclaration css) =>
      completes
      /\ styleWrites s' = styleWrites s ++ [WriteDeclaration (element_id e) css]
      /\ calls s' = calls s
  | None =>
      match Object_prototype !! m with
      | None =>
          completes
          /\ styleWrites s' = styleWrites s ++ [WriteProperty (element_id e) "cursor" m]
          /\ calls s' = calls s
      | Some inherited =>
          (completes <-> inherited ≠ InheritedFunction true)
          /\ styleWrites s' = styleWrites s
          /\ calls s' = calls s
      end
  end.
Proof.
  intros He Hoff Hm Hcur. cbv zeta. unfold setCursor.
  destruct (decide (m = "")); [done|].
  destruct (decide (_currentCursor s = Some m)); [done|].
  simpl. rewrite He, Hoff. simpl.
  destruct (cursorStyles s !! m) as [[css|f|css]|]; simpl.
  - by destruct (decide (css = "")); simpl; rewrite ?app_nil_r.
  - done.
  - done.
  - destruct (Object_prototype !! m) as [[[|]|]|]; simpl;
      rewrite ?app_nil_r; intuition congruence.
Qed.

Lemma setCursor_applies_style_witness :
  let s := set_domElement (Some canvas) idle in
  (setCursor (Some "grab") s = Done (after (setCursor (Some "grab") s))
   /\ styleWrites (after (setCursor (Some "grab") s))
      = styleWrites s ++ [WriteProperty (element_id canvas) "cursor" "grab"]
   /\ calls (after (setCursor (Some "grab") s)) = calls s)
  /\ (setCursor (Some "pointer") s = Done (after (setCursor (Some "pointer") s))
      /\ styleWrites (after (setCursor (Some "pointer") s))
         = styleWrites s ++ [WriteProperty (element_id canvas) "cursor" "pointer"]
      /\ calls (after (setCursor (Some "pointer") s)) = calls s)
  /\ ((setCursor (Some "valueOf") s = Done (after (setCursor (Some "valueOf") s))
       <-> InheritedFunction true ≠ InheritedFunction true)
      /\ styleWrites (after (setCursor (Some "valueOf") s)) = styleWrites s
      /\ calls (after (setCursor (Some "valueOf") s)) = calls s).
Proof.
  split; [|split].
  - apply (setCursor_applies_style "grab" canvas (set_domElement (Some canvas) idle));
      (reflexivity || discriminate).
  - apply (setCursor_applies_style "pointer" canvas (set_domElement (Some canvas) idle));
      (reflexivity || discriminate).
  - apply (setCursor_applies_style "valueOf" canvas (set_domElement (Some canvas) idle));
      (reflexivity || discriminate).
Defined.

(** X17.  With an offscreen canvas as target, changing the cursor mode assigns
    no style at all; a registered callback is still called, and it is the
    only call.  The change fails only for a mode that is not registered
    and names an inherited function that fails when called bare, such as
    [hasOwnProperty]. *)
Theorem setCursor_without_style (mode : option string) (e : Element) (s : EventSystem) :
  domElement s = Some e ->
  offscreen e = true ->
  _currentCursor s ≠ Some (cursorMode mode) ->
  let s' := after (setCursor mode s) in
  styleWrites s' = styleWrites s
  /\ styles s' = styles s
  /\ calls s'
     = calls s
       ++ match cursorStyles s !! cursorMode mode with
          | Some (CursorFunction f) => [CallCursorFunction f (cursorMode mode)]
          | _ => []
          end
  /\ (setCursor mode s = Thrown s'
      <-> cursorStyles s !! cursorMode mode = None
          /\ Object_prototype !! cursorMode mode = Some (InheritedFunction true)).
Proof.
  intros He Hoff Hcur. cbv zeta. unfold setCursor. fold (cursorMode mode).
  destruct (decide (_currentCursor s = Some (cursorMode mode))); [done|].
  simpl. rewrite He, Hoff. simpl.
  destruct (cursorStyles s !! cursorMode mode) as [[css|f|css]|]; simpl.
  - destruct (decide (css = "")); simpl; rewrite app_nil_r; intuition congruence.
  - intuition congruence.
  - rewrite app_nil_r. intuition congruence.
  - rewrite app_nil_r.
    destruct (Object_prototype !! cursorMode mode) as [[[|]|]|]; simpl;
      intuition congruence.
Qed.

Lemma setCursor_without_style_witness :
  let s := set_domElement (Some worker_canvas) idle in
  let failed := after (setCursor (Some "hasOwnProperty") s) in
  let changed := after (setCursor (Some "pointer") s) in
  (styleWrites failed = styleWrites s
   /\ styles failed = styles s
   /\ calls failed = calls s ++ []
   /\ (setCursor (Some "hasOwnProperty") s = Thrown failed
       <-> cursorStyles s !! "hasOwnProperty" = None
           /\ Object_prototype !! "hasOwnProperty" = Some (InheritedFunction true)))
  /\ (styleWrites changed = styleWrites s
      /\ styles changed = styles s
      /\ calls changed = calls s ++ []
      /\ (setCursor (Some "pointer") s = Thrown changed
          <-> cursorStyles s !! "pointer" = None
              /\ Object_prototype !! "pointer" = Some (InheritedFunction true))).
Proof.
  split.
  - apply (setCursor_without_style (Some "hasOwnProperty") worker_canvas
             (set_domElement (Some worker_canvas) idle)); (reflexivity || discriminate).
  - apply (setCursor_without_style (Some "pointer") worker_canvas
             (set_domElement (Some worker_canvas) idle)); (reflexivity || discriminate).
Defined.

Example setCursor_inherited_name_throws :
  setCursor (Some "hasOwnProperty") (set_domElement (Some canvas) idle)
  = Thrown (set_currentCursor (Some "hasOwnProperty")
              (set_domElement (Some canvas) idle)).
Proof. reflexivity. Qed.

Example setCursor_without_target_throws :
  setCursor (Some "grab") idle = Thrown (set_currentCursor (Some "grab") idle).
Proof. reflexivity. Qed.

Lemma add_all_fresh (ls base : list Listener) :
  NoDup ls -> (forall l, l ∈ ls -> l ∉ base) ->
  fold_left (fun acc l => addEventListener l acc) ls base = base ++ ls.
Proof.
  revert base. induction ls as [|l ls IH]; intros base Hnd Hfresh; simpl.
  - by rewrite app_nil_r.
  - apply NoDup_cons in Hnd as [Hl Hnd].
    unfold addEventListener at 2.
    rewrite decide_False by (apply Hfresh; left).
    rewrite IH; [by rewrite <- app_assoc | done |].
    intros l' Hl' Hin. apply elem_of_app in Hin as [Hin|Hin].
    + apply (Hfresh l'); [by right | done].
    + apply list_elem_of_singleton in Hin as ->. done.
Qed.

Lemma remove_all_filter (ls xs : list Listener) :
  fold_left (fun acc l => removeEventListener l acc) ls xs
  = filter (fun x => x ∉ ls) xs.
Proof.
  revert xs. induction ls as [|l ls IH]; intros xs; simpl.
  - induction xs as [|x xs IHxs]; [done|].
    rewrite filter_cons_True by apply not_elem_of_nil. by rewrite <- IHxs.
  - rewrite IH. unfold removeEventListener.
    induction xs as [|x xs IHxs]; [done|].
    destruct (decide (x = l)) as [->|Hne].
    + rewrite (filter_cons_False _ l) by (intros H; by apply H).
      rewrite (filter_cons_False _ l) by (intros H; apply H; left).
      apply IHxs.
    + rewrite (filter_cons_True (fun l' => l' ≠ l)) by done.
      destruct (decide (x ∈ ls)) as [Hin|Hin].
      * rewrite filter_cons_False by (intros H; by apply H).
        rewrite filter_cons_False by (intros H; apply H; by right).
        apply IHxs.
      * rewrite filter_cons_True by done.
        rewrite (filter_cons_True (fun x0 => x0 ∉ l :: ls))
          by (intros H; apply elem_of_cons in H as [?|?]; done).
        by rewrite IHxs.
Qed.

Lemma remove_all_self (ls : list Listener) :
  fold_left (fun acc l => removeEventListener l acc) ls ls = [].
Proof.
  rewrite remove_all_filter.
  assert (H : forall xs, (forall x, x ∈ xs -> x ∈ ls) -> filter (fun x => x ∉ ls) xs = []).
  { induction xs as [|x xs IH]; intros Hsub; [done|].
    rewrite filter_cons_False by (intros H; apply H, Hsub; left).
    apply IH. intros y Hy. apply Hsub. by right. }
  by apply H.
Qed.

Lemma wantedListeners_NoDup (s : EventSystem) (e : N) : NoDup (wantedListeners s e).
Proof.
  unfold wantedListeners, pointerListeners.
  destruct (supportsPointerEvents s), (supportsTouchEvents s); simpl;
    repeat (apply NoDup_cons; split;
            [rewrite ?elem_of_cons, elem_of_nil; intros H;
             repeat (destruct H as [H|H]; [discriminate H|]); done |]);
    apply NoDup_nil_2.
Qed.

Lemma wantedListeners_env (s s' : EventSystem) (n : N) :
  supportsPointerEvents s' = supportsPointerEvents s ->
  supportsTouchEvents s' = supportsTouchEvents s ->
  wantedListeners s' n = wantedListeners s n.
Proof. unfold wantedListeners, pointerListeners. by intros -> ->. Qed.

Lemma touch_styles_fields (value : string) (e : Element) (s : EventSystem) :
  listeners (touch_styles value e s) = listeners s
  /\ domElement (touch_styles value e s) = domElement s
  /\ _eventsAdded (touch_styles value e s) = _eventsAdded s
  /\ calls (touch_styles value e s) = calls s
  /\ supportsPointerEvents (touch_styles value e s) = supportsPointerEvents s
  /\ supportsTouchEvents (touch_styles value e s) = supportsTouchEvents s
  /\ msPointerEnabled (touch_styles value e s) = msPointerEnabled s.
Proof.
  unfold touch_styles.
  destruct (offscreen e); [done|].
  destruct (msPointerEnabled s) eqn:Em; [done|].
  by destruct (supportsPointerEvents s) eqn:Ep.
Qed.

Lemma removeEvents_env (s : EventSystem) :
  supportsPointerEvents (_removeEvents s) = supportsPointerEvents s
  /\ supportsTouchEvents (_removeEvents s) = supportsTouchEvents s.
Proof.
  unfold _removeEvents. destruct (domElement s) as [e|]; [|done].
  destruct (_eventsAdded s); simpl; [|done].
  by destruct (touch_styles_fields "" e (call CallRemoveTickerListener s))
    as (_ & _ & _ & _ & -> & -> & _).
Qed.

Lemma addEvents_env (s : EventSystem) :
  supportsPointerEvents (_addEvents s) = supportsPointerEvents s
  /\ supportsTouchEvents (_addEvents s) = supportsTouchEvents s.
Proof.
  unfold _addEvents. destruct (domElement s) as [e|]; [|done].
  destruct (_eventsAdded s); simpl; [done|].
  by destruct (touch_styles_fields "none" e (call CallAddTickerListener s))
    as (_ & _ & _ & _ & -> & -> & _).
Qed.

Lemma setTargetElement_env (x : option Element) (s : EventSystem) (n : N) :
  wantedListeners (setTargetElement x s) n = wantedListeners s n.
Proof.
  apply wantedListeners_env; unfold setTargetElement.
  - destruct (addEvents_env (set_ticker_domElement x (set_domElement x (_removeEvents s))))
      as [-> _]. simpl. apply removeEvents_env.
  - destruct (addEvents_env (set_ticker_domElement x (set_domElement x (_removeEvents s))))
      as [_ ->]. simpl. apply removeEvents_env.
Qed.

Lemma removeEvents_tidy (s : EventSystem) :
  tidy s ->
  listeners (_removeEvents s) = [] /\ _eventsAdded (_removeEvents s) = false.
Proof.
  intros [Hl Hadded]. unfold _removeEvents.
  destruct (domElement s) as [e|] eqn:He.
  - destruct (_eventsAdded s) eqn:Ha; simpl; [|by rewrite Ha].
    split; [|done].
    destruct (touch_styles_fields "" e (call CallRemoveTickerListener s))
      as (-> & _ & _ & _ & Hp & Ht & _).
    rewrite (wantedListeners_env s _ _ Hp Ht). simpl.
    rewrite Hl. apply remove_all_self.
  - split; [done|]. by apply Hadded.
Qed.

Lemma setTargetElement_fields (x : option Element) (s : EventSystem) :
  tidy s ->
  domElement (setTargetElement x s) = x
  /\ listeners (setTargetElement x s)
     = match x with Some e => wantedListeners s (element_id e) | None => [] end
  /\ _eventsAdded (setTargetElement x s)
     = match x with Some _ => true | None => false end.
Proof.
  intros Hs. destruct (removeEvents_tidy s Hs) as (Hl & Ha).
  unfold setTargetElement, _addEvents. simpl. rewrite Ha.
  destruct x as [e|]; simpl; [|done].
  match goal with
  | |- context [touch_styles "none" e ?s0] =>
      destruct (touch_styles_fields "none" e s0) as (Hl' & Hd' & _ & _ & Hp & Ht & _);
      rewrite Hl', Hd', (wantedListeners_env s0 _ _ Hp Ht)
  end.
  simpl. rewrite Hl.
  rewrite add_all_fresh; [| apply wantedListeners_NoDup | intros l _; apply not_elem_of_nil].
  repeat split. simpl.
  apply wantedListeners_env; simpl; apply removeEvents_env.
Qed.

(** X18.  The system never leaks a listener.  If the registered listeners are
    exactly those wanted for the current target, they still are after
    [setTargetElement]: the new target (if any) has the full set, the old
    one has none, and after [destroy] nothing is registered. *)
Theorem setTargetElement_keeps_listeners_tidy (element : option Element) (s : EventSystem) :
  tidy s ->
  tidy (setTargetElement element s)
  /\ domElement (setTargetElement element s) = element
  /\ listeners (setTargetElement element s)
     = match element with
       | Some e => wantedListeners s (element_id e)
       | None => []
       end
  /\ listeners (destroy s) = []
  /\ domElement (destroy s) = None.
Proof.
  intros Hs.
  destruct (setTargetElement_fields element s Hs) as (Hd & Hls & Hadded).
  split; [|split; [done|split; [done|]]].
  - split.
    + rewrite Hd, Hls, Hadded. destruct element as [e|]; [|done].
      by rewrite setTargetElement_env.
    + rewrite Hd, Hadded. by destruct element.
  - destruct (setTargetElement_fields None s Hs) as (Hd0 & Hl0 & _). by unfold destroy.
Qed.

Lemma setTargetElement_keeps_listeners_tidy_witness :
  tidy (setTargetElement (Some canvas) idle)
  /\ domElement (setTargetElement (Some canvas) idle) = Some canvas
  /\ listeners (setTargetElement (Some canvas) idle)
     = wantedListeners idle (element_id canvas)
  /\ listeners (destroy idle) = []
  /\ domElement (destroy idle) = None.
Proof.
  apply (setTargetElement_keeps_listeners_tidy (Some canvas) idle).
  split; reflexivity.
Defined.

Lemma touch_styles_applied (value : string) (e : Element) (s : EventSystem) :
  offscreen e = false -> msPointerEnabled s = false -> supportsPointerEvents s = true ->
  style_of (touch_styles value e s) e !! "touchAction" = Some value.
Proof.
  intros Hoff Hms Hp. unfold touch_styles. rewrite Hoff, Hms, Hp.
  rewrite style_of_set_style. apply lookup_insert_eq.
Qed.

Lemma addEvents_effect (e : Element) (s : EventSystem) :
  domElement s = Some e -> _eventsAdded s = false ->
  calls (_addEvents s) = calls s ++ [CallAddTickerListener]
  /\ styles (_addEvents s) = styles (touch_styles "none" e (call CallAddTickerListener s))
  /\ msPointerEnabled (_addEvents s) = msPointerEnabled s.
Proof.
  intros He Ha. unfold _addEvents. rewrite He, Ha. simpl.
  by destruct (touch_styles_fields "none" e (call CallAddTickerListener s))
    as (_ & _ & _ & -> & _ & _ & ->).
Qed.

Lemma removeEvents_effect (e : Element) (s : EventSystem) :
  domElement s = Some e -> _eventsAdded s = true ->
  calls (_removeEvents s) = calls s ++ [CallRemoveTickerListener]
  /\ styles (_removeEvents s) = styles (touch_styles "" e (call CallRemoveTickerListener s)).
Proof.
  intros He Ha. unfold _removeEvents. rewrite He, Ha. simpl.
  by destruct (touch_styles_fields "" e (call CallRemoveTickerListener s))
    as (_ & _ & _ & -> & _).
Qed.

Lemma style_of_styles (s s' : EventSystem) (e : Element) :
  styles s' = styles s -> style_of s' e = style_of s e.
Proof. unfold style_of. by intros ->. Qed.

(** X19.  Attaching to an HTML element and detaching again leaves no listener
    and no ticker subscription behind, but it does not restore the
    element's [touch-action]: the style is ["none"] while attached and
    the empty string afterwards, whatever it was before. *)
Theorem attach_detach_round_trip (e : Element) (s : EventSystem) :
  tidy s ->
  domElement s = None ->
  offscreen e = false ->
  msPointerEnabled s = false ->
  supportsPointerEvents s = true ->
  let attached := setTargetElement (Some e) s in
  let detached := setTargetElement None attached in
  listeners detached = listeners s
  /\ _eventsAdded detached = false
  /\ domElement detached = None
  /\ calls detached = calls s ++ [CallAddTickerListener; CallRemoveTickerListener]
  /\ style_of attached e !! "touchAction" = Some "none"
  /\ style_of detached e !! "touchAction" = Some "".
Proof.
  intros Hs Hnone Hoff Hms Hp attached detached.
  destruct (setTargetElement_fields (Some e) s Hs) as (Hd & Hls & Hadded).
  fold attached in Hd, Hls, Hadded.
  assert (Htidy : tidy attached).
  { split.
    - rewrite Hd, Hls, Hadded. unfold attached. by rewrite setTargetElement_env.
    - by rewrite Hd. }
  destruct (setTargetElement_fields None attached Htidy) as (Hd2 & Hls2 & Hadded2).
  fold detached in Hd2, Hls2, Hadded2.
  destruct Hs as [Hl0 Ha0]. rewrite Hnone in Hl0.
  assert (Ha : _eventsAdded s = false) by (by apply Ha0).
  split; [by rewrite Hl0|]. split; [done|]. split; [done|].
  assert (Hrem : _removeEvents s = s) by (unfold _removeEvents; by rewrite Hnone).
  set (s1 := set_ticker_domElement (Some e) (set_domElement (Some e) s)).
  assert (Hatt : attached = _addEvents s1)
    by (unfold attached, setTargetElement; by rewrite Hrem).
  destruct (addEvents_effect e s1 eq_refl Ha) as (Hc1 & Hs1 & Hm1).
  rewrite <- Hatt in Hc1, Hs1, Hm1.
  destruct (removeEvents_effect e attached Hd Hadded) as (Hc2 & Hs2).
  set (s2 := set_ticker_domElement None (set_domElement None (_removeEvents attached))).
  assert (Hdet : detached = s2) by done.
  assert (Hp1 : supportsPointerEvents attached = true).
  { rewrite Hatt. by destruct (addEvents_env s1) as [-> _]. }
  split; [|split].
  - rewrite Hdet. simpl. rewrite Hc2, Hc1. simpl. by rewrite <- app_assoc.
  - rewrite (style_of_styles _ _ e Hs1). by apply touch_styles_applied.
  - rewrite Hdet.
    rewrite (style_of_styles (touch_styles "" e (call CallRemoveTickerListener attached)) s2 e)
      by exact Hs2.
    apply touch_styles_applied; [done| |done]. simpl. by rewrite Hm1.
Qed.

Lemma attach_detach_round_trip_witness :
  listeners (setTargetElement None (setTargetElement (Some canvas) idle)) = listeners idle
  /\ _eventsAdded (setTargetElement None (setTargetElement (Some canvas) idle)) = false
  /\ domElement (setTargetElement None (setTargetElement (Some canvas) idle)) = None
  /\ calls (setTargetElement None (setTargetElement (Some canvas) idle))
     = calls idle ++ [CallAddTickerListener; CallRemoveTickerListener]
  /\ style_of (setTargetElement (Some canvas) idle) canvas !! "touchAction" = Some "none"
  /\ style_of (setTargetElement None (setTargetElement (Some canvas) idle)) canvas
       !! "touchAction" = Some "".
Proof.
  apply (attach_detach_round_trip canvas idle); (reflexivity || by split).
Defined.

Lemma sub_self (a : Doubles.number) :
  Doubles.isFinite a = true -> Doubles.isZero (Doubles.sub a a) = true.
Proof.
  destruct a as [[|]| | |sa m e]; try done. intros _.
  unfold Doubles.sub, SpecFloat.SFsub. by rewrite Z.sub_diag.
Qed.

Lemma mul_zero_finite (a b : Doubles.number) :
  Doubles.isZero a = true -> Doubles.isFinite b = true ->
  Doubles.isZero (Doubles.mul a b) = true.
Proof. by destruct a, b. Qed.

(** X20.  [mapPositionToPoint] sends the top left corner of the rectangle it
    measures against (the bounding rectangle of an element on the page,
    the origin for an element outside the document) to the origin of
    the view, in double precision: the offset from the corner is an exact
    zero, and so are its products with the scale of the canvas and with
    the resolution multiplier, as long as these two are finite (neither
    the displayed size nor the resolution is zero or NaN). *)
Theorem mapPositionToPoint_corner (e : Element) (s : EventSystem) :
  domElement s = Some e ->
  Doubles.isFinite (left (clientRect e)) = true ->
  Doubles.isFinite (top (clientRect e)) = true ->
  Doubles.isFinite (Doubles.div (width e) (rect_width (clientRect e))) = true ->
  Doubles.isFinite (Doubles.div (height e) (rect_height (clientRect e))) = true ->
  Doubles.isFinite (Doubles.div (Doubles.integer 1) (resolution s)) = true ->
  exists corner,
    mapPositionToPoint (left (clientRect e)) (top (clientRect e)) s = Some corner
    /\ Doubles.isZero (Doubles.x corner) = true
    /\ Doubles.isZero (Doubles.y corner) = true.
Proof.
  intros He Hl Ht Hw Hh Hr.
  unfold mapPositionToPoint. rewrite He. eexists. split; [reflexivity|]. simpl.
  split; apply mul_zero_finite; try done; apply mul_zero_finite; try done;
    by apply sub_self.
Qed.

Lemma mapPositionToPoint_corner_witness :
  exists corner,
    mapPositionToPoint (Doubles.integer 10) (Doubles.integer 20)
                       (set_domElement (Some canvas) idle)
    = Some corner
    /\ Doubles.isZero (Doubles.x corner) = true
    /\ Doubles.isZero (Doubles.y corner) = true.
Proof.
  apply (mapPositionToPoint_corner canvas (set_domElement (Some canvas) idle));
    reflexivity.
Defined.

Example mapPositionToPoint_centre :
  mapPositionToPoint (Doubles.integer 210) (Doubles.integer 170)
                     (set_domElement (Some canvas) idle)
  = Some (Doubles.mkPoint (Doubles.integer 200) (Doubles.integer 150)).
Proof. by vm_compute. Qed.

Lemma TOUCH_TO_POINTER_values (t t' : string) :
  TOUCH_TO_POINTER !! t = Some t' ->
  t' ∈ ["pointerdown"; "pointerup"; "pointerupoutside"; "pointermove"; "pointercancel"].
Proof.
  unfold TOUCH_TO_POINTER. rewrite !lookup_insert, lookup_empty.
  repeat case_decide; intros [= <-]; set_solver.
Qed.

(** X21.  Whatever the browser supports, the event boundary is only ever handed
    pointer events: every type the system listens for with a pointer
    handler becomes one of [pointerdown], [pointermove], [pointerup],
    [pointerout] and [pointerover], and no federated type starts with
    ["mouse"]. *)
Theorem listened_types_become_pointer_types (s : EventSystem) (e : N) (t : string) :
  Forall (fun l => federatedType (type l) ∈ pointerTypes) (pointerListeners s e)
  /\ String.prefix "mouse" (federatedType t) = false.
Proof.
  split.
  - unfold pointerListeners, pointerTypes.
    destruct (supportsPointerEvents s), (supportsTouchEvents s); simpl;
      repeat (apply Forall_cons; split; [vm_compute; set_solver|]);
      apply Forall_nil_2.
  - unfold federatedType.
    destruct (decide (t = "pointerleave")) as [->|Hne]; [reflexivity|].
    destruct (String.prefix "mouse" t) eqn:Em; [reflexivity|].
    destruct (String.prefix "touch" t) eqn:Et; [|done].
    destruct (TOUCH_TO_POINTER !! t) as [t'|] eqn:Ht; [|done].
    destruct (decide (t' = "")); [done|].
    apply TOUCH_TO_POINTER_values in Ht.
    repeat (apply elem_of_cons in Ht as [->|Ht]; [reflexivity|]).
    by apply elem_of_nil in Ht.
Qed.

End EventsProps.

(* ===================================================================== *)
(** * Properties of the pointer data normalisation *)
(* ===================================================================== *)

Module PointerDataProps.
Import PointerData.

Lemma normalizeTouch_complete (event : NativeEvent) (touch : Native) :
  complete (normalizeTouch event touch)
  /\ isNormalized (normalizeTouch event touch) = Some true
  /\ is_Some (button (normalizeTouch event touch))
  /\ is_Some (buttons (normalizeTouch event touch)).
Proof.
  unfold complete, normalizeTouch, fill. simpl.
  repeat split; try done; by match goal with |- is_Some (match ?x with _ => _ end) =>
                                   destruct x end.
Qed.

Lemma normalizeMouse_complete (e : Native) :
  complete (normalizeMouse e) /\ isNormalized (normalizeMouse e) = Some true.
Proof.
  unfold complete, normalizeMouse, fill. simpl.
  repeat split; try done; by match goal with |- is_Some (match ?x with _ => _ end) =>
                                   destruct x end.
Qed.

(** X22.  A touch event that the system takes as such yields one pointer datum
    per changed touch, and a mouse event that is not a native pointer event
    yields one; each of them has every property of a pointer event filled
    in and is marked as normalised.  Hence the result is empty only for a
    touch event without changed touches. *)
Theorem normalized_data_is_complete (hasMouseEvent : bool) (s : Events.EventSystem)
    (event : NativeEvent) :
  let data := _normalizeToPointerData hasMouseEvent s event in
  length data
  = (if Events.supportsTouchEvents s && instanceofTouchEvent (class event)
     then length (changedTouches event) else 1%nat)
  /\ (if Events.supportsTouchEvents s && instanceofTouchEvent (class event)
      then Forall (fun n => complete n /\ isNormalized n = Some true) data
      else if negb hasMouseEvent
              || (instanceofMouseEvent (class event)
                  && (negb (Events.supportsPointerEvents s)
                      || negb (instanceofPointerEvent (class event))))
      then Forall (fun n => complete n /\ isNormalized n = Some true) data
      else data = [own event]).
Proof.
  cbv zeta. unfold _normalizeToPointerData.
  destruct (Events.supportsTouchEvents s && instanceofTouchEvent (class event)).
  - split; [apply length_map|].
    apply Forall_map, Forall_forall. intros touch _.
    by destruct (normalizeTouch_complete event touch) as (? & ? & _).
  - destruct (negb hasMouseEvent || _); split; try done.
    apply Forall_singleton, normalizeMouse_complete.
Qed.

(** X23.  Normalising fills in only what is missing: a property of a touch that
    is already defined keeps its value, with the exception of [offsetX] and
    [offsetY], which are overwritten with the client position whenever
    [layerX] or [layerY] is missing.  A second normalisation changes
    nothing. *)
Theorem normalizeTouch_fills_gaps (event : NativeEvent) (touch : Native) :
  let filled := normalizeTouch event touch in
  (forall v, button touch = Some v -> button filled = Some v)
  /\ (forall v, buttons touch = Some v -> buttons filled = Some v)
  /\ (forall v, isPrimary touch = Some v -> isPrimary filled = Some v)
  /\ (forall v, width touch = Some v -> width filled = Some v)
  /\ (forall v, height touch = Some v -> height filled = Some v)
  /\ (forall v, pointerType touch = Some v -> pointerType filled = Some v)
  /\ (forall v, pointerId touch = Some v -> pointerId filled = Some v)
  /\ (forall v, pressure touch = Some v -> pressure filled = Some v)
  /\ (forall v, layerX touch = Some v -> layerX filled = Some v)
  /\ (layerX touch = None -> offsetX filled = clientX touch /\ layerX filled = clientX touch)
  /\ (layerY touch = None -> offsetY filled = clientY touch /\ layerY filled = clientY touch)
  /\ normalizeTouch event filled = filled.
Proof.
  cbv zeta. unfold normalizeTouch, fill. simpl.
  destruct touch as [ty b bs ip w h tx tyy pt pid pr tw tp lx ly ox oy iN rx ry idf f cx cy].
  simpl.
  repeat (split; [by intros; simplify_eq|]).
  f_equal; repeat case_match; congruence.
Qed.

Lemma normalizeTouch_fills_gaps_witness :
  (forall v, button bare_touch = Some v
             -> button (normalizeTouch touchstart bare_touch) = Some v)
  /\ (forall v, buttons bare_touch = Some v
                -> buttons (normalizeTouch touchstart bare_touch) = Some v)
  /\ (forall v, isPrimary bare_touch = Some v
                -> isPrimary (normalizeTouch touchstart bare_touch) = Some v)
  /\ (forall v, width bare_touch = Some v
                -> width (normalizeTouch touchstart bare_touch) = Some v)
  /\ (forall v, height bare_touch = Some v
                -> height (normalizeTouch touchstart bare_touch) = Some v)
  /\ (forall v, pointerType bare_touch = Some v
                -> pointerType (normalizeTouch touchstart bare_touch) = Some v)
  /\ (forall v, pointerId bare_touch = Some v
                -> pointerId (normalizeTouch touchstart bare_touch) = Some v)
  /\ (forall v, pressure bare_touch = Some v
                -> pressure (normalizeTouch touchstart bare_touch) = Some v)
  /\ (forall v, layerX bare_touch = Some v
                -> layerX (normalizeTouch touchstart bare_touch) = Some v)
  /\ (layerX bare_touch = None
      -> offsetX (normalizeTouch touchstart bare_touch) = clientX bare_touch
         /\ layerX (normalizeTouch touchstart bare_touch) = clientX bare_touch)
  /\ (layerY bare_touch = None
      -> offsetY (normalizeTouch touchstart bare_touch) = clientY bare_touch
         /\ layerY (normalizeTouch touchstart bare_touch) = clientY bare_touch)
  /\ normalizeTouch touchstart (normalizeTouch touchstart bare_touch)
     = normalizeTouch touchstart bare_touch.
Proof. exact (normalizeTouch_fills_gaps touchstart bare_touch). Defined.

Example bare_touch_normalised :
  _normalizeToPointerData true Events.idle touchstart
  = [mkNative (Some "touchstart") (Some 0) (Some 1) (Some true) (Some 1%Q) (Some 1%Q)
              (Some 0%Q) (Some 0%Q) (Some "touch") (Some 7) (Some (1 # 2)%Q)
              (Some 0%Q) (Some 0%Q) (Some 120%Q) (Some 45%Q) (Some 120%Q) (Some 45%Q)
              (Some true) None None (Some 7) None (Some 120%Q) (Some 45%Q)].
Proof. reflexivity. Qed.

End PointerDataProps.

(* ===================================================================== *)
(** * Hit testing and re-adding *)
(* ===================================================================== *)

Module HitTestProps.
Import Scene.

Lemma NineSlice_containsPoint_dirty (point : PointData) (v : NineSlice.View) :
  _boundsDirty v = true ->
  fst (containsPoint point v) = true
  <-> (- _x (NineSlice._anchor (self v)) * NineSlice._width (self v) <= x point)%Q
      /\ (x point <= - _x (NineSlice._anchor (self v)) * NineSlice._width (self v)
                     + NineSlice._width (self v))%Q
      /\ (- _y (NineSlice._anchor (self v)) * NineSlice._height (self v) <= y point)%Q
      /\ (y point <= - _y (NineSlice._anchor (self v)) * NineSlice._height (self v)
                     + NineSlice._height (self v))%Q.
Proof.
  intros Hd. unfold containsPoint. rewrite (ViewProps.bounds_dirty v Hd). simpl.
  unfold geq, leq. rewrite !andb_true_iff, !Qle_bool_iff. tauto.
Qed.

(** X24.  Hit testing a [NineSliceSprite] against freshly computed bounds: the
    edges of the rectangle count as inside; a sprite whose width or height
    is negative contains no point at all; and a sprite of positive size
    contains its own origin exactly when both coordinates of its anchor lie
    between 0 and 1. *)
Theorem NineSlice_hit_test (point : PointData) (v : NineSlice.View) :
  _boundsDirty v = true ->
  let ax := _x (NineSlice._anchor (self v)) in
  let ay := _y (NineSlice._anchor (self v)) in
  let w := NineSlice._width (self v) in
  let h := NineSlice._height (self v) in
  ((w < 0)%Q \/ (h < 0)%Q -> fst (containsPoint point v) = false)
  /\ ((0 <= w)%Q -> (0 <= h)%Q ->
      fst (containsPoint (mkPoint (- ax * w) (- ay * h)) v) = true
      /\ fst (containsPoint (mkPoint (- ax * w + w) (- ay * h + h)) v) = true)
  /\ ((0 < w)%Q -> (0 < h)%Q ->
      (fst (containsPoint (mkPoint 0 0) v) = true
       <-> (0 <= ax)%Q /\ (ax <= 1)%Q /\ (0 <= ay)%Q /\ (ay <= 1)%Q)).
Proof.
  intros Hd ax ay w h. split; [|split].
  - intros Hneg. apply not_true_is_false. intros Hin.
    apply (NineSlice_containsPoint_dirty point v Hd) in Hin.
    fold ax ay w h in Hin. destruct Hneg; lra.
  - intros Hw Hh. rewrite !(NineSlice_containsPoint_dirty _ v Hd).
    fold ax ay w h. simpl. repeat split; lra.
  - intros Hw Hh. rewrite (NineSlice_containsPoint_dirty _ v Hd).
    fold ax ay w h. simpl. split.
    + intros (H1 & H2 & H3 & H4). repeat split; nra.
    + intros (H1 & H2 & H3 & H4). repeat split; nra.
Qed.

Lemma NineSlice_hit_test_witness :
  ((NineSlice._width (self Samples.button) < 0)%Q
   \/ (NineSlice._height (self Samples.button) < 0)%Q ->
   fst (containsPoint (mkPoint 5 5) Samples.button) = false)
  /\ ((0 <= NineSlice._width (self Samples.button))%Q ->
      (0 <= NineSlice._height (self Samples.button))%Q ->
      fst (containsPoint
             (mkPoint (- _x (NineSlice._anchor (self Samples.button))
                       * NineSlice._width (self Samples.button))
                      (- _y (NineSlice._anchor (self Samples.button))
                       * NineSlice._height (self Samples.button)))
             Samples.button) = true
      /\ fst (containsPoint
                (mkPoint (- _x (NineSlice._anchor (self Samples.button))
                          * NineSlice._width (self Samples.button)
                          + NineSlice._width (self Samples.button))
                         (- _y (NineSlice._anchor (self Samples.button))
                          * NineSlice._height (self Samples.button)
                          + NineSlice._height (self Samples.button)))
                Samples.button) = true)
  /\ ((0 < NineSlice._width (self Samples.button))%Q ->
      (0 < NineSlice._height (self Samples.button))%Q ->
      (fst (containsPoint (mkPoint 0 0) Samples.button) = true
       <-> (0 <= _x (NineSlice._anchor (self Samples.button)))%Q
           /\ (_x (NineSlice._anchor (self Samples.button)) <= 1)%Q
           /\ (0 <= _y (NineSlice._anchor (self Samples.button)))%Q
           /\ (_y (NineSlice._anchor (self Samples.button)) <= 1)%Q)).
Proof. apply (NineSlice_hit_test (mkPoint 5 5) Samples.button). reflexivity. Defined.

Lemma update_keeping_size (s : NineSlice.NineSliceSprite) (v : NineSlice.View) :
  NineSlice._anchor s = NineSlice._anchor (self v) ->
  NineSlice._width s = NineSlice._width (self v) ->
  NineSlice._height s = NineSlice._height (self v) ->
  anchored (fst (bounds (onViewUpdate (set_self s v))))
           (_x (NineSlice._anchor (self v))) (_y (NineSlice._anchor (self v)))
           (NineSlice._width (self v)) (NineSlice._height (self v))
  /\ _didViewChangeTick (onViewUpdate (set_self s v)) = _didViewChangeTick v + 1
  /\ NineSliceSizing.getSize (onViewUpdate (set_self s v)) = NineSliceSizing.getSize v.
Proof.
  intros Ha Hw Hh.
  pose proof (ViewMoreProps.bounds_after_update_anchored (set_self s v)) as Hb.
  rewrite !ViewMoreProps.onViewUpdate_self in Hb. simpl in Hb.
  rewrite Ha, Hw, Hh in Hb. split; [exact Hb|].
  split; [by rewrite ViewProps.onViewUpdate_tick|].
  unfold NineSliceSizing.getSize. rewrite ViewMoreProps.onViewUpdate_self. simpl.
  by rewrite Hw, Hh.
Qed.

(** X25.  Assigning a border width of a [NineSliceSprite] counts as an update
    (one tick, bounds dirty), yet the rectangle read afterwards is the one
    for the unchanged size: the borders do not enter the bounds. *)
Theorem NineSlice_borders_keep_bounds (q : Q) (v : NineSlice.View) :
  let ax := _x (NineSlice._anchor (self v)) in
  let ay := _y (NineSlice._anchor (self v)) in
  let w := NineSlice._width (self v) in
  let h := NineSlice._height (self v) in
  Forall (fun setter : Q -> NineSlice.View -> NineSlice.View =>
            anchored (fst (bounds (setter q v))) ax ay w h
            /\ _didViewChangeTick (setter q v) = _didViewChangeTick v + 1
            /\ NineSliceSizing.getSize (setter q v) = NineSliceSizing.getSize v)
         [NineSlice.set_leftWidth; NineSlice.set_topHeight;
          NineSlice.set_rightWidth; NineSlice.set_bottomHeight].
Proof.
  cbv zeta.
  repeat (apply Forall_cons; split; [by apply update_keeping_size|]).
  apply Forall_nil_2.
Qed.

End HitTestProps.

Module ReAddProps.
Import MeshPipe MeshPipeLedger MeshPipeProps MeshPipeLedgerProps.

Lemma getBatchableMesh_batch (mesh : Mesh) (p : Pipe) :
  batch (snd (_getBatchableMesh mesh p)) = batch p.
Proof.
  unfold _getBatchableMesh.
  by destruct (record_at (_gpuBatchableMeshHash p) (uid mesh)).
Qed.

Lemma getMeshData_batch (mesh : Mesh) (p : Pipe) :
  batch (snd (_getMeshData mesh p)) = batch p.
Proof.
  unfold _getMeshData. by destruct (record_at (_meshDataHash p) (uid mesh)).
Qed.

Lemma validateRenderable_batch check (mesh : Mesh) (p : Pipe) :
  batch (snd (validateRenderable check mesh p)) = batch p.
Proof.
  unfold validateRenderable.
  pose proof (getMeshData_batch mesh p) as H1.
  destruct (_getMeshData mesh p) as [d p1]. simpl in H1.
  destruct (negb (eqb _ _)); simpl; [done|].
  destruct (batched mesh); simpl; [|done].
  destruct (sizesDiffer mesh _); simpl; [done|].
  match goal with
  | |- context [_getBatchableMesh ?m ?q] =>
      pose proof (getBatchableMesh_batch m q) as H2;
      destruct (_getBatchableMesh m q) as [g q']
  end.
  simpl in H2.
  destruct (_batcher _); simpl; [|congruence].
  destruct (check _ _) as [ok g']. simpl. congruence.
Qed.

(** X12.  After [validateRenderable], however it ended, the mesh data carries
    the mesh's current eligibility, so the [addRenderable] that follows
    places the mesh by what it is now, not by what it was when it was last
    added: a batched mesh goes to the batcher, which leaves the instruction
    set alone unless the texture forces a break, and any other mesh gets a
    break and a draw instruction of its own. *)
Theorem add_after_validate_follows_mesh
    (check : BatchableMesh -> Texture -> bool * BatchableMesh)
    (mesh : Mesh) (instructionSet : InstructionSet) (p : Pipe) :
  snd (addRenderable mesh instructionSet (snd (validateRenderable check mesh p)))
  = if batched mesh
    then if compatible (_texture mesh) (batch p) then instructionSet
         else instructionSet ++ [DrawBatch (accumulating (batch p))]
    else instructionSet
         ++ [DrawBatch (accumulating (batch p)); DrawRenderable (uid mesh)].
Proof.
  destruct (validateRenderable_records check mesh p) as (d & Hd & Hflag & _).
  unfold addRenderable. rewrite (getMeshData_stored _ _ _ Hd), Hflag.
  rewrite validateRenderable_batch.
  destruct (batched mesh); simpl.
  - destruct (_getBatchableMesh mesh _) as [g q].
    pose proof (addToBatch_fields
                  (set_geometry (_geometry mesh) (setTexture (_texture mesh) g))
                  instructionSet (batch p)) as Hadd.
    destruct (Batcher_addToBatch _ _ _) as [[g' b'] set'].
    by destruct Hadd as (_ & -> & _).
  - unfold InstructionSet_add. by rewrite <- app_assoc.
Qed.

Example stale_eligibility_without_validate :
  snd (addRenderable (mkMesh 6 true Samples.quad Samples.button_texture 9 false) []
                     Samples.pipe)
  = [DrawBatch [4%N]; DrawRenderable 6%N].
Proof. reflexivity. Qed.

End ReAddProps.
